(** * evo_tts: a shallow embedding of the synthesis pipeline

    The C++ sources are embedded function by function, keeping their names:
    text utilities and number reading ([TextUtils], [NumberUtils]), the text
    normaliser with the [std::regex] patterns it uses ([Regex],
    [TextNormalizer]), the IPA rewriting for English ([PhonemeUtils]), the
    Kokoro phonemizer and voice manager ([KokoroPhonemizer],
    [KokoroVoiceManager]), [float] arithmetic ([F32]), the result types
    ([Types]), the ISTFT ([Vocoder]), the configuration ([Config]) and the
    two backend families ([MatchaBackend], [KokoroBackend]).

    Conventions.
    - [std::string] is [string]: a sequence of bytes, so that a CJK character
      is three [ascii] elements, exactly as the C++ code sees it.
    - C++ [int], [int32_t], [int64_t] are [Z]; where a width matters the
      bound is written out.
    - [float] is IEEE-754 binary32, taken from [SpecFloat] with
      [prec = 24] and [emax = 128].
    - A C++ exception is the [Throw] branch of [Cxx.result]; undefined
      behaviour (out-of-bounds access, signed overflow) is [Throw undefined].
    - Calls that leave the process (ONNX Runtime, FFTW, espeak-ng, cpp-pinyin,
      the clock) are parameters of the functions that make them. *)

From Stdlib Require Import ZArith List String Ascii Bool Lia.
From Stdlib Require Import SpecFloat.
From stdpp Require Import base list strings gmap.

Local Open Scope Z_scope.

(* ===================================================================== *)
(** * C++ runtime: exceptions, characters, strings, integers              *)
(* ===================================================================== *)

Module Cxx.

Inductive exn :=
| out_of_range
| invalid_argument
| length_error
| runtime_error
| undefined.

Inductive result (A : Type) :=
| Ok (a : A)
| Throw (e : exn).
Arguments Ok {A} a.
Arguments Throw {A} e.

(** Sequencing: the first exception thrown propagates. With stdpp's
    notation, [x ← c; k] runs [c], binds its value to [x] and goes on
    with [k]. *)
#[global] Instance result_bind : MBind result := fun A B f r =>
  match r with
  | Ok a => f a
  | Throw e => Throw e
  end.
#[global] Instance result_ret : MRet result := fun A a => Ok a.

(** In a proof: a sequence that returned went through its first step. *)
Ltac inv_bind H :=
  let a := fresh "a" in
  let Ha := fresh "H" a in
  lazymatch type of H with
  | mbind ?k ?c = Ok ?b =>
      let E := fresh in
      assert (E : exists x, c = Ok x /\ k x = Ok b)
        by (destruct c; [eexists; split; [reflexivity|exact H]|discriminate H]);
      clear H; destruct E as (a & Ha & H); cbv beta in H
  end.

Definition INT_MIN : Z := -2147483648.
Definition INT_MAX : Z := 2147483647.
Definition LLONG_MIN : Z := -9223372036854775808.
Definition LLONG_MAX : Z := 9223372036854775807.

Definition in_int (z : Z) : bool := (INT_MIN <=? z) && (z <=? INT_MAX).

(** [static_cast<int>(n)] of a [size_t] (or any wider integer) *)
Definition to_int (z : Z) : Z := (z + 2 ^ 31) mod 2 ^ 32 - 2 ^ 31.
Definition in_llong (z : Z) : bool := (LLONG_MIN <=? z) && (z <=? LLONG_MAX).

(** [static_cast<unsigned char>(c)] *)
Definition code (c : ascii) : Z := Z.of_N (N_of_ascii c).
Definition chr (z : Z) : ascii := ascii_of_N (Z.to_N z).

(** A string literal written with [\x..] escapes in the source. *)
Definition hx (bytes : list Z) : string :=
  string_of_list_ascii (map chr bytes).

Definition isdigit (c : ascii) : bool := (48 <=? code c) && (code c <=? 57).
Definition isupper (c : ascii) : bool := (65 <=? code c) && (code c <=? 90).
Definition islower (c : ascii) : bool := (97 <=? code c) && (code c <=? 122).
Definition isalpha (c : ascii) : bool := isupper c || islower c.
Definition isspace (c : ascii) : bool :=
  (code c =? 32) || ((9 <=? code c) && (code c <=? 13)).
Definition toupper (c : ascii) : ascii :=
  if islower c then chr (code c - 32) else c.

Definition size (s : string) : Z := Z.of_nat (String.length s).

(** [s.substr(pos)] for [pos <= s.size()] *)
Fixpoint drop_str (n : nat) (s : string) : string :=
  match n, s with
  | O, _ => s
  | S n', EmptyString => EmptyString
  | S n', String _ s' => drop_str n' s'
  end.

(** [s.substr(pos, len)] for [pos <= s.size()] *)
Definition substr (s : string) (pos len : nat) : string :=
  String.substring pos len s.

(** [s.back()] *)
Fixpoint back (s : string) : option ascii :=
  match s with
  | EmptyString => None
  | String c EmptyString => Some c
  | String _ s' => back s'
  end.

(** [s.pop_back()] *)
Fixpoint pop_back (s : string) : string :=
  match s with
  | EmptyString => EmptyString
  | String c EmptyString => EmptyString
  | String c s' => String c (pop_back s')
  end.

(** [s.find(c) != npos] and [s.find(c)] *)
Fixpoint find_char (c : ascii) (s : string) : option nat :=
  match s with
  | EmptyString => None
  | String d s' =>
      if Ascii.eqb c d then Some O else option_map S (find_char c s')
  end.

(** The decimal digits a [strtol]-style conversion consumes. *)
Fixpoint leading_digits (s : string) : list Z :=
  match s with
  | EmptyString => []
  | String c s' => if isdigit c then (code c - 48) :: leading_digits s' else []
  end.

Definition digits_value (ds : list Z) : Z :=
  fold_left (fun acc d => acc * 10 + d) ds 0.

Fixpoint skip_space (s : string) : string :=
  match s with
  | String c s' => if isspace c then skip_space s' else s
  | EmptyString => s
  end.

(** The value [strtol]/[strtoll] reads in base 10: optional white space, an
    optional sign, then at least one digit. *)
Definition parse_integer (s : string) : result Z :=
  let s1 := skip_space s in
  let '(neg, s2) :=
    match s1 with
    | String "-" r => (true, r)
    | String "+" r => (false, r)
    | _ => (false, s1)
    end in
  match leading_digits s2 with
  | [] => Throw invalid_argument
  | ds => Ok (if neg : bool then - digits_value ds else digits_value ds)
  end.

(** [std::stoi] *)
Definition stoi (s : string) : result Z :=
  v ← parse_integer s; if in_int v then Ok v else Throw out_of_range.

(** [std::stoll] *)
Definition stoll (s : string) : result Z :=
  v ← parse_integer s; if in_llong v then Ok v else Throw out_of_range.

(** [std::to_string] of a non-negative value, most significant digit first. *)
Fixpoint to_digits (fuel : nat) (n : Z) (acc : string) : string :=
  match fuel with
  | O => acc
  | S f =>
      let acc' := String (chr (48 + n mod 10)) acc in
      if n / 10 =? 0 then acc' else to_digits f (n / 10) acc'
  end.

Definition to_string (n : Z) : string :=
  if n <? 0 then String "-" (to_digits 20 (- n) EmptyString)
  else to_digits 20 n EmptyString.

End Cxx.

(* ===================================================================== *)
(** * text_utils.cpp                                                      *)
(* ===================================================================== *)

Module TextUtils.
Import Cxx.

(** The byte length [splitUtf8] reads off a leading byte. *)
Definition utf8_char_len (c : ascii) : nat :=
  let b := code c in
  if Z.land b 128 =? 0 then 1%nat
  else if Z.land b 224 =? 192 then 2%nat
  else if Z.land b 240 =? 224 then 3%nat
  else if Z.land b 248 =? 240 then 4%nat
  else 1%nat.

Fixpoint splitUtf8_from (fuel : nat) (str : string) : list string :=
  match fuel, str with
  | S f, String c _ =>
      let char_len := utf8_char_len c in
      let rest := drop_str char_len str in
      if (char_len <=? String.length str)%nat
      then substr str 0 char_len :: splitUtf8_from f rest
      else splitUtf8_from f rest
  | _, _ => []
  end.

Definition splitUtf8 (str : string) : list string :=
  splitUtf8_from (String.length str) str.

Definition isChinese (ch : ascii) : bool :=
  (228 <=? code ch) && (code ch <=? 233).

Definition isChineseChar (ch : string) : bool :=
  match ch with
  | String c0 (String c1 (String _ EmptyString)) =>
      if (228 <=? code c0) && (code c0 <=? 233) then
        if (code c0 =? 228) && (code c1 <? 184) then false
        else if (code c0 =? 233) && (191 <? code c1) then false
        else true
      else false
  | _ => false
  end.

Fixpoint containsChinese (text : string) : bool :=
  match text with
  | EmptyString => false
  | String ch rest => if isChinese ch then true else containsChinese rest
  end.

Definition isEnglishLetter (ch : string) : bool :=
  match ch with
  | String c EmptyString => isalpha c
  | _ => false
  end.

Definition isDigit (ch : string) : bool :=
  match ch with
  | String c EmptyString => isdigit c
  | _ => false
  end.

Definition mapChinesePunctToAscii (punct : string) : string :=
  if String.eqb punct "！" then "!"
  else if String.eqb punct "？" then "?"
  else if String.eqb punct "，" then ","
  else if String.eqb punct "。" then "."
  else if String.eqb punct "：" then ":"
  else if String.eqb punct "；" then ";"
  else if String.eqb punct "、" then ","
  else if String.eqb punct "'" then "'"
  else if String.eqb punct "'" then "'"
  else if String.eqb punct "—" then "-"
  else if String.eqb punct "–" then "-"
  else if String.eqb punct "…" then "..."
  else punct.

(** The [puncts] set of [isPunctuation], as the initialiser is written: the
    fifth line of the list holds two runs of three quotation marks around a
    comma and a space, which the compiler reads as the single literal made
    of a comma and a space. *)
Definition puncts : list string :=
  [","; "."; "!"; "?"; ":"; String (chr 34) EmptyString; "'"; "，";
   "。"; "！"; "？"; ", "; "'"; "'"; "；"; "、";
   "—"; "–"; "…"; "-"; "("; ")"; "（"; "）";
   "["; "]"; "【"; "】"; "{"; "}"; "《"; "》"].

(** [puncts.count(s) > 0] *)
Definition isPunctuation (s : string) : bool :=
  existsb (String.eqb s) puncts.

(** [token_to_id.find(key) != token_to_id.end()] *)
Definition has_token (token_to_id : gmap string Z) (key : string) : bool :=
  bool_decide (is_Some (token_to_id !! key)).

Definition mapPunctuation (punct : string) (token_to_id : gmap string Z) : string :=
  if has_token token_to_id punct then punct
  else
    let ascii_punct := mapChinesePunctToAscii punct in
    if negb (String.eqb ascii_punct punct) && has_token token_to_id ascii_punct
    then ascii_punct
    else if String.eqb punct "。" || String.eqb punct "！" || String.eqb punct "？"
            || String.eqb punct "." || String.eqb punct "!" || String.eqb punct "?"
    then
      if has_token token_to_id "sil" then "sil"
      else if has_token token_to_id "sp" then "sp"
      else if has_token token_to_id "<eps>" then "<eps>"
      else ""
    else "".

End TextUtils.

(* ===================================================================== *)
(** * number_utils.cpp                                                    *)
(* ===================================================================== *)

Module NumberUtils.
Import Cxx.

Definition digits : list string :=
  ["零"; "一"; "二"; "三"; "四"; "五"; "六"; "七"; "八"; "九"].

Definition digit_name (d : Z) : string := nth (Z.to_nat d) digits "".

(** One pass of the positive branch of [intToChineseReading]: [rec] reads
    the quotient of a group. The pair threaded through the steps is the
    remaining [num] and the text so far. *)
Definition group_step (rec : Z -> string) (unit_value zero_below : Z)
    (name : string) (st : Z * string) : Z * string :=
  let '(num, result) := st in
  if unit_value <=? num then
    let result := result +:+ rec (num / unit_value) +:+ name in
    let num := num mod unit_value in
    (num, if (0 <? num) && (num <? zero_below) then result +:+ "零" else result)
  else st.

Fixpoint intToChineseReading_fuel (fuel : nat) (num : Z) : string :=
  match fuel with
  | O => ""
  | S f =>
      if num =? 0 then "零"
      else if num <? 0 then "负" +:+ intToChineseReading_fuel f (- num)
      else
        let rec := intToChineseReading_fuel f in
        let st := (num, "") in
        let st := group_step rec 1000000000000 100000000000 "万亿" st in
        let st := group_step rec 100000000 10000000 "亿" st in
        let st := group_step rec 10000 1000 "万" st in
        let st := group_step digit_name 1000 100 "千" st in
        let st := group_step digit_name 100 10 "百" st in
        let '(num, result) := st in
        let '(num, result) :=
          if 10 <=? num then
            let result :=
              if negb (num / 10 =? 1) || (0 <? String.length result)%nat
              then result +:+ digit_name (num / 10) else result in
            (num mod 10, result +:+ "十")
          else (num, result) in
        if 0 <? num then result +:+ digit_name num else result
  end.

(** Every recursive call is on a quotient by at least 10^4 or on [-num], so
    the depth is at most [log2 |num| + 2]. *)
Definition intToChineseReading (num : Z) : string :=
  intToChineseReading_fuel (Z.to_nat (Z.log2 (Z.abs num)) + 2) num.

Definition isRomanNumeralChar (c : ascii) : bool :=
  let c := toupper c in
  Ascii.eqb c "I" || Ascii.eqb c "V" || Ascii.eqb c "X" || Ascii.eqb c "L"
  || Ascii.eqb c "C" || Ascii.eqb c "D" || Ascii.eqb c "M".

Fixpoint all_roman (str : string) : bool :=
  match str with
  | EmptyString => true
  | String c rest => if negb (isRomanNumeralChar c) then false else all_roman rest
  end.

Definition isRomanNumeral (str : string) : bool :=
  if (String.length str <? 2)%nat then false else all_roman str.

(** [values[c]]: [operator[]] of the map yields 0 for a key it has not. *)
Definition values (c : ascii) : Z :=
  if Ascii.eqb c "I" then 1
  else if Ascii.eqb c "V" then 5
  else if Ascii.eqb c "X" then 10
  else if Ascii.eqb c "L" then 50
  else if Ascii.eqb c "C" then 100
  else if Ascii.eqb c "D" then 500
  else if Ascii.eqb c "M" then 1000
  else 0.

Fixpoint romanToInt_from (roman : string) (result : Z) : Z :=
  match roman with
  | EmptyString => result
  | String ci rest =>
      let value := values (toupper ci) in
      match rest with
      | String cn _ =>
          let next_value := values (toupper cn) in
          if value <? next_value then romanToInt_from rest (result - value)
          else romanToInt_from rest (result + value)
      | EmptyString => romanToInt_from rest (result + value)
      end
  end.

Definition romanToInt (roman : string) : Z := romanToInt_from roman 0.

End NumberUtils.

(* ===================================================================== *)
(** * std::regex (ECMAScript grammar) over bytes                          *)
(* ===================================================================== *)

(** The normaliser builds [std::regex] objects over [char]. Pattern and
    subject are byte sequences: a multi-byte character in a pattern is the
    sequence of its bytes, inside brackets each byte is a member of its own,
    and a quantifier after it applies to its last byte. Matching is the
    backtracking search of the ECMAScript grammar: leftmost start, left
    alternative first, greedy quantifiers. *)

Module Regex.
Import Cxx.

Inductive item :=
| IChar (c : ascii)
| IRange (lo hi : ascii)
| IDigit
| ISpace.

Inductive re :=
| Eps
| Lit (c : ascii)
| Class (items : list item)
| WordB
| Seq (r1 r2 : re)
| Alt (r1 r2 : re)
| Rep (lo : nat) (hi : option nat) (r : re)
| Grp (n : nat) (r : re).

Definition in_item (c : ascii) (i : item) : bool :=
  match i with
  | IChar d => Ascii.eqb c d
  | IRange lo hi => (code lo <=? code c) && (code c <=? code hi)
  | IDigit => isdigit c
  | ISpace => isspace c
  end.

Definition in_class (c : ascii) (items : list item) : bool :=
  existsb (in_item c) items.

Definition is_word (c : ascii) : bool :=
  isalpha c || isdigit c || Ascii.eqb c "_".

(** A position in the subject: the byte before it (when the matcher may
    look at it), its offset from the beginning, and what follows. *)
Record cursor := Cursor {
  before : option ascii;
  offset : nat;
  rest : string
}.

Definition captures := gmap nat (nat * nat).

Definition word_boundary (cur : cursor) : bool :=
  let left := match before cur with Some c => is_word c | None => false end in
  let right := match rest cur with String c _ => is_word c | EmptyString => false end in
  xorb left right.

Definition advance (cur : cursor) : option (ascii * cursor) :=
  match rest cur with
  | String c s => Some (c, Cursor (Some c) (S (offset cur)) s)
  | EmptyString => None
  end.

Definition outcome := option (cursor * captures).

Fixpoint run (r : re) (cur : cursor) (caps : captures)
    (k : cursor -> captures -> outcome) {struct r} : outcome :=
  match r with
  | Eps => k cur caps
  | Lit c =>
      match advance cur with
      | Some (d, cur') => if Ascii.eqb c d then k cur' caps else None
      | None => None
      end
  | Class items =>
      match advance cur with
      | Some (d, cur') => if in_class d items then k cur' caps else None
      | None => None
      end
  | WordB => if word_boundary cur then k cur caps else None
  | Seq r1 r2 => run r1 cur caps (fun cur' caps' => run r2 cur' caps' k)
  | Alt r1 r2 =>
      match run r1 cur caps k with
      | Some x => Some x
      | None => run r2 cur caps k
      end
  | Grp n r1 =>
      run r1 cur caps
        (fun cur' caps' => k cur' (<[n := (offset cur, offset cur')]> caps'))
  | Rep lo hi r1 =>
      (fix loop (fuel lo : nat) (hi : option nat) (cur : cursor)
           (caps : captures) {struct fuel} : outcome :=
         let stop := match lo with O => k cur caps | S _ => None end in
         match fuel, hi with
         | O, _ => stop
         | _, Some O => stop
         | S fuel', _ =>
             match
               run r1 cur caps (fun cur' caps' =>
                 if (lo =? 0)%nat && (offset cur' =? offset cur)%nat then None
                 else loop fuel' (Nat.pred lo) (option_map Nat.pred hi) cur' caps')
             with
             | Some x => Some x
             | None => stop
             end
         end) (lo + String.length (rest cur) + 1)%nat lo hi cur caps
  end.

(** A [std::smatch]. *)
Record smatch := SMatch {
  position : nat;
  mend : cursor;
  groups : captures
}.

Definition mlength (m : smatch) : nat := (offset (mend m) - position m)%nat.

(** [m[n].matched] and [m[n].str()] on the subject [text] *)
Definition matched (m : smatch) (n : nat) : bool :=
  match groups m !! n with Some _ => true | None => false end.

Definition str (text : string) (m : smatch) (n : nat) : string :=
  match groups m !! n with
  | Some (b, e) => substr text b (e - b)
  | None => ""
  end.

Definition whole (text : string) (m : smatch) : string :=
  substr text (position m) (mlength m).

(** A match that starts exactly at [cur]. *)
Definition match_here (r : re) (not_null : bool) (cur : cursor) : option smatch :=
  match
    run r cur ∅ (fun cur' caps' =>
      if not_null && (offset cur' =? offset cur)%nat then None
      else Some (cur', caps'))
  with
  | Some (cur', caps') => Some (SMatch (offset cur) cur' caps')
  | None => None
  end.

(** [regex_search]: the first start, from left to right, with a match. *)
Fixpoint search (r : re) (bef : option ascii) (off : nat) (s : string)
    {struct s} : option smatch :=
  match match_here r false (Cursor bef off s) with
  | Some m => Some m
  | None =>
      match s with
      | String c s' => search r (Some c) (S off) s'
      | EmptyString => None
      end
  end.

Definition search_at (r : re) (prev_avail : bool) (cur : cursor) : option smatch :=
  search r (if prev_avail then before cur else None) (offset cur) (rest cur).

(** [++it] of [std::sregex_iterator], repeated until the end iterator: the
    matches that follow [m]. After an empty match the iterator first tries
    a non-empty match at the same place, then moves one byte on;
    [match_prev_avail] is set from the first full search on. *)
Fixpoint more (fuel : nat) (r : re) (prev_avail : bool) (m : smatch) : list smatch :=
  match fuel with
  | O => []
  | S f =>
      let start := mend m in
      let go (start : cursor) :=
        match search_at r true start with
        | Some m' => m' :: more f r true m'
        | None => []
        end in
      if (mlength m =? 0)%nat then
        match advance start with
        | None => []
        | Some (_, next) =>
            match match_here r true
                    (Cursor (if prev_avail then before start else None)
                            (offset start) (rest start)) with
            | Some m' => m' :: more f r prev_avail m'
            | None => go next
            end
        end
      else go start
  end.

(** All matches a [for (sregex_iterator it(begin, end, re); it != end; ++it)]
    loop visits, in order. *)
Definition matches (r : re) (text : string) : list smatch :=
  match search r None 0 text with
  | Some m => m :: more (S (String.length text)) r false m
  | None => []
  end.

(** Pattern syntax *)
Definition digit : re := Class [IDigit].                   (* \d *)
Definition space : re := Class [ISpace].                   (* \s *)
Definition plus (r : re) : re := Rep 1 None r.             (* r+ *)
Definition star (r : re) : re := Rep 0 None r.             (* r* *)
Definition opt (r : re) : re := Rep 0 (Some 1%nat) r.      (* r? *)
Definition times (n : nat) (r : re) : re := Rep n (Some n) r.        (* r{n} *)
Definition between (lo hi : nat) (r : re) : re := Rep lo (Some hi) r. (* r{lo,hi} *)

Fixpoint lit (s : string) : re :=
  match s with
  | EmptyString => Eps
  | String c EmptyString => Lit c
  | String c s' => Seq (Lit c) (lit s')
  end.

Fixpoint seq (rs : list re) : re :=
  match rs with
  | [] => Eps
  | [r] => r
  | r :: rs' => Seq r (seq rs')
  end.

Fixpoint alt (rs : list re) : re :=
  match rs with
  | [] => Eps
  | [r] => r
  | r :: rs' => Alt r (alt rs')
  end.

(** The members a literal contributes inside brackets: one per byte. *)
Definition members (s : string) : list item :=
  map IChar (list_ascii_of_string s).

(** [std::regex_replace(text, re, fmt)] for a format without [$]: the text
    between the matches is copied and each match becomes [fmt]. *)
Fixpoint replace_loop (text fmt : string) (ms : list smatch) (last_pos : nat)
    (result : string) : string :=
  match ms with
  | [] => result +:+ drop_str last_pos text
  | m :: ms' =>
      replace_loop text fmt ms' (position m + mlength m)
        (result +:+ substr text last_pos (position m - last_pos) +:+ fmt)
  end.

Definition regex_replace (text : string) (r : re) (fmt : string) : string :=
  replace_loop text fmt (matches r text) 0 "".

End Regex.

(* ===================================================================== *)
(** * text_normalizer.cpp                                                 *)
(* ===================================================================== *)

Module TextNormalizer.
Import Cxx TextUtils NumberUtils.

Inductive Language := ZH | EN | AUTO.

Inductive NumberType :=
| CARDINAL | ORDINAL | DIGIT | PHONE | YEAR | DATE | TIME | PERCENTAGE
| DECIMAL | FRACTION | CURRENCY | RANGE | SCORE | UNKNOWN.

Definition is_EN (lang : Language) : bool :=
  match lang with EN => true | _ => false end.
Definition is_AUTO (lang : Language) : bool :=
  match lang with AUTO => true | _ => false end.

(** ** Word tables *)

Definition ENGLISH_ONES : list string :=
  [""; "one"; "two"; "three"; "four"; "five";
   "six"; "seven"; "eight"; "nine"; "ten";
   "eleven"; "twelve"; "thirteen"; "fourteen"; "fifteen";
   "sixteen"; "seventeen"; "eighteen"; "nineteen"].

Definition ENGLISH_TENS : list string :=
  [""; ""; "twenty"; "thirty"; "forty"; "fifty";
   "sixty"; "seventy"; "eighty"; "ninety"].

Definition ENGLISH_ORDINALS : list string :=
  [""; "first"; "second"; "third"; "fourth"; "fifth";
   "sixth"; "seventh"; "eighth"; "ninth"; "tenth";
   "eleventh"; "twelfth"; "thirteenth"; "fourteenth"; "fifteenth";
   "sixteenth"; "seventeenth"; "eighteenth"; "nineteenth"].

Definition ENGLISH_DIGIT_NAMES : list string :=
  ["zero"; "one"; "two"; "three"; "four";
   "five"; "six"; "seven"; "eight"; "nine"].

Definition CHINESE_DIGIT_NAMES : list string :=
  ["零"; "一"; "二"; "三"; "四";
   "五"; "六"; "七"; "八"; "九"].

Definition ENGLISH_MONTHS : list string :=
  [""; "January"; "February"; "March"; "April"; "May"; "June";
   "July"; "August"; "September"; "October"; "November"; "December"].

Definition CHINESE_MONTHS : list string :=
  [""; "一"; "二"; "三"; "四"; "五"; "六";
   "七"; "八"; "九"; "十"; "十一"; "十二"].

(** [table[i]] on a C array: reading outside it is undefined. *)
Definition at_ (table : list string) (i : Z) : result string :=
  if (0 <=? i) && (i <? Z.of_nat (length table))
  then Ok (nth (Z.to_nat i) table "")
  else Throw undefined.

(** [table[i]] where the code has just bounded [i] by the table size. *)
Definition at_in (table : list string) (i : Z) : string :=
  nth (Z.to_nat i) table "".

(** name -> (Chinese, English) *)
Definition MATH_OPERATORS : gmap string (string * string) :=
  list_to_map
    [("+", ("加", "plus"));
     ("-", ("减", "minus"));
     ("−", ("减", "minus"));
     ("*", ("乘", "times"));
     ("×", ("乘", "times"));
     ("÷", ("除以", "divided by"));
     ("/", ("除以", "divided by"));
     ("=", ("等于", "equals"));
     ("≠", ("不等于", "not equal to"));
     (">", ("大于", "greater than"));
     ("<", ("小于", "less than"));
     ("≥", ("大于等于", "greater than or equal to"));
     ("≤", ("小于等于", "less than or equal to"));
     (">=", ("大于等于", "greater than or equal to"));
     ("<=", ("小于等于", "less than or equal to"));
     ("^", ("的", "to the power of"));
     ("√", ("根号", "square root of"));
     ("±", ("正负", "plus or minus"))].

Definition UNITS : list (string * (string * string)) :=
  [("km", ("公里", "kilometers"));
   ("m", ("米", "meters"));
   ("cm", ("厘米", "centimeters"));
   ("mm", ("毫米", "millimeters"));
   ("mi", ("英里", "miles"));
   ("ft", ("英尺", "feet"));
   ("in", ("英寸", "inches"));
   ("kg", ("公斤", "kilograms"));
   ("g", ("克", "grams"));
   ("mg", ("毫克", "milligrams"));
   ("lb", ("磅", "pounds"));
   ("oz", ("盎司", "ounces"));
   ("L", ("升", "liters"));
   ("l", ("升", "liters"));
   ("ml", ("毫升", "milliliters"));
   ("mL", ("毫升", "milliliters"));
   ("°C", ("摄氏度", "degrees Celsius"));
   ("°F", ("华氏度", "degrees Fahrenheit"));
   ("℃", ("摄氏度", "degrees Celsius"));
   ("℉", ("华氏度", "degrees Fahrenheit"));
   ("m²", ("平方米", "square meters"));
   ("km²", ("平方公里", "square kilometers"));
   ("m2", ("平方米", "square meters"));
   ("km2", ("平方公里", "square kilometers"));
   ("km/h", ("公里每小时", "kilometers per hour"));
   ("m/s", ("米每秒", "meters per second"));
   ("mph", ("英里每小时", "miles per hour"));
   ("KB", ("千字节", "kilobytes"));
   ("MB", ("兆字节", "megabytes"));
   ("GB", ("吉字节", "gigabytes"));
   ("TB", ("太字节", "terabytes"));
   ("Mbps", ("兆比特每秒", "megabits per second"));
   ("Gbps", ("吉比特每秒", "gigabits per second"))].

Definition CURRENCY_SYMBOLS : gmap string (string * string) :=
  list_to_map
    [("¥", ("元", "yuan"));
     ("￥", ("元", "yuan"));
     ("$", ("美元", "dollars"));
     ("€", ("欧元", "euros"));
     ("£", ("英镑", "pounds"));
     ("₩", ("韩元", "won"));
     ("₹", ("卢比", "rupees"))].

Definition CURRENCY_SUFFIXES : gmap string (string * string) :=
  list_to_map
    [("元", ("元", "yuan"));
     ("块", ("块", "yuan"));
     ("块钱", ("块钱", "yuan"));
     ("美元", ("美元", "US dollars"));
     ("美金", ("美金", "US dollars"));
     ("人民币", ("人民币", "RMB"))].

(** ** Number reading *)

(** [while (!result.empty() && result.back() == ' ') result.pop_back();] *)
Fixpoint strip_trailing_spaces (s : string) : string :=
  match s with
  | EmptyString => EmptyString
  | String c s' =>
      match strip_trailing_spaces s' with
      | EmptyString => if Ascii.eqb c " " then EmptyString else String c EmptyString
      | t => String c t
      end
  end.

Definition scale_step (rec : Z -> string) (unit_value : Z) (name : string)
    (st : Z * string) : Z * string :=
  let '(num, result) := st in
  if unit_value <=? num
  then (num mod unit_value, result +:+ rec (num / unit_value) +:+ name)
  else st.

Fixpoint numberToWords_en (fuel : nat) (num : Z) : string :=
  match fuel with
  | O => ""
  | S f =>
      if num =? 0 then "zero"
      else if num <? 0 then "negative " +:+ numberToWords_en f (- num)
      else
        let rec := numberToWords_en f in
        let st := (num, "") in
        let st := scale_step rec 1000000000000 " trillion " st in
        let st := scale_step rec 1000000000 " billion " st in
        let st := scale_step rec 1000000 " million " st in
        let st := scale_step rec 1000 " thousand " st in
        let st := scale_step (at_in ENGLISH_ONES) 100 " hundred " st in
        let '(num, result) := st in
        let '(num, result) :=
          if 20 <=? num then
            let result := result +:+ at_in ENGLISH_TENS (num / 10) in
            (0, if negb (num mod 10 =? 0)
                then result +:+ "-" +:+ at_in ENGLISH_ONES (num mod 10)
                else result)
          else (num, result) in
        let result := if 0 <? num then result +:+ at_in ENGLISH_ONES num else result in
        strip_trailing_spaces result
  end.

(** As for [intToChineseReading], the recursion is on a quotient by at
    least 1000 or on [-num]. *)
Definition numberToWords (num : Z) (lang : Language) : string :=
  if is_EN lang
  then numberToWords_en (Z.to_nat (Z.log2 (Z.abs num)) + 2) num
  else intToChineseReading num.

Fixpoint numberToDigits_from (num : string) (lang : Language) (result : string) : string :=
  match num with
  | EmptyString => result
  | String c rest =>
      if isdigit c then
        let d := code c - 48 in
        let result :=
          if negb (String.eqb result "")
          then result +:+ (if is_EN lang then " " else "") else result in
        numberToDigits_from rest lang
          (result +:+ (if is_EN lang then at_in ENGLISH_DIGIT_NAMES d
                       else at_in CHINESE_DIGIT_NAMES d))
      else numberToDigits_from rest lang result
  end.

Definition numberToDigits (num : string) (lang : Language) : string :=
  numberToDigits_from num lang "".

Fixpoint decimal_digits (decimal_part : string) (lang : Language) (result : string) : string :=
  match decimal_part with
  | EmptyString => result
  | String c rest =>
      if isdigit c then
        let d := code c - 48 in
        decimal_digits rest lang
          (result +:+ (if is_EN lang then " " +:+ at_in ENGLISH_DIGIT_NAMES d
                       else at_in CHINESE_DIGIT_NAMES d))
      else decimal_digits rest lang result
  end.

Definition decimalToWords (decimal : string) (lang : Language) : result string :=
  match find_char "." decimal with
  | None => n ← stoll decimal; Ok (numberToWords n lang)
  | Some dot_pos =>
      let integer_part := substr decimal 0 dot_pos in
      let decimal_part := drop_str (S dot_pos) decimal in
      result ←
        (if String.eqb integer_part "" || String.eqb integer_part "0"
         then Ok (if is_EN lang then "zero" else "零")
         else n ← stoll integer_part; Ok (numberToWords n lang));
      let result := result +:+ (if is_EN lang then " point" else "点") in
      Ok (decimal_digits decimal_part lang result)
  end.

(** [base.length() > n && base.substr(base.length() - n) == suffix] *)
Definition ends_with (base suffix : string) : bool :=
  let n := String.length suffix in
  (n <? String.length base)%nat
  && String.eqb (drop_str (String.length base - n) base) suffix.

Definition drop_last (base : string) (n : nat) : string :=
  substr base 0 (String.length base - n).

Definition ordinalToWords (num : Z) (lang : Language) : string :=
  if is_EN lang then
    if (1 <=? num) && (num <? 20) then at_in ENGLISH_ORDINALS num
    else
      let base := numberToWords num lang in
      let special :=
        if (Z.rem num 10 =? 1) && negb (Z.rem num 100 =? 11) then
          if ends_with base "-one" then Some (drop_last base 3 +:+ "first")
          else if ends_with base "one" then Some (drop_last base 3 +:+ "first")
          else None
        else if (Z.rem num 10 =? 2) && negb (Z.rem num 100 =? 12) then
          if ends_with base "-two" then Some (drop_last base 3 +:+ "second")
          else if ends_with base "two" then Some (drop_last base 3 +:+ "second")
          else None
        else if (Z.rem num 10 =? 3) && negb (Z.rem num 100 =? 13) then
          if ends_with base "-three" then Some (drop_last base 5 +:+ "third")
          else if ends_with base "three" then Some (drop_last base 5 +:+ "third")
          else None
        else None in
      match special with
      | Some w => w
      | None =>
          match back base with
          | Some "y"%char => drop_last base 1 +:+ "ieth"
          | _ => base +:+ "th"
          end
      end
  else "第" +:+ intToChineseReading num.

Fixpoint year_digits (year_str : string) (result : string) : Cxx.result string :=
  match year_str with
  | EmptyString => Ok result
  | String c rest =>
      name ← at_ CHINESE_DIGIT_NAMES (code c - 48);
      year_digits rest (result +:+ name)
  end.

Definition yearToWords (year : Z) (lang : Language) : result string :=
  if is_EN lang then
    if (2000 <=? year) && (year <? 2010) then
      Ok ("two thousand " +:+
          (if year =? 2000 then "" else "and " +:+ numberToWords (year - 2000) lang))
    else if (2010 <=? year) && (year <? 2100) then
      let first := Z.quot year 100 in
      let second := Z.rem year 100 in
      Ok (numberToWords first lang +:+ " " +:+ numberToWords second lang)
    else if (1000 <=? year) && (year <? 2000) then
      let first := Z.quot year 100 in
      let second := Z.rem year 100 in
      if second =? 0 then Ok (numberToWords first lang +:+ " hundred")
      else if second <? 10 then
        Ok (numberToWords first lang +:+ " oh " +:+ numberToWords second lang)
      else Ok (numberToWords first lang +:+ " " +:+ numberToWords second lang)
    else Ok (numberToWords year lang)
  else year_digits (to_string year) "".

(** ** Context detection *)

Definition detectLanguage (text : string) (pos : nat) : Language :=
  let chars := splitUtf8 text in
  let start := Z.max 0 (Z.of_nat pos - 10) in
  let end_pos := Z.min (Z.of_nat (length chars)) (Z.of_nat pos + 10) in
  let window := take (Z.to_nat (end_pos - start)) (drop (Z.to_nat start) chars) in
  let '(chinese_count, english_count) :=
    fold_left (fun '(zh, en) ch =>
                 if isChineseChar ch then (S zh, en)
                 else if isEnglishLetter ch then (zh, S en)
                 else (zh, en)) window (O, O) in
  if (english_count <? chinese_count)%nat then ZH
  else if (chinese_count <? english_count)%nat then EN
  else ZH.

(** [(lang == Language::AUTO) ? detectLanguage(text, pos) : lang] *)
Definition effective (lang : Language) (text : string) (pos : nat) : Language :=
  if is_AUTO lang then detectLanguage text pos else lang.

Fixpoint digits_only (s : string) : string :=
  match s with
  | EmptyString => EmptyString
  | String c rest => if isdigit c then String c (digits_only rest) else digits_only rest
  end.

Definition isPhoneNumber (num : string) : bool :=
  let digits := digits_only num in
  let n := String.length digits in
  let mobile :=
    match digits with
    | String d0 (String d1 _) =>
        (n =? 11)%nat && Ascii.eqb d0 "1" && (code "3" <=? code d1) && (code d1 <=? code "9")
    | _ => false
    end in
  if mobile then true
  else if (7 <=? n)%nat && (n <=? 12)%nat then
    let p := substr digits 0 3 in
    ((n =? 11)%nat || (n =? 12)%nat)
    && (String.eqb p "010" || String.eqb p "021" || String.eqb p "020" || String.eqb p "025")
  else false.

Definition detectNumberType (text : string) (pos len : nat) : result NumberType :=
  let num := substr text pos len in
  match find_char "." num with
  | Some _ => Ok DECIMAL
  | None =>
      if isPhoneNumber num then Ok PHONE
      else if (len =? 4)%nat then
        n ← stoi num;
        if (1000 <=? n) && (n <=? 2999) && (pos + len <? String.length text)%nat then
          match splitUtf8 (substr text (pos + len) 6) with
          | ch :: _ => if String.eqb ch "年" then Ok YEAR else Ok CARDINAL
          | [] => Ok CARDINAL
          end
        else Ok CARDINAL
      else Ok CARDINAL
  end.

(** ** The patterns *)

Import Regex.

(** [\d+\.?\d*] *)
Definition number_re : re := seq [plus digit; opt (Lit "."); star digit].

(** [(\d+\.?\d*(?:[eE][+-]?\d+)?)] *)
Definition num_regex : re :=
  Grp 1 (seq [number_re;
              opt (seq [Class [IChar "e"; IChar "E"];
                        opt (Class [IChar "+"; IChar "-"]);
                        plus digit])]).

(** [(\d+(?:\.\d+)?)\s*(元|块|块钱|美元|美金|人民币)] *)
Definition currency_suffix_regex : re :=
  seq [Grp 1 (seq [plus digit; opt (seq [Lit "."; plus digit])]);
       star space;
       Grp 2 (alt [lit "元"; lit "块"; lit "块钱"; lit "美元"; lit "美金"; lit "人民币"])].

(** [(\d{4})[-/年](\d{1,2})[-/月](\d{1,2})日?]; the final [?] applies to the
    last byte of [日]. *)
Definition date_regex : re :=
  seq [Grp 1 (times 4 digit);
       Class (IChar "-" :: IChar "/" :: members "年");
       Grp 2 (between 1 2 digit);
       Class (IChar "-" :: IChar "/" :: members "月");
       Grp 3 (between 1 2 digit);
       lit (hx [230; 151]); opt (Lit (chr 165))].

(** [(\d{1,2}):(\d{2})(?::(\d{2}))?] *)
Definition time_regex : re :=
  seq [Grp 1 (between 1 2 digit); Lit ":"; Grp 2 (times 2 digit);
       opt (seq [Lit ":"; Grp 3 (times 2 digit)])].

(** [(\d{4})年] *)
Definition year_regex : re := seq [Grp 1 (times 4 digit); lit "年"].

(** [( \d+\.?\d* )( unit )] (written here with spaces the pattern has
    not), the unit name pasted into the pattern; no unit name holds a
    character that is special in a pattern. *)
Definition unit_regex (unit : string) : re :=
  seq [Grp 1 number_re; Grp 2 (lit unit)].

(** [\b(1[3-9]\d{9})\b|\b(1[3-9]\d[-\s]?\d{4}[-\s]?\d{4})\b|\b(\d{3,4}[-\s]?\d{7,8})\b] *)
Definition phone_regex : re :=
  let sep := opt (Class [IChar "-"; ISpace]) in
  alt [seq [WordB; Grp 1 (seq [Lit "1"; Class [IRange "3" "9"]; times 9 digit]); WordB];
       seq [WordB;
            Grp 2 (seq [Lit "1"; Class [IRange "3" "9"]; digit; sep;
                        times 4 digit; sep; times 4 digit]);
            WordB];
       seq [WordB; Grp 3 (seq [between 3 4 digit; sep; between 7 8 digit]); WordB]].

(** [( \d+\.?\d* )%] (written here with spaces the pattern has not) *)
Definition percent_regex : re := seq [Grp 1 number_re; Lit "%"].

(** ** The rewriting loop shared by the passes

    [[
    size_t last_pos = 0;
    while (it != end) {
        result += text.substr(last_pos, it->position() - last_pos);
        ... result += <replacement of the match>;
        last_pos = it->position() + it->length();
        ++it;
    }
    result += text.substr(last_pos);
    ]] *)
Fixpoint rewrite_loop (text : string) (replacement : smatch -> Cxx.result string)
    (ms : list smatch) (last_pos : nat) (result : string) : Cxx.result string :=
  match ms with
  | [] => Ok (result +:+ drop_str last_pos text)
  | m :: ms' =>
      let result := result +:+ substr text last_pos (position m - last_pos) in
      piece ← replacement m;
      rewrite_loop text replacement ms' (position m + mlength m) (result +:+ piece)
  end.

Definition rewrite (r : re) (text : string)
    (replacement : smatch -> Cxx.result string) : Cxx.result string :=
  rewrite_loop text replacement (matches r text) 0 "".

(** [num_str.find('.') != npos ? decimalToWords(num_str) : numberToWords(stoll(num_str))] *)
Definition amountToWords (num_str : string) (lang : Language) : result string :=
  match find_char "." num_str with
  | Some _ => decimalToWords num_str lang
  | None => n ← stoll num_str; Ok (numberToWords n lang)
  end.

(** ** normalizeFormulas *)

Definition spoken (lang : Language) (names : string * string) : string :=
  if is_EN lang then " " +:+ snd names +:+ " " else fst names.

Fixpoint formulas_loop (fuel : nat) (text : string) (lang : Language)
    (prev : option string) (i : nat) (chars : list string) (result : string) : string :=
  match fuel, chars with
  | S f, ch :: tl =>
      let two_chars :=
        match tl with
        | next :: tl' =>
            match MATH_OPERATORS !! (ch +:+ next) with
            | Some names => Some (names, next, tl')
            | None => None
            end
        | [] => None
        end in
      match two_chars with
      | Some (names, next, tl') =>
          let eff_lang := effective lang text i in
          formulas_loop f text lang (Some next) (i + 2) tl'
            (result +:+ spoken eff_lang names)
      | None =>
          match MATH_OPERATORS !! ch with
          | Some names =>
              let eff_lang := effective lang text i in
              let is_negative :=
                (String.eqb ch "-" || String.eqb ch "−")
                && match tl with next :: _ => isDigit next | [] => false end
                && match prev with
                   | None => true
                   | Some p =>
                       bool_decide (is_Some (MATH_OPERATORS !! p))
                       || String.eqb p "(" || String.eqb p "（" || String.eqb p " "
                   end in
              formulas_loop f text lang (Some ch) (S i) tl
                (if is_negative
                 then result +:+ (if is_EN eff_lang then "negative " else "负")
                 else result +:+ spoken eff_lang names)
          | None => formulas_loop f text lang (Some ch) (S i) tl (result +:+ ch)
          end
      end
  | _, _ => result
  end.

Definition normalizeFormulas (text : string) (lang : Language) : string :=
  let chars := splitUtf8 text in
  formulas_loop (length chars) text lang None 0 chars "".

(** ** normalizeNumbers *)

Definition find_first_of_eE (s : string) : option nat :=
  match find_char "e" s, find_char "E" s with
  | Some a, Some b => Some (Nat.min a b)
  | Some a, None => Some a
  | None, o => o
  end.

Definition normalizeNumbers (text : string) (lang : Language) : result string :=
  rewrite num_regex text (fun m =>
    let num_str := str text m 1 in
    let pos := position m in
    let eff_lang := effective lang text pos in
    type ← detectNumberType text pos (String.length num_str);
    match type with
    | DECIMAL => decimalToWords num_str eff_lang
    | YEAR => year ← stoi num_str; yearToWords year eff_lang
    | DIGIT | PHONE => Ok (numberToDigits num_str eff_lang)
    | _ =>
        match find_first_of_eE num_str with
        | Some e_pos =>
            let mantissa := substr num_str 0 e_pos in
            let exponent := drop_str (S e_pos) num_str in
            m ← decimalToWords mantissa eff_lang;
            e ← stoll exponent;
            if is_EN eff_lang
            then Ok (m +:+ " times ten to the power of " +:+ numberToWords e eff_lang)
            else Ok (m +:+ "乘以十的" +:+ numberToWords e eff_lang +:+ "次方")
        | None =>
            match find_char "." num_str with
            | Some _ => decimalToWords num_str eff_lang
            | None => num ← stoll num_str; Ok (numberToWords num eff_lang)
            end
        end
    end).

(** ** normalizeCurrency *)

(** The inner [while (j < chars.size())] that collects the amount after a
    currency symbol: the amount, the final [j], and the characters from
    [j] on. *)
Fixpoint scan_amount (chars : list string) (has_decimal : bool) (num_str : string)
    (j : nat) : string * nat * list string :=
  match chars with
  | c :: tl =>
      if isDigit c then scan_amount tl has_decimal (num_str +:+ c) (S j)
      else if String.eqb c "." && negb has_decimal then scan_amount tl true (num_str +:+ c) (S j)
      else if String.eqb c "," || String.eqb c "，" then scan_amount tl has_decimal num_str (S j)
      else (num_str, j, chars)
  | [] => (num_str, j, [])
  end.

Definition with_name (lang : Language) (amount : string) (names : string * string) : string :=
  if is_EN lang then amount +:+ " " +:+ snd names else amount +:+ fst names.

Fixpoint currency_loop (fuel : nat) (text : string) (lang : Language) (i : nat)
    (chars : list string) (result : string) : Cxx.result string :=
  match fuel, chars with
  | S f, ch :: tl =>
      match CURRENCY_SYMBOLS !! ch with
      | Some names =>
          let '(num_str, j, after) := scan_amount tl false "" (S i) in
          if negb (String.eqb num_str "") then
            let eff_lang := effective lang text i in
            amount ← amountToWords num_str eff_lang;
            currency_loop f text lang j after (result +:+ with_name eff_lang amount names)
          else currency_loop f text lang (S i) tl (result +:+ ch)
      | None => currency_loop f text lang (S i) tl (result +:+ ch)
      end
  | _, _ => Ok result
  end.

Definition normalizeCurrency (text : string) (lang : Language) : result string :=
  let chars := splitUtf8 text in
  temp ← currency_loop (length chars) text lang 0 chars "";
  rewrite currency_suffix_regex temp (fun m =>
    let num_str := str temp m 1 in
    let suffix := str temp m 2 in
    let eff_lang := effective lang temp (position m) in
    amount ← amountToWords num_str eff_lang;
    match CURRENCY_SUFFIXES !! suffix with
    | Some names => Ok (with_name eff_lang amount names)
    | None => Ok (amount +:+ suffix)
    end).

(** ** normalizeDateTime *)

Definition normalizeDateTime (text : string) (lang : Language) : result string :=
  let result := text in
  temp ← rewrite date_regex result (fun m =>
    year ← stoi (str result m 1);
    month ← stoi (str result m 2);
    day ← stoi (str result m 3);
    let eff_lang := effective lang result (position m) in
    if is_EN eff_lang then
      let day_ord := ordinalToWords day EN in
      month_name ← at_ ENGLISH_MONTHS month;
      y ← yearToWords year EN;
      Ok (month_name +:+ " " +:+ day_ord +:+ ", " +:+ y)
    else
      y ← yearToWords year ZH;
      Ok (y +:+ "年" +:+ intToChineseReading month +:+ "月"
            +:+ intToChineseReading day +:+ "日"));
  let result := temp in
  temp ← rewrite time_regex result (fun m =>
    hour ← stoi (str result m 1);
    minute ← stoi (str result m 2);
    second ← (if matched m 3 then stoi (str result m 3) else Ok (-1));
    let eff_lang := effective lang result (position m) in
    if is_EN eff_lang then
      let period := if 12 <=? hour then "PM" else "AM" in
      let hour12 := Z.rem hour 12 in
      let hour12 := if hour12 =? 0 then 12 else hour12 in
      let t :=
        if minute =? 0 then numberToWords hour12 EN +:+ " " +:+ period
        else numberToWords hour12 EN +:+ " " +:+ numberToWords minute EN +:+ " " +:+ period in
      Ok (if 0 <=? second
          then t +:+ " and " +:+ numberToWords second EN +:+ " seconds" else t)
    else
      let t := intToChineseReading hour +:+ "点" in
      let t := if 0 <? minute then t +:+ intToChineseReading minute +:+ "分" else t in
      Ok (if 0 <=? second then t +:+ intToChineseReading second +:+ "秒" else t));
  let result := temp in
  rewrite year_regex result (fun m =>
    year ← stoi (str result m 1);
    let eff_lang := effective lang result (position m) in
    y ← yearToWords year eff_lang;
    Ok (y +:+ (if is_EN eff_lang then "" else "年"))).

(** ** normalizePhoneNumbers and normalizePercentages *)

Definition normalizePhoneNumbers (text : string) (lang : Language) : result string :=
  rewrite phone_regex text (fun m =>
    let phone := whole text m in
    let eff_lang := effective lang text (position m) in
    Ok (numberToDigits (digits_only phone) eff_lang)).

Definition normalizePercentages (text : string) (lang : Language) : result string :=
  rewrite percent_regex text (fun m =>
    let num_str := str text m 1 in
    let eff_lang := effective lang text (position m) in
    amount ← amountToWords num_str eff_lang;
    Ok (if is_EN eff_lang then amount +:+ " percent" else "百分之" +:+ amount)).

(** ** normalizeUnits and the driver

    [normalizeUnits] walks the entries of [UNITS] after a [std::sort] by
    decreasing name length. The table is an [unordered_map] and the sort
    is not stable, so the order among names of one length is the
    implementation's: it is the parameter [sorted_units]. *)

Section Passes.
Variable sorted_units : list (string * (string * string)).

Definition normalizeUnit (result : string) (lang : Language)
    (entry : string * (string * string)) : Cxx.result string :=
  let '(unit, names) := entry in
  rewrite (unit_regex unit) result (fun m =>
    let num_str := str result m 1 in
    let eff_lang := effective lang result (position m) in
    amount ← amountToWords num_str eff_lang;
    Ok (with_name eff_lang amount names)).

Fixpoint normalizeUnits_from (entries : list (string * (string * string)))
    (result : string) (lang : Language) : Cxx.result string :=
  match entries with
  | [] => Ok result
  | entry :: entries' =>
      temp ← normalizeUnit result lang entry;
      normalizeUnits_from entries' temp lang
  end.

Definition normalizeUnits (text : string) (lang : Language) : result string :=
  normalizeUnits_from sorted_units text lang.

(** [TextNormalizer::normalize] on a normaliser whose [default_lang_] is
    [default_lang]. *)
Definition normalize (default_lang : Language) (text : string) (lang : Language)
    : result string :=
  if String.eqb text "" then Ok text
  else
    let effective_lang := if is_AUTO lang then default_lang else lang in
    result ← normalizeDateTime text effective_lang;
    result ← normalizeCurrency result effective_lang;
    result ← normalizePhoneNumbers result effective_lang;
    result ← normalizePercentages result effective_lang;
    result ← normalizeUnits result effective_lang;
    let result := normalizeFormulas result effective_lang in
    normalizeNumbers result effective_lang.

(** [normalizeText]: the function-local static normaliser keeps the
    initial [default_lang_ = AUTO]. *)
Definition normalizeText (text : string) (lang : Language) : result string :=
  normalize AUTO text lang.

End Passes.

(** One admissible order: longer names first, table order within a length. *)
Definition by_length (n : nat) : list (string * (string * string)) :=
  filter (fun e => String.length (fst e) = n) UNITS.

Definition table_order_units : list (string * (string * string)) :=
  by_length 4 ++ by_length 3 ++ by_length 2 ++ by_length 1.

End TextNormalizer.

(* ===================================================================== *)
(** * phoneme_utils.cpp                                                   *)
(* ===================================================================== *)

Module PhonemeUtils.
Import Cxx.

(** [[
    size_t pos = 0;
    while ((pos = text.find(from, pos)) != npos) {
        text.replace(pos, from.length(), to);
        pos += to.length();
    }
    ]]
    Occurrences are replaced from left to right and the search goes on
    behind the replacement. With [to] empty this is also the loop that
    erases the zero-width joiner. *)
Fixpoint replace_all_from (fuel : nat) (from to text : string) : string :=
  match fuel, text with
  | S f, String c rest =>
      if String.prefix from text
      then to +:+ replace_all_from f from to (drop_str (String.length from) text)
      else String c (replace_all_from f from to rest)
  | _, _ => text
  end.

Definition replace_all (from to text : string) : string :=
  if String.eqb from "" then text
  else replace_all_from (String.length text) from to text.

Definition replacements : list (string * string) :=
  [(hx [0xc9; 0x9d], hx [0xc9; 0x9c; 0xc9; 0xb9]);
   (hx [0xc9; 0x9a], hx [0xc9; 0x99; 0xc9; 0xb9]);
   ("e" +:+ hx [0xc9; 0xaa], "A");
   ("a" +:+ hx [0xc9; 0xaa], "I");
   (hx [0xc9; 0x94; 0xc9; 0xaa], "Y");
   ("o" +:+ hx [0xca; 0x8a], "O");
   (hx [0xc9; 0x99; 0xca; 0x8a], "O");
   (hx [0xc9; 0x9b; 0xca; 0x8a], "O");
   ("a" +:+ hx [0xca; 0x8a], "W");
   ("t" +:+ hx [0xca; 0x83], hx [0xca; 0xa7]);
   ("d" +:+ hx [0xca; 0x92], hx [0xca; 0xa4]);
   ("g", hx [0xc9; 0xa1]);
   ("r", hx [0xc9; 0xb9])].

Definition convertToGruutEnUs (ipa : string) : string :=
  let zwj := hx [0xe2; 0x80; 0x8d] in
  let text := replace_all zwj "" ipa in
  fold_left (fun text rep => replace_all (fst rep) (snd rep) text) replacements text.

End PhonemeUtils.

(* ===================================================================== *)
(** * What the process gets from outside                                  *)
(* ===================================================================== *)

(** One result of cpp-pinyin's [hanziToPinyin]. *)
Record PinyinRes := {
  pinyin : string;
  error : bool
}.

Class Platform := {
  (** the order in which [normalizeUnits] finds the unit table sorted *)
  sorted_units : list (string * (string * string));
  (** cpp-pinyin: [hanziToPinyin(text, TONE3, Default, false, false, true)] *)
  hanziToPinyin : string -> list PinyinRes;
  (** [popen(command, r)], the [fgets] loop and [pclose]: nothing when the
      pipe cannot be opened, else the output read and the exit status *)
  popen_read : string -> option (string * Z)
}.

(* ===================================================================== *)
(** * kokoro_phonemizer.cpp                                               *)
(* ===================================================================== *)

Module KokoroPhonemizer.
Import Cxx TextUtils.

Definition PAD_TOKEN_ID : Z := 0.
Definition MAX_TOKEN_LENGTH : Z := 512.

Definition vocab_entries : list (string * Z) :=
  [(";", 1); (":", 2); (",", 3);
   (".", 4); ("!", 5); ("?", 6);
   (hx [0xe2; 0x80; 0x94], 9); (hx [0xe2; 0x80; 0xa6], 10); (hx [0x22], 11);
   ("(", 12); (")", 13); (hx [0xe2; 0x80; 0x9c], 14);
   (hx [0xe2; 0x80; 0x9d], 15); (" ", 16); (hx [0xcc; 0x83], 17);
   (hx [0xca; 0xa3], 18); (hx [0xca; 0xa5], 19); (hx [0xca; 0xa6], 20);
   (hx [0xca; 0xa8], 21); (hx [0xe1; 0xb5; 0x9d], 22); (hx [0xea; 0xad; 0xa7], 23);
   ("A", 24); ("I", 25); ("O", 31);
   ("Q", 33); ("S", 35); ("T", 36);
   ("W", 39); ("Y", 41); (hx [0xe1; 0xb5; 0x8a], 42);
   ("a", 43); ("b", 44); ("c", 45);
   ("d", 46); ("e", 47); ("f", 48);
   ("h", 50); ("i", 51); ("j", 52);
   ("k", 53); ("l", 54); ("m", 55);
   ("n", 56); ("o", 57); ("p", 58);
   ("q", 59); ("r", 60); ("s", 61);
   ("t", 62); ("u", 63); ("v", 64);
   ("w", 65); ("x", 66); ("y", 67);
   ("z", 68); (hx [0xc9; 0x91], 69); (hx [0xc9; 0x90], 70);
   (hx [0xc9; 0x92], 71); (hx [0xc3; 0xa6], 72); (hx [0xce; 0xb2], 75);
   (hx [0xc9; 0x94], 76); (hx [0xc9; 0x95], 77); (hx [0xc3; 0xa7], 78);
   (hx [0xc9; 0x96], 80); (hx [0xc3; 0xb0], 81); (hx [0xca; 0xa4], 82);
   (hx [0xc9; 0x99], 83); (hx [0xc9; 0x9a], 85); (hx [0xc9; 0x9b], 86);
   (hx [0xc9; 0x9c], 87); (hx [0xc9; 0x9f], 90); (hx [0xc9; 0xa1], 92);
   (hx [0xc9; 0xa5], 99); (hx [0xc9; 0xa8], 101); (hx [0xc9; 0xaa], 102);
   (hx [0xca; 0x9d], 103); (hx [0xc9; 0xaf], 110); (hx [0xc9; 0xb0], 111);
   (hx [0xc5; 0x8b], 112); (hx [0xc9; 0xb3], 113); (hx [0xc9; 0xb2], 114);
   (hx [0xc9; 0xb4], 115); (hx [0xc3; 0xb8], 116); (hx [0xc9; 0xb8], 118);
   (hx [0xce; 0xb8], 119); (hx [0xc5; 0x93], 120); (hx [0xc9; 0xb9], 123);
   (hx [0xc9; 0xbe], 125); (hx [0xc9; 0xbb], 126); (hx [0xca; 0x81], 128);
   (hx [0xc9; 0xbd], 129); (hx [0xca; 0x82], 130); (hx [0xca; 0x83], 131);
   (hx [0xca; 0x88], 132); (hx [0xca; 0xa7], 133); (hx [0xca; 0x8a], 135);
   (hx [0xca; 0x8b], 136); (hx [0xca; 0x8c], 138); (hx [0xc9; 0xa3], 139);
   (hx [0xc9; 0xa4], 140); (hx [0xcf; 0x87], 142); (hx [0xca; 0x8e], 143);
   (hx [0xca; 0x92], 147); (hx [0xca; 0x94], 148); (hx [0xcb; 0x88], 156);
   (hx [0xcb; 0x8c], 157); (hx [0xcb; 0x90], 158); (hx [0xca; 0xb0], 162);
   (hx [0xca; 0xb2], 164); (hx [0xe2; 0x86; 0x93], 169); (hx [0xe2; 0x86; 0x92], 171);
   (hx [0xe2; 0x86; 0x97], 172); (hx [0xe2; 0x86; 0x98], 173); (hx [0xe1; 0xb5; 0xbb], 177)].

(** [initVocab]: [vocab_[token] = id] for every entry, in order. *)
Definition vocab_ : gmap string Z :=
  fold_left (fun vocab entry => <[fst entry := snd entry]> vocab) vocab_entries ∅.

Definition initial_to_ipa_ : gmap string string :=
  list_to_map
    [("b", "p"); ("p", "p" +:+ hx [0xca; 0xb0]); ("m", "m");
     ("f", "f"); ("d", "t"); ("t", "t" +:+ hx [0xca; 0xb0]);
     ("n", "n"); ("l", "l"); ("g", "k");
     ("k", "k" +:+ hx [0xca; 0xb0]); ("h", "x"); ("j", "t" +:+ hx [0xc9; 0x95]);
     ("q", "t" +:+ hx [0xc9; 0x95; 0xca; 0xb0]); ("x", hx [0xc9; 0x95]); ("zh", hx [0xca; 0x88; 0xca; 0x82]);
     ("ch", hx [0xca; 0x88; 0xca; 0x82; 0xca; 0xb0]); ("sh", hx [0xca; 0x82]); ("r", hx [0xc9; 0xbb]);
     ("z", "ts"); ("c", "ts" +:+ hx [0xca; 0xb0]); ("s", "s");
     ("y", "j"); ("w", "w")].

Definition final_to_ipa_ : gmap string string :=
  list_to_map
    [("a", "a"); ("ai", "ai"); ("an", "an"); ("ang", "a" +:+ hx [0xc5; 0x8b]);
     ("ao", "au"); ("e", hx [0xc9; 0xa4]); ("ei", "ei"); ("en", hx [0xc9; 0x99] +:+ "n");
     ("eng", hx [0xc9; 0x99; 0xc5; 0x8b]); ("er", hx [0xc9; 0x99; 0xc9; 0xbb]); ("i", "i"); ("ia", "ja");
     ("ian", "j" +:+ hx [0xc9; 0x9b] +:+ "n"); ("iang", "ja" +:+ hx [0xc5; 0x8b]); ("iao", "jau"); ("ie", "je");
     ("in", "in"); ("ing", "i" +:+ hx [0xc5; 0x8b]); ("iong", "j" +:+ hx [0xca; 0x8a; 0xc5; 0x8b]); ("iu", "jou");
     ("o", "o"); ("ong", hx [0xca; 0x8a; 0xc5; 0x8b]); ("ou", "ou"); ("u", "u");
     ("ua", "wa"); ("uai", "wai"); ("uan", "wan"); ("uang", "wa" +:+ hx [0xc5; 0x8b]);
     ("ue", hx [0xc9; 0xa5] +:+ "e"); ("ui", "wei"); ("un", "w" +:+ hx [0xc9; 0x99] +:+ "n"); ("uo", "wo");
     ("v", "y"); ("ve", hx [0xc9; 0xa5] +:+ "e"); ("van", hx [0xc9; 0xa5; 0xc9; 0x9b] +:+ "n"); ("vn", "yn")].

Definition initials_ordered_ : list string :=
  ["zh"; "ch"; "sh";
   "b"; "p"; "m"; "f";
   "d"; "t"; "n"; "l";
   "g"; "k"; "h";
   "j"; "q"; "x";
   "r"; "z"; "c"; "s";
   "y"; "w"].

Record PinyinParts := {
  initial : string;
  final_ : string;
  tone : Z
}.

Definition parsePinyin (pinyin : string) : PinyinParts :=
  if String.eqb pinyin "" then {| initial := ""; final_ := ""; tone := 5 |}
  else
    let '(tone, py) :=
      match back pinyin with
      | Some last =>
          if (code "1" <=? code last) && (code last <=? code "5")
          then (code last - code "0", pop_back pinyin)
          else (5, pinyin)
      | None => (5, pinyin)
      end in
    if String.eqb py "" then {| initial := ""; final_ := ""; tone := tone |}
    else
      match List.find (fun ini => String.prefix ini py) initials_ordered_ with
      | Some ini =>
          {| initial := ini; final_ := drop_str (String.length ini) py; tone := tone |}
      | None => {| initial := ""; final_ := py; tone := tone |}
      end.

Definition toneToArrow (tone : Z) : string :=
  if tone =? 1 then hx [0xe2; 0x86; 0x92]
  else if tone =? 2 then hx [0xe2; 0x86; 0x97]
  else if tone =? 3 then hx [0xe2; 0x86; 0x93]
  else if tone =? 4 then hx [0xe2; 0x86; 0x98]
  else "".

(** [it = table.find(key); if (it != table.end()) ipa = it->second;] *)
Definition lookup_or_empty (table : gmap string string) (key : string) : string :=
  match table !! key with Some v => v | None => "" end.

Fixpoint final_by_chars (final : string) (ipa : string) : string :=
  match final with
  | EmptyString => ipa
  | String c rest =>
      let sc := String c EmptyString in
      final_by_chars rest
        (ipa +:+ match final_to_ipa_ !! sc with Some v => v | None => sc end)
  end.

Definition one_of (s : string) (l : list string) : bool :=
  existsb (String.eqb s) l.

Definition pinyinToIPA (pinyin : string) : string :=
  let parts := parsePinyin pinyin in
  if String.eqb (final_ parts) "i" && one_of (initial parts) ["zh"; "ch"; "sh"; "r"] then
    lookup_or_empty initial_to_ipa_ (initial parts) +:+ hx [0xc9; 0xbb]
      +:+ toneToArrow (tone parts)
  else if String.eqb (final_ parts) "i" && one_of (initial parts) ["z"; "c"; "s"] then
    lookup_or_empty initial_to_ipa_ (initial parts) +:+ hx [0xc9; 0xb9]
      +:+ toneToArrow (tone parts)
  else
    let umlaut :=
      match final_ parts with
      | String "u" rest =>
          if one_of (initial parts) ["j"; "q"; "x"]
          then final_to_ipa_ !! (String "v" rest) else None
      | _ => None
      end in
    match umlaut with
    | Some fin =>
        lookup_or_empty initial_to_ipa_ (initial parts) +:+ fin +:+ toneToArrow (tone parts)
    | None =>
        let ipa :=
          if negb (String.eqb (initial parts) "")
          then lookup_or_empty initial_to_ipa_ (initial parts) else "" in
        let ipa :=
          if negb (String.eqb (final_ parts) "") then
            match final_to_ipa_ !! final_ parts with
            | Some fin => ipa +:+ fin
            | None => final_by_chars (final_ parts) ipa
            end
          else ipa in
        ipa +:+ toneToArrow (tone parts)
    end.

(** The byte length [ipaToTokenIds] and [cleanEspeakIPA] read off a leading
    byte. *)
Definition lead_len (c : ascii) : nat :=
  if 0xF0 <=? code c then 4%nat
  else if 0xE0 <=? code c then 3%nat
  else if 0xC0 <=? code c then 2%nat
  else 1%nat.

Fixpoint ipaToTokenIds_from (fuel : nat) (ipa : string) (ids : list Z) : list Z :=
  match fuel, ipa with
  | S f, String c _ =>
      let char_len := lead_len c in
      let ids :=
        if (char_len <=? String.length ipa)%nat then
          match vocab_ !! substr ipa 0 char_len with
          | Some id => ids ++ [id]
          | None => ids
          end
        else ids in
      ipaToTokenIds_from f (drop_str char_len ipa) ids
  | _, _ => ids
  end.

Definition ipaToTokenIds (ipa : string) : list Z :=
  ipaToTokenIds_from (String.length ipa) ipa [].

Fixpoint cleanEspeakIPA_from (fuel : nat) (ipa : string) (result : string)
    (last_was_space : bool) : string :=
  match fuel, ipa with
  | S f, String c rest =>
      if (code c =? 10) || (code c =? 13) then cleanEspeakIPA_from f rest result last_was_space
      else
        let char_len := lead_len c in
        if (String.length ipa <? char_len)%nat then result
        else
          let ch := substr ipa 0 char_len in
          let next := drop_str char_len ipa in
          if String.eqb ch "." then cleanEspeakIPA_from f next result last_was_space
          else if one_of ch [hx [0xe2; 0x80; 0x8b]; hx [0xe2; 0x80; 0x8c];
                             hx [0xe2; 0x80; 0x8d]; hx [0xef; 0xbb; 0xbf]]
          then cleanEspeakIPA_from f next result last_was_space
          else if String.eqb ch " " then
            if negb last_was_space && negb (String.eqb result "")
            then cleanEspeakIPA_from f next (result +:+ " ") true
            else cleanEspeakIPA_from f next result last_was_space
          else cleanEspeakIPA_from f next (result +:+ ch) false
  | _, _ => result
  end.

Definition cleanEspeakIPA (ipa : string) : string :=
  let result := cleanEspeakIPA_from (String.length ipa) ipa "" false in
  let result :=
    match back result with
    | Some " "%char => pop_back result
    | _ => result
    end in
  match result with
  | String " " rest => rest
  | _ => result
  end.

Definition dquote : string := hx [0x22].

(** The phonemizer's own state: whether [initPinyin] has built the
    converter, and what it found out about espeak-ng. *)
Record state := {
  pinyin_converter_ : bool;
  espeak_available_ : bool
}.

Section WithPlatform.
Context `{Platform}.

Definition englishToIPA (self : state) (text : string) : string :=
  if negb (espeak_available_ self) then ""
  else if String.eqb text "" then ""
  else
    let escaped :=
      PhonemeUtils.replace_all "'" ("'" +:+ dquote +:+ "'" +:+ dquote +:+ "'") text in
    let command := "echo '" +:+ escaped +:+ "' | espeak-ng -q --ipa=3 -v en-us" in
    match popen_read command with
    | None => ""
    | Some (result, exit_status) =>
        if negb (exit_status =? 0) || String.eqb result "" then ""
        else PhonemeUtils.convertToGruutEnUs (cleanEspeakIPA result)
    end.

(** [for (const auto& res : pinyin_result) if (!res.error) combined_ipa += pinyinToIPA(res.pinyin);] *)
Definition pinyin_to_ipa (text : string) (combined_ipa : string) : string :=
  fold_left (fun acc res => if negb (error res) then acc +:+ pinyinToIPA (pinyin res) else acc)
            (hanziToPinyin text) combined_ipa.

(** The characters a segment loop [while (i < chars.size() && p(chars[i]))]
    takes, and those it leaves. *)
Fixpoint span (p : string -> bool) (chars : list string) : list string * list string :=
  match chars with
  | ch :: tl =>
      if p ch then let '(seg, rest) := span p tl in (ch :: seg, rest)
      else ([], chars)
  | [] => ([], [])
  end.

Definition join (chars : list string) : string :=
  fold_left (fun acc ch => acc +:+ ch) chars "".

(** The [while (i < chars.size())] loop of [textToTokenIds]; [chars] are the
    characters from [i] on. *)
Fixpoint segments (fuel : nat) (self : state) (chars : list string)
    (combined_ipa : string) : result string :=
  match fuel, chars with
  | S f, ch :: tl =>
      if isChineseChar ch then
        let '(seg, rest) := span isChineseChar chars in
        segments f self rest (pinyin_to_ipa (join seg) combined_ipa)
      else if isEnglishLetter ch then
        let '(seg, rest) :=
          span (fun c => isEnglishLetter c || String.eqb c " " || String.eqb c "'"
                         || String.eqb c "-") chars in
        let english_segment := TextNormalizer.strip_trailing_spaces (join seg) in
        segments f self rest
          (if negb (String.eqb english_segment "")
           then combined_ipa +:+ englishToIPA self english_segment
           else combined_ipa)
      else if isDigit ch then
        let '(seg, rest) := span (fun c => isDigit c || String.eqb c ".") chars in
        digit_normalized ← TextNormalizer.normalizeText sorted_units (join seg) TextNormalizer.ZH;
        segments f self rest
          (if containsChinese digit_normalized
           then pinyin_to_ipa digit_normalized combined_ipa
           else combined_ipa)
      else
        let mapped := mapChinesePunctToAscii ch in
        let mapped := if String.eqb mapped "" then ch else mapped in
        segments f self tl
          (if bool_decide (is_Some (vocab_ !! mapped))
           then combined_ipa +:+ mapped else combined_ipa)
  | _, _ => Ok combined_ipa
  end.

(** [padded.resize(MAX_TOKEN_LENGTH); padded.back() = PAD_TOKEN_ID;] *)
Definition truncate (padded : list Z) : list Z :=
  let padded := take (Z.to_nat MAX_TOKEN_LENGTH) padded in
  <[(length padded - 1)%nat := PAD_TOKEN_ID]> padded.

Definition textToTokenIds (self : state) (text : string) : result (list Z) :=
  if String.eqb text "" then Ok []
  else if negb (pinyin_converter_ self) then Ok []
  else
    normalized ← TextNormalizer.normalizeText sorted_units text TextNormalizer.ZH;
    let chars := splitUtf8 normalized in
    combined_ipa ← segments (length chars) self chars "";
    if String.eqb combined_ipa "" then Ok []
    else
      let ids := ipaToTokenIds combined_ipa in
      let padded := [PAD_TOKEN_ID] ++ ids ++ [PAD_TOKEN_ID] in
      if MAX_TOKEN_LENGTH <? to_int (Z.of_nat (length padded))
      then Ok (truncate padded)
      else Ok padded.

End WithPlatform.

End KokoroPhonemizer.

(* DEFDefinition initial_to_ipa_ : gmap string string :=
  list_to_map
    [("b", "p"); ("p", "p" +:+ hx [0xca; 0xb0]); ("m", "m");
     ("f", "f"); ("d", "t"); ("t", "t" +:+ hx [0xca; 0xb0]);
     ("n", "n"); ("l", "l"); ("g", "k");
     ("k", "k" +:+ hx [0xca; 0xb0]); ("h", "x"); ("j", "t" +:+ hx [0xc9; 0x95]);
     ("q", "t" +:+ hx [0xc9; 0x95; 0xca; 0xb0]); ("x", hx [0xc9; 0x95]); ("zh", hx [0xca; 0x88; 0xca; 0x82]);
     ("ch", hx [0xca; 0x88; 0xca; 0x82; 0xca; 0xb0]); ("sh", hx [0xca; 0x82]); ("r", hx [0xc9; 0xbb]);
     ("z", "ts"); ("c", "ts" +:+ hx [0xca; 0xb0]); ("s", "s");
     ("y", "j"); ("w", "w")].
TIONS-END *)

(* ===================================================================== *)
(** * float: IEEE-754 binary32                                            *)
(* ===================================================================== *)

Module F32.

Definition prec : Z := 24.
Definition emax : Z := 128.

Definition float : Type := spec_float.

Definition zero : float := S754_zero false.
Definition nan : float := S754_nan.

(** The value of a bit pattern. *)
Definition of_bits (w : Z) : float :=
  let s := Z.testbit w 31 in
  let e := (w / 2 ^ 23) mod 256 in
  let m := w mod 2 ^ 23 in
  if e =? 0 then
    if m =? 0 then S754_zero s else S754_finite s (Z.to_pos m) (-149)
  else if e =? 255 then
    if m =? 0 then S754_infinity s else S754_nan
  else S754_finite s (Z.to_pos (m + 2 ^ 23)) (e - 150).

(** [static_cast<float>(n)] of an integer, and a literal [n.0f] *)
Definition of_Z (n : Z) : float := binary_normalize prec emax n 0 false.

Definition add : float -> float -> float := SFadd prec emax.
Definition mul : float -> float -> float := SFmul prec emax.
Definition div : float -> float -> float := SFdiv prec emax.

(** [x < y], [x <= y]; both are false when an operand is NaN. *)
Definition ltb : float -> float -> bool := SFltb.
Definition leb : float -> float -> bool := SFleb.

(** [x - y], [-x] and [std::abs(x)] *)
Definition sub : float -> float -> float := SFsub prec emax.
Definition neg : float -> float := SFopp.
Definition abs : float -> float := SFabs.

(** The integer part of a number, towards zero; nothing for NaN and the
    infinities. *)
Definition trunc (x : float) : option Z :=
  match x with
  | S754_zero _ => Some 0
  | S754_finite s m e =>
      let magnitude := if 0 <=? e then Z.pos m * 2 ^ e else Z.pos m / 2 ^ (- e) in
      Some (if s then - magnitude else magnitude)
  | _ => None
  end.

End F32.

(* ===================================================================== *)
(** * tts_types.hpp                                                       *)
(* ===================================================================== *)

Module Types.
Import Cxx.

Inductive BackendType :=
| MATCHA_ZH | MATCHA_EN | MATCHA_ZH_EN | COSYVOICE | VITS | PIPER | KOKORO | CUSTOM.

Inductive ErrorCode :=
| OK
| INVALID_CONFIG | MODEL_NOT_FOUND | UNSUPPORTED_FORMAT | UNSUPPORTED_LANGUAGE | INVALID_TEXT
| NOT_INITIALIZED | ALREADY_STARTED | NOT_STARTED | SYNTHESIS_FAILED | TIMEOUT | TEXT_TOO_LONG
| NETWORK_ERROR | CONNECTION_FAILED | AUTH_FAILED
| INTERNAL_ERROR | OUT_OF_MEMORY | FILE_WRITE_ERROR.

Record ErrorInfo := {
  code : ErrorCode;
  message : string;
  detail : string
}.

Definition isOk (e : ErrorInfo) : bool :=
  match code e with OK => true | _ => false end.

Definition ok : ErrorInfo := {| code := OK; message := ""; detail := "" |}.

Definition error (code : ErrorCode) (msg : string) : ErrorInfo :=
  {| code := code; message := msg; detail := "" |}.

Record AudioChunk := {
  samples : list F32.float;
  sample_rate : Z;
  channels : Z;
  is_final : bool;
  sentence_index : Z;
  timestamp_ms : Z
}.

(** [samples.size() * 1000 / sample_rate] is computed in [size_t]. *)
Definition getDurationMs (chunk : AudioChunk) : Z :=
  if bool_decide (samples chunk = []) || (sample_rate chunk <=? 0) then 0
  else to_int ((Z.of_nat (length (samples chunk)) * 1000) mod 2 ^ 64 / sample_rate chunk).

Definition isEmpty (chunk : AudioChunk) : bool := bool_decide (samples chunk = []).

Definition fromFloat (data : list F32.float) (sample_rate : Z) (is_final : bool) : AudioChunk :=
  {| samples := data; sample_rate := sample_rate; channels := 1; is_final := is_final;
     sentence_index := 0; timestamp_ms := -1 |}.

Record SentenceInfo := {
  text : string;
  begin_time_ms : Z;
  end_time_ms : Z;
  sentence_is_final : bool
}.

Record SynthesisResult := {
  request_id : string;
  audio : AudioChunk;
  sentences : list SentenceInfo;
  audio_duration_ms : Z;
  processing_time_ms : Z;
  rtf : F32.float;
  success : bool;
  error_info : ErrorInfo
}.

(** A [SynthesisResult result;] as its member initialisers leave it; the
    members of [audio] without one hold what [chunk] says. *)
Definition fresh (chunk : AudioChunk) : SynthesisResult :=
  {| request_id := ""; audio := chunk; sentences := [];
     audio_duration_ms := 0; processing_time_ms := 0; rtf := F32.zero;
     success := false; error_info := ok |}.

Definition set_audio (r : SynthesisResult) (a : AudioChunk) : SynthesisResult :=
  {| request_id := request_id r; audio := a; sentences := sentences r;
     audio_duration_ms := audio_duration_ms r; processing_time_ms := processing_time_ms r;
     rtf := rtf r; success := success r; error_info := error_info r |}.

Definition set_sentences (r : SynthesisResult) (s : list SentenceInfo) : SynthesisResult :=
  {| request_id := request_id r; audio := audio r; sentences := s;
     audio_duration_ms := audio_duration_ms r; processing_time_ms := processing_time_ms r;
     rtf := rtf r; success := success r; error_info := error_info r |}.

Definition set_audio_duration_ms (r : SynthesisResult) (d : Z) : SynthesisResult :=
  {| request_id := request_id r; audio := audio r; sentences := sentences r;
     audio_duration_ms := d; processing_time_ms := processing_time_ms r;
     rtf := rtf r; success := success r; error_info := error_info r |}.

Definition set_processing_time_ms (r : SynthesisResult) (p : Z) : SynthesisResult :=
  {| request_id := request_id r; audio := audio r; sentences := sentences r;
     audio_duration_ms := audio_duration_ms r; processing_time_ms := p;
     rtf := rtf r; success := success r; error_info := error_info r |}.

Definition set_rtf (r : SynthesisResult) (x : F32.float) : SynthesisResult :=
  {| request_id := request_id r; audio := audio r; sentences := sentences r;
     audio_duration_ms := audio_duration_ms r; processing_time_ms := processing_time_ms r;
     rtf := x; success := success r; error_info := error_info r |}.

Definition set_success (r : SynthesisResult) (b : bool) : SynthesisResult :=
  {| request_id := request_id r; audio := audio r; sentences := sentences r;
     audio_duration_ms := audio_duration_ms r; processing_time_ms := processing_time_ms r;
     rtf := rtf r; success := b; error_info := error_info r |}.

Definition calculateRTF (r : SynthesisResult) : SynthesisResult :=
  if 0 <? audio_duration_ms r then
    set_rtf r (F32.div (F32.of_Z (processing_time_ms r)) (F32.of_Z (audio_duration_ms r)))
  else r.

End Types.

(* ===================================================================== *)
(** * vocoder.cpp                                                         *)
(* ===================================================================== *)

Module Vocoder.
Import Cxx.

Record ISTFTConfig := {
  n_fft : Z;
  hop_length : Z;
  win_length : Z
}.

Definition default_config : ISTFTConfig :=
  {| n_fft := 1024; hop_length := 256; win_length := 1024 |}.

(** What the ISTFT takes from libm and FFTW. *)
Class Numerics := {
  (** [0.5f * (1.0f - std::cos(2.0f * M_PI * i / (length - 1)))] *)
  hann : Z -> Z -> F32.float;
  (** [out[i]] after [fftwf_execute] of the plan
      [fftwf_plan_dft_c2r_1d(n, in, out, ...)] *)
  c2r : Z -> list (F32.float * F32.float) -> Z -> F32.float
}.

(** Arithmetic on [int32_t]: an overflow is undefined. *)
Definition i32 (z : Z) : result Z :=
  if in_int z then Ok z else Throw undefined.

(** [std::vector<float> v(n, x)] with [n] an [int32_t]: a negative [n]
    converts to a size above [max_size()]. *)
Definition vector_fill (n : Z) (x : F32.float) : result (list F32.float) :=
  if n <? 0 then Throw length_error else Ok (replicate (Z.to_nat n) x).

(** [v[i]]: an index outside the vector is undefined. *)
Definition get (v : list F32.float) (i : Z) : result F32.float :=
  if i <? 0 then Throw undefined
  else match v !! Z.to_nat i with
       | Some x => Ok x
       | None => Throw undefined
       end.

(** [for (int32_t i = 0; i < n; ++i) body], threading the state [s]. *)
Fixpoint for_from {S : Type} (count : nat) (i : Z) (body : Z -> S -> result S) (s : S)
    : result S :=
  match count with
  | O => Ok s
  | Datatypes.S count' => s' ← body i s; for_from count' (i + 1) body s'
  end.

Definition for_range {S : Type} (n : Z) (body : Z -> S -> result S) (s : S) : result S :=
  for_from (Z.to_nat n) 0 body s.

Section WithNumerics.
Context `{Numerics}.

Definition createHannWindow (length : Z) : result (list F32.float) :=
  window ← vector_fill length F32.zero;
  for_range length (fun i window => Ok (<[Z.to_nat i := hann i length]> window)) window.

(** [1e-8f] *)
Definition epsilon : F32.float := F32.of_bits 0x322BCC77.

(** One frame of the overlap-add loop; the state is [(audio, denominator)]. *)
Definition istft_frame (stft_real stft_imag window : list F32.float)
    (n_fft_bins n_fft hop_length win_length audio_length frame : Z)
    (st : list F32.float * list F32.float)
    : result (list F32.float * list F32.float) :=
  offset ← i32 (frame * n_fft_bins);
  (* posix_memalign of the two FFTW buffers *)
  if n_fft <? 0 then Throw runtime_error
  (* FFTW makes no plan for a transform of size 0 *)
  else if n_fft =? 0 then Throw undefined
  else
    in_ ← for_range (Z.min n_fft_bins (Z.quot n_fft 2 + 1)) (fun i in_ =>
            re ← get stft_real (offset + i);
            im ← get stft_imag (offset + i);
            Ok (in_ ++ [(re, im)])) [];
    (* bins of [in] the copy loop has not written are read by the transform *)
    if n_fft_bins <? Z.quot n_fft 2 + 1 then Throw undefined
    else
      let scale := F32.div (F32.of_Z 1) (F32.of_Z n_fft) in
      let out := map (fun i => F32.mul (c2r n_fft in_ i) scale) (seqZ 0 n_fft) in
      out ← for_range (Z.min win_length n_fft) (fun i out =>
              o ← get out i;
              w ← get window i;
              Ok (<[Z.to_nat i := F32.mul o w]> out)) out;
      start_pos ← i32 (frame * hop_length);
      for_range n_fft (fun i '(audio, denominator) =>
        pos ← i32 (start_pos + i);
        if pos <? audio_length then
          a ← get audio pos;
          o ← get out i;
          d ← get denominator pos;
          w ← get window i;
          Ok (<[Z.to_nat pos := F32.add a o]> audio,
              <[Z.to_nat pos := F32.add d (F32.mul w w)]> denominator)
        else Ok (audio, denominator)) st.

Definition istft (stft_real stft_imag : list F32.float) (num_frames n_fft_bins : Z)
    (config : ISTFTConfig) : result (list F32.float) :=
  let n_fft := n_fft config in
  let hop_length := hop_length config in
  let win_length := win_length config in
  frames_less_one ← i32 (num_frames - 1);
  span ← i32 (frames_less_one * hop_length);
  audio_length ← i32 (n_fft + span);
  audio ← vector_fill audio_length F32.zero;
  denominator ← vector_fill audio_length F32.zero;
  window ← createHannWindow win_length;
  '(audio, denominator) ←
    for_range num_frames
      (istft_frame stft_real stft_imag window n_fft_bins n_fft hop_length win_length
                   audio_length)
      (audio, denominator);
  for_range audio_length (fun i audio =>
    a ← get audio i;
    d ← get denominator i;
    if F32.ltb epsilon d then Ok (<[Z.to_nat i := F32.div a d]> audio) else Ok audio) audio.

End WithNumerics.

End Vocoder.

(* ===================================================================== *)
(** * kokoro_voice_manager.cpp                                            *)
(* ===================================================================== *)

Module KokoroVoiceManager.
Import Cxx.

Definition STYLE_DIM : Z := 256.

Record state := {
  style_data_ : list F32.float;
  num_rows_ : Z
}.

(** [KokoroVoiceManager() = default] *)
Definition init : state := {| style_data_ := []; num_rows_ := 0 |}.

(** What the file system answers to [loadVoice]: the file cannot be opened,
    or it has these bytes and [file.read] leaves the stream good or not. *)
Inductive voice_file :=
| unreadable
| content (bytes : list Z) (read_good : bool).

(** The [float]s that [file.read] stores from raw little-endian bytes. *)
Fixpoint floats_of_bytes (bytes : list Z) : list F32.float :=
  match bytes with
  | b0 :: b1 :: b2 :: b3 :: rest =>
      F32.of_bits (b0 + 2 ^ 8 * b1 + 2 ^ 16 * b2 + 2 ^ 24 * b3) :: floats_of_bytes rest
  | _ => []
  end.

(** The value returned and the manager afterwards. *)
Definition loadVoice (self : state) (file : voice_file) : result (bool * state) :=
  match file with
  | unreadable => Ok (false, self)
  | content bytes read_good =>
      let file_size := Z.of_nat (length bytes) in
      let num_floats := file_size / 4 in
      if (num_floats =? 0) || negb (num_floats mod STYLE_DIM =? 0) then Ok (false, self)
      (* [file.read] stores [file_size] bytes in a vector of [4 * num_floats] *)
      else if negb (file_size mod 4 =? 0) then Throw undefined
      else if negb read_good then
        Ok (false, {| style_data_ := []; num_rows_ := num_rows_ self |})
      else
        Ok (true, {| style_data_ := floats_of_bytes bytes;
                     num_rows_ := to_int (num_floats / STYLE_DIM) |})
  end.

Definition getStyleVector (self : state) (token_len : Z) : result (list F32.float) :=
  if bool_decide (style_data_ self = []) then Ok (replicate (Z.to_nat STYLE_DIM) F32.zero)
  else
    (* [num_rows_ - 1] is computed in [int] *)
    if negb (in_int (num_rows_ self - 1)) then Throw undefined
    else
      let row := Z.min token_len (num_rows_ self - 1) in
      let row := Z.max row 0 in
      let offset := row * STYLE_DIM in
      if offset + STYLE_DIM <=? Z.of_nat (length (style_data_ self))
      then Ok (take (Z.to_nat STYLE_DIM) (drop (Z.to_nat offset) (style_data_ self)))
      else Throw undefined.

(** The manager after a sequence of [loadVoice] calls. *)
Fixpoint loads (self : state) (files : list voice_file) : result state :=
  match files with
  | [] => Ok self
  | file :: files' => r ← loadVoice self file; loads (snd r) files'
  end.

End KokoroVoiceManager.

(* ===================================================================== *)
(** * tts_config.hpp and the inference runtime                            *)
(* ===================================================================== *)

Module Config.

(** The members of [TtsConfig] the backends read after [initialize]. *)
Record TtsConfig := {
  speaker_id : Z;
  output_sample_rate : Z;
  speech_rate : F32.float;
  target_rms : F32.float;
  compression_ratio : F32.float;
  use_rms_norm : bool;
  remove_clicks : bool
}.

Record AudioProcessConfig := {
  ap_target_rms : F32.float;
  ap_compression_ratio : F32.float;
  ap_use_rms_norm : bool;
  ap_remove_clicks : bool
}.

End Config.

(** The neural sessions, the floating-point signal processing behind them
    and the clock. A session that fails throws. *)
Class Runtime := {
  (** [MatchaBackend::runAcousticModel(tokens, speaker_id, speed)] *)
  runAcousticModel : list Z -> Z -> F32.float -> Cxx.result (list F32.float);
  (** [MatchaBackend::runVocoder(mel, mel_dim)]: the vocoder session, the
      ISTFT and the post-processing *)
  runVocoder : list F32.float -> Z -> Cxx.result (list F32.float);
  (** [KokoroBackend::runInference(token_ids, style_vector, speed)] *)
  runInference : list Z -> list F32.float -> F32.float -> Cxx.result (list F32.float);
  (** [audio::resampleAudio(audio, src_rate, dst_rate)] *)
  resampleAudio : list F32.float -> Z -> Z -> list F32.float;
  (** [audio::processAudio(audio, config)] *)
  processAudio : list F32.float -> Config.AudioProcessConfig -> list F32.float;
  (** [duration.count()]: the milliseconds between [start_time] and [end_time] *)
  elapsed_ms : Z
}.

(* ===================================================================== *)
(** * matcha_backend.cpp                                                  *)
(* ===================================================================== *)

Module MatchaBackend.
Import Cxx Types Config.

(** What a derived class supplies. *)
Class Language := {
  textToTokenIds : string -> result (list Z);
  usesBlankTokens : bool
}.

Record state := {
  type_ : BackendType;
  config_ : TtsConfig;
  mel_dim_ : Z;
  num_speakers_ : Z;
  pad_id_ : Z;
  sample_rate_ : Z;
  initialized_ : bool;
  current_speed_ : F32.float;
  current_speaker_ : Z
}.

Definition set_current_speed_ (self : state) (speed : F32.float) : state :=
  {| type_ := type_ self; config_ := config_ self; mel_dim_ := mel_dim_ self;
     num_speakers_ := num_speakers_ self; pad_id_ := pad_id_ self;
     sample_rate_ := sample_rate_ self; initialized_ := initialized_ self;
     current_speed_ := speed; current_speaker_ := current_speaker_ self |}.

Definition set_current_speaker_ (self : state) (speaker_id : Z) : state :=
  {| type_ := type_ self; config_ := config_ self; mel_dim_ := mel_dim_ self;
     num_speakers_ := num_speakers_ self; pad_id_ := pad_id_ self;
     sample_rate_ := sample_rate_ self; initialized_ := initialized_ self;
     current_speed_ := current_speed_ self; current_speaker_ := speaker_id |}.

Definition getSampleRate (self : state) : Z :=
  if 0 <? output_sample_rate (config_ self) then output_sample_rate (config_ self)
  else sample_rate_ self.

(** The loop of [addBlankTokens]: [result[i] = token; i += 2;] with [i] an
    [int32_t]. *)
Fixpoint addBlankTokens_from (tokens : list Z) (i : Z) (result : list Z) : Cxx.result (list Z) :=
  match tokens with
  | [] => Ok result
  | token :: tokens' =>
      if negb (in_int (i + 2)) then Throw undefined
      else addBlankTokens_from tokens' (i + 2) (<[Z.to_nat i := token]> result)
  end.

Definition addBlankTokens (self : state) (tokens : list Z) : result (list Z) :=
  addBlankTokens_from tokens 1 (replicate (length tokens * 2 + 1) (pad_id_ self)).

Definition setSpeed (self : state) (speed : F32.float) : ErrorInfo * state :=
  if F32.leb speed (F32.of_Z 0) || F32.ltb (F32.of_Z 10) speed
  then (error INVALID_CONFIG "Speed must be between 0.1 and 10.0", self)
  else (ok, set_current_speed_ self speed).

Definition setSpeaker (self : state) (speaker_id : Z) : ErrorInfo * state :=
  if speaker_id <? 0
  then (error INVALID_CONFIG "Speaker ID must be non-negative", self)
  else if num_speakers_ self <=? speaker_id
  then (error INVALID_CONFIG "Speaker ID out of range", self)
  else (ok, set_current_speaker_ self speaker_id).

(** [shutdown()]: the sessions, the token table and what the derived
    class holds are released, which this state does not carry. *)
Definition shutdown (self : state) : state :=
  if initialized_ self then
    {| type_ := type_ self; config_ := config_ self; mel_dim_ := mel_dim_ self;
       num_speakers_ := num_speakers_ self; pad_id_ := pad_id_ self;
       sample_rate_ := sample_rate_ self; initialized_ := false;
       current_speed_ := current_speed_ self; current_speaker_ := current_speaker_ self |}
  else self.

Definition norm_lang (type : BackendType) : TextNormalizer.Language :=
  match type with
  | MATCHA_ZH => TextNormalizer.ZH
  | MATCHA_EN => TextNormalizer.EN
  | _ => TextNormalizer.AUTO
  end.

Section Synthesis.
Context `{Platform} `{Runtime} `{Language}.

(** [result.audio = AudioChunk::fromFloat({}, sample_rate_, true); result.success = true;] *)
Definition empty_result (self : state) (result : SynthesisResult) : SynthesisResult :=
  set_success (set_audio result (fromFloat [] (sample_rate_ self) true)) true.

(** The [try] block of [synthesize]: the result as it is when the block
    returns [ErrorInfo::ok()]. *)
Definition synthesize_try (self : state) (text : string) (result : SynthesisResult)
    : Cxx.result SynthesisResult :=
  normalized_text ← TextNormalizer.normalizeText sorted_units text (norm_lang (type_ self));
  token_ids ← textToTokenIds normalized_text;
  if bool_decide (token_ids = []) then Ok (empty_result self result)
  else
    final_tokens ← (if usesBlankTokens then addBlankTokens self token_ids else Ok token_ids);
    mel ← runAcousticModel final_tokens (current_speaker_ self) (current_speed_ self);
    if bool_decide (mel = []) then Ok (empty_result self result)
    else
      audio_samples ← runVocoder mel (mel_dim_ self);
      let out_rate := output_sample_rate (config_ self) in
      let '(audio_samples, output_sample_rate) :=
        if (0 <? out_rate) && negb (out_rate =? sample_rate_ self)
        then (resampleAudio audio_samples (sample_rate_ self) out_rate, out_rate)
        else (audio_samples, sample_rate_ self) in
      let result := set_audio result (fromFloat audio_samples output_sample_rate true) in
      let result := set_audio_duration_ms result (getDurationMs (audio result)) in
      let result := set_processing_time_ms result elapsed_ms in
      let result := calculateRTF result in
      let result := set_success result true in
      let sentence :=
        {| Types.text := text; begin_time_ms := 0;
           end_time_ms := audio_duration_ms result; sentence_is_final := true |} in
      Ok (set_sentences result (sentences result ++ [sentence])).

(** [synthesize(text, result)]: the [ErrorInfo] returned and [result]
    afterwards. Only undefined behaviour escapes the [catch]. Two things
    are left out: the [e.what()] that the [catch] appends to its message,
    and the call of the callback, which does not touch [result]. *)
Definition synthesize (self : state) (text : string) (result : SynthesisResult)
    : Cxx.result (ErrorInfo * SynthesisResult) :=
  if negb (initialized_ self) then Ok (error NOT_INITIALIZED "Backend not initialized", result)
  else if String.eqb text "" then Ok (error INVALID_TEXT "Empty text", result)
  else
    match synthesize_try self text result with
    | Ok result' => Ok (ok, result')
    | Throw undefined => Throw undefined
    | Throw _ => Ok (error SYNTHESIS_FAILED "Synthesis failed: ", result)
    end.

End Synthesis.

End MatchaBackend.

(* ===================================================================== *)
(** * kokoro_backend.cpp                                                  *)
(* ===================================================================== *)

Module KokoroBackend.
Import Cxx Types Config.

Definition SAMPLE_RATE : Z := 24000.

Record state := {
  phonemizer_ : KokoroPhonemizer.state;
  voice_manager_ : KokoroVoiceManager.state;
  config_ : TtsConfig;
  initialized_ : bool;
  current_speed_ : F32.float
}.

Definition set_current_speed_ (self : state) (speed : F32.float) : state :=
  {| phonemizer_ := phonemizer_ self; voice_manager_ := voice_manager_ self;
     config_ := config_ self; initialized_ := initialized_ self;
     current_speed_ := speed |}.

Definition getNumSpeakers (self : state) : Z := 1.

Definition getSampleRate (self : state) : Z := SAMPLE_RATE.

Definition setSpeed (self : state) (speed : F32.float) : ErrorInfo * state :=
  if F32.leb speed (F32.of_Z 0) || F32.ltb (F32.of_Z 10) speed
  then (error INVALID_CONFIG "Speed must be between 0.1 and 10.0", self)
  else (ok, set_current_speed_ self speed).

(** [ITtsBackend::setSpeaker], which [KokoroBackend] does not override *)
Definition setSpeaker (self : state) (speaker_id : Z) : ErrorInfo * state :=
  (error INTERNAL_ERROR "Speaker update not supported", self).

(** [shutdown()]: the session and the environment are released, which
    this state does not carry. *)
Definition shutdown (self : state) : state :=
  if initialized_ self then
    {| phonemizer_ := phonemizer_ self; voice_manager_ := voice_manager_ self;
       config_ := config_ self; initialized_ := false;
       current_speed_ := current_speed_ self |}
  else self.

Section Synthesis.
Context `{Platform} `{Runtime}.

Definition empty_result (result : SynthesisResult) : SynthesisResult :=
  set_success (set_audio result (fromFloat [] SAMPLE_RATE true)) true.

Definition synthesize_try (self : state) (text : string) (result : SynthesisResult)
    : Cxx.result SynthesisResult :=
  token_ids ← KokoroPhonemizer.textToTokenIds (phonemizer_ self) text;
  if bool_decide (token_ids = []) then Ok (empty_result result)
  else
    style_vector ←
      KokoroVoiceManager.getStyleVector (voice_manager_ self)
        (to_int (Z.of_nat (length token_ids)));
    let kokoro_speed := F32.div (F32.of_Z 1) (current_speed_ self) in
    audio_samples ← runInference token_ids style_vector kokoro_speed;
    if bool_decide (audio_samples = []) then Ok (empty_result result)
    else
      let audio_config :=
        {| ap_target_rms := target_rms (config_ self);
           ap_compression_ratio := compression_ratio (config_ self);
           ap_use_rms_norm := use_rms_norm (config_ self);
           ap_remove_clicks := remove_clicks (config_ self) |} in
      let audio_samples := processAudio audio_samples audio_config in
      let result := set_audio result (fromFloat audio_samples SAMPLE_RATE true) in
      let result := set_audio_duration_ms result (getDurationMs (audio result)) in
      let result := set_processing_time_ms result elapsed_ms in
      let result := calculateRTF result in
      let result := set_success result true in
      let sentence :=
        {| Types.text := text; begin_time_ms := 0;
           end_time_ms := audio_duration_ms result; sentence_is_final := true |} in
      Ok (set_sentences result (sentences result ++ [sentence])).

(** [synthesize(text, result)], with the same two omissions as for Matcha. *)
Definition synthesize (self : state) (text : string) (result : SynthesisResult)
    : Cxx.result (ErrorInfo * SynthesisResult) :=
  if negb (initialized_ self) then Ok (error NOT_INITIALIZED "Backend not initialized", result)
  else if String.eqb text "" then Ok (error INVALID_TEXT "Empty text", result)
  else
    match synthesize_try self text result with
    | Ok result' => Ok (ok, result')
    | Throw undefined => Throw undefined
    | Throw _ => Ok (error SYNTHESIS_FAILED "Kokoro synthesis failed: ", result)
    end.

End Synthesis.

End KokoroBackend.

(* ===================================================================== *)
(** * token_utils.cpp                                                     *)
(* ===================================================================== *)

Module TokenUtils.
Import Cxx.

(** What [std::ifstream file(path)] and the [std::getline] loop give: no
    stream when the file cannot be opened, else the lines in order, each
    without its newline. *)
Definition text_file : Type := option (list string).

(** [iss >> token]: white space is skipped, then the characters up to the
    next white space are taken; the extraction fails when none is left. *)
Fixpoint take_word (s : string) : string * string :=
  match s with
  | String c s' =>
      if isspace c then (EmptyString, s)
      else let '(w, rest) := take_word s' in (String c w, rest)
  | EmptyString => (EmptyString, EmptyString)
  end.

Definition extract_word (s : string) : option (string * string) :=
  match skip_space s with
  | EmptyString => None
  | s1 => Some (take_word s1)
  end.

(** [iss >> id] for an [int64_t]: white space, an optional sign and decimal
    digits; the extraction fails without a digit and on a value outside
    [int64_t]. *)
Definition extract_int64 (s : string) : option Z :=
  match stoll s with
  | Ok v => Some v
  | Throw _ => None
  end.

(** The entry one line of a token file contributes, [line_num] being the
    1-based number of the line. *)
Definition token_entry (line_num : Z) (line : string) : option (string * Z) :=
  if String.eqb line "" then None
  else
    match extract_word line with
    | Some (token, rest) =>
        match extract_int64 rest with
        | Some id => Some (token, id)
        | None => Some (line, line_num - 1)
        end
    | None => Some (line, line_num - 1)
    end.

(** The body of a [while (std::getline(file, line)) { line_num++; ... }]
    loop that stores at most one entry per line: [entries] are the lines
    from number [line_num + 1] on. *)
Fixpoint read_lines {V : Type} (entry : Z -> string -> option (string * V))
    (lines : list string) (line_num : Z) (map : gmap string V) : gmap string V :=
  match lines with
  | [] => map
  | line :: lines' =>
      let line_num := line_num + 1 in
      read_lines entry lines' line_num
        (match entry line_num line with
         | Some (key, value) => <[key := value]> map
         | None => map
         end)
  end.

Definition readTokenToIdMap (file : text_file) : result (gmap string Z) :=
  match file with
  | None => Throw runtime_error
  | Some lines => Ok (read_lines token_entry lines 0 ∅)
  end.

(** [find_first_not_of(" \t\r\n")] and [find_last_not_of(" \t\r\n")], then
    [substr(start, end - start + 1)]: nothing when the line has only such
    characters. *)
Definition is_blank (c : ascii) : bool :=
  Ascii.eqb c " " || (code c =? 9) || (code c =? 13) || (code c =? 10).

Fixpoint skip_blank (s : string) : string :=
  match s with
  | String c s' => if is_blank c then skip_blank s' else s
  | EmptyString => s
  end.

(** The string up to its last character that is not blank. *)
Fixpoint drop_blank_end (s : string) : string :=
  match s with
  | String c s' =>
      match drop_blank_end s' with
      | EmptyString => if is_blank c then EmptyString else String c EmptyString
      | t => String c t
      end
  | EmptyString => EmptyString
  end.

Definition trimmed (line : string) : option string :=
  match drop_blank_end (skip_blank line) with
  | EmptyString => None
  | token => Some token
  end.

Definition zh_en_token_entry (line_num : Z) (line : string) : option (string * Z) :=
  if String.eqb line " " then Some (" ", line_num)
  else if String.eqb line "" then None
  else
    match trimmed line with
    | Some token => Some (token, line_num)
    | None => None
    end.

Definition readZhEnTokenToIdMap (file : text_file) : result (gmap string Z) :=
  match file with
  | None => Throw runtime_error
  | Some lines => Ok (read_lines zh_en_token_entry lines 0 ∅)
  end.

(** [line.find(' ')], [line.substr(0, space_pos)], [line.substr(space_pos + 1)] *)
Definition lexicon_entry (line_num : Z) (line : string) : option (string * string) :=
  if String.eqb line "" then None
  else
    match find_char " " line with
    | Some space_pos => Some (substr line 0 space_pos, drop_str (S space_pos) line)
    | None => None
    end.

Definition readLexicon (file : text_file) : result (gmap string string) :=
  match file with
  | None => Throw runtime_error
  | Some lines => Ok (read_lines lexicon_entry lines 0 ∅)
  end.

(** Of the lines numbered from [line_num + 1] on, the one at index [i] is
    the last from which [entry] makes the key [key], and it gives the
    value [value]. *)
Definition last_entry {V : Type} (entry : Z -> string -> option (string * V))
    (lines : list string) (line_num : Z) (key : string) (value : V) (i : nat) : Prop :=
  (exists line,
      lines !! i = Some line
      /\ entry (line_num + 1 + Z.of_nat i) line = Some (key, value))
  /\ forall j line value',
       (i < j)%nat -> lines !! j = Some line ->
       entry (line_num + 1 + Z.of_nat j) line <> Some (key, value').

End TokenUtils.

(* ===================================================================== *)
(** * matcha_zh_backend.cpp                                               *)
(* ===================================================================== *)

Module MatchaZhBackend.
Import Cxx TextUtils.

(** cppjieba: the words of [jieba_->Cut(text, words, true)]. *)
Class Jieba := {
  Cut : string -> list string
}.

Record state := {
  jieba_ : bool;
  lexicon_ : gmap string string;
  token_to_id_ : gmap string Z
}.

(** [::tolower] on a byte: outside [A-Z] the C locale changes nothing. *)
Definition tolower (c : ascii) : ascii :=
  if isupper c then chr (code c + 32) else c.

Fixpoint lower (s : string) : string :=
  match s with
  | EmptyString => EmptyString
  | String c s' => String (tolower c) (lower s')
  end.

(** The words a [while (iss >> phone)] loop reads. *)
Fixpoint words_from (fuel : nat) (s : string) : list string :=
  match fuel with
  | O => []
  | S f =>
      match TokenUtils.extract_word s with
      | Some (word, rest) => word :: words_from f rest
      | None => []
      end
  end.

Definition words (s : string) : list string := words_from (String.length s) s.

Definition phoneme_mapping : gmap string string :=
  list_to_map
    [("shei2", "she2"); ("cei2", "ce2"); ("den1", "de1"); ("den2", "de2");
     ("den3", "de3"); ("den4", "de4"); ("kei2", "ke2"); ("kei3", "ke3");
     ("nei1", "ne1"); ("pou1", "po1"); ("pou2", "po2"); ("pou3", "po3");
     ("yo1", "yo"); ("m2", "m"); ("n2", "n"); ("ng2", "ng"); ("hm", "hm1")].

Definition mapPhoneme (phone : string) : string :=
  match phoneme_mapping !! phone with
  | Some mapped => mapped
  | None =>
      if (1 <? String.length phone)%nat then
        match back phone with
        | Some last_char =>
            if (code "1" <=? code last_char) && (code last_char <=? code "4")
            then pop_back phone
            else phone +:+ "1"
        | None => phone
        end
      else phone
  end.

Definition convertPhonemesToIds (self : state) (phonemes : string) : list Z :=
  fold_left
    (fun ids phone =>
       match token_to_id_ self !! phone with
       | Some id => ids ++ [id]
       | None =>
           let mapped_phone := mapPhoneme phone in
           if negb (String.eqb mapped_phone phone) then
             match token_to_id_ self !! mapped_phone with
             | Some id => ids ++ [id]
             | None => ids
             end
           else ids
       end)
    (words phonemes) [].

(** Step 4 of [convertWordToIds]: the fallback character by character. *)
Definition convertCharsToIds (self : state) (chars : list string) : list Z :=
  fold_left
    (fun result char_str =>
       let by_token :=
         match token_to_id_ self !! char_str with
         | Some id => result ++ [id]
         | None => result
         end in
       if negb (bool_decide (lexicon_ self = ∅)) then
         match lexicon_ self !! char_str with
         | Some phonemes => result ++ convertPhonemesToIds self phonemes
         | None => by_token
         end
       else by_token)
    chars [].

Definition convertWordToIds (self : state) (word : string) : list Z :=
  let lower_word := lower word in
  let in_lexicon :=
    if negb (bool_decide (lexicon_ self = ∅)) then lexicon_ self !! lower_word else None in
  match in_lexicon with
  | Some phonemes => convertPhonemesToIds self phonemes
  | None =>
      match token_to_id_ self !! word with
      | Some id => [id]
      | None =>
          let by_punctuation :=
            if isPunctuation word then
              let punct_token := mapPunctuation word (token_to_id_ self) in
              if negb (String.eqb punct_token "") then token_to_id_ self !! punct_token
              else None
            else None in
          match by_punctuation with
          | Some id => [id]
          | None => convertCharsToIds self (splitUtf8 word)
          end
      end
  end.

(** A blank or a punctuation mark. *)
Definition is_separator (word : string) : bool :=
  String.eqb word " " || isPunctuation word.

(** Step 3 of [textToTokenIds]: [words] from index 1 on, [cleaned_words]
    as it is so far, kept with its last element first. *)
Fixpoint clean_rest (words : list string) (last : string) (cleaned_rev : list string)
    : list string :=
  match words with
  | [] => rev (last :: cleaned_rev)
  | word :: words' =>
      if is_separator word && is_separator last
      then clean_rest words' last cleaned_rev
      else clean_rest words' word (last :: cleaned_rev)
  end.

Definition clean_words (words : list string) : list string :=
  match words with
  | [] => []
  | first :: words' => clean_rest words' first []
  end.

(** Every id is the id of some token of the table. *)
Definition from_table (self : state) (ids : list Z) : Prop :=
  Forall (fun id => exists token, token_to_id_ self !! token = Some id) ids.

Definition punct_re1 : Regex.re := Regex.alt [Regex.lit "："; Regex.lit "、"; Regex.lit "；"].
Definition punct_re2 : Regex.re := Regex.Class [Regex.IChar "."].
Definition punct_re3 : Regex.re := Regex.Class [Regex.IChar "?"].
Definition punct_re4 : Regex.re := Regex.Class [Regex.IChar "!"].

Section WithJieba.
Context `{Jieba}.

Definition textToTokenIds (self : state) (text : string) : list Z :=
  if negb (jieba_ self) then []
  else
    let processed_text := Regex.regex_replace text punct_re1 "，" in
    let processed_text := Regex.regex_replace processed_text punct_re2 "。" in
    let processed_text := Regex.regex_replace processed_text punct_re3 "？" in
    let processed_text := Regex.regex_replace processed_text punct_re4 "！" in
    let words := Cut processed_text in
    let cleaned_words := clean_words words in
    fold_left
      (fun token_ids word => token_ids ++ convertWordToIds self word)
      cleaned_words [].

End WithJieba.

End MatchaZhBackend.

(* ===================================================================== *)
(** * audio_processor.cpp: compression and format conversion              *)
(* ===================================================================== *)

Module AudioProcessor.
Import Cxx.

(** The body of the loop of [applyCompression] on one sample. *)
Definition compress (threshold ratio sample : F32.float) : F32.float :=
  let abs_sample := F32.abs sample in
  if F32.ltb threshold abs_sample then
    let over_threshold := F32.sub abs_sample threshold in
    let compressed_over := F32.div over_threshold ratio in
    let new_abs := F32.add threshold compressed_over in
    if F32.ltb sample (F32.of_Z 0) then F32.neg new_abs else new_abs
  else sample.

Definition applyCompression (audio : list F32.float) (threshold ratio : F32.float)
    : list F32.float :=
  map (compress threshold ratio) audio.

(** [static_cast<int16_t>(x)] of a [float]: the integer part when
    [int16_t] holds it, undefined otherwise. *)
Definition to_int16 (x : F32.float) : result Z :=
  match F32.trunc x with
  | Some z => if (-32768 <=? z) && (z <=? 32767) then Ok z else Throw undefined
  | None => Throw undefined
  end.

(** One sample of [floatToInt16]: clamp to [-1, 1], scale by 32767. *)
Definition sample_to_int16 (sample : F32.float) : result Z :=
  let sample := if F32.ltb (F32.of_Z 1) sample then F32.of_Z 1 else sample in
  let sample := if F32.ltb sample (F32.of_Z (-1)) then F32.of_Z (-1) else sample in
  to_int16 (F32.mul sample (F32.of_Z 32767)).

Fixpoint floatToInt16 (audio : list F32.float) : result (list Z) :=
  match audio with
  | [] => Ok []
  | sample :: audio' =>
      x ← sample_to_int16 sample;
      xs ← floatToInt16 audio';
      Ok (x :: xs)
  end.

(** [static_cast<float>(audio[i]) / 32768.0f] *)
Definition int16ToFloat (audio : list Z) : list F32.float :=
  map (fun x => F32.div (F32.of_Z x) (F32.of_Z 32768)) audio.

(** [x & 0xFF] and [(x >> 8) & 0xFF] of an [int16_t] promoted to [int] *)
Definition low_byte (x : Z) : Z := Z.land x 255.
Definition high_byte (x : Z) : Z := Z.land (Z.shiftr x 8) 255.

Definition floatToBytes (audio : list F32.float) : result (list Z) :=
  int16_data ← floatToInt16 audio;
  Ok (concat (map (fun x => [low_byte x; high_byte x]) int16_data)).

(** What [floatToInt16] makes of [int16ToFloat] of one sample [x], set
    against [x] moved one unit towards zero. *)
Definition round_trip_ok (x : Z) : bool :=
  match sample_to_int16 (F32.div (F32.of_Z x) (F32.of_Z 32768)) with
  | Ok y => y =? x - Z.sgn x
  | Throw _ => false
  end.

End AudioProcessor.

(* ===================================================================== *)
(** * tts_backend.cpp: the factory                                        *)
(* ===================================================================== *)

Module TtsBackendFactory.
Import Types.

(** The class of the object that [create] makes. *)
Inductive backend_class :=
| MatchaZhBackend_
| MatchaEnBackend_
| MatchaZhEnBackend_
| KokoroBackend_.

(** [nullptr] is [None]. *)
Definition create (type : BackendType) : option backend_class :=
  match type with
  | MATCHA_ZH => Some MatchaZhBackend_
  | MATCHA_EN => Some MatchaEnBackend_
  | MATCHA_ZH_EN => Some MatchaZhEnBackend_
  | KOKORO => Some KokoroBackend_
  | COSYVOICE | VITS | PIPER | CUSTOM => None
  end.

Definition isAvailable (type : BackendType) : bool :=
  match type with
  | MATCHA_ZH | MATCHA_EN | MATCHA_ZH_EN | KOKORO => true
  | _ => false
  end.

Definition getAvailableBackends : list BackendType :=
  [MATCHA_ZH; MATCHA_EN; MATCHA_ZH_EN; KOKORO].

(** [getType()] of a freshly constructed backend: the constructors of the
    Matcha classes pass their type to [MatchaBackend(type)], whose
    [getType] returns it; [KokoroBackend::getType] returns [KOKORO]. *)
Definition getType (b : backend_class) : BackendType :=
  match b with
  | MatchaZhBackend_ => MATCHA_ZH
  | MatchaEnBackend_ => MATCHA_EN
  | MatchaZhEnBackend_ => MATCHA_ZH_EN
  | KokoroBackend_ => KOKORO
  end.

End TtsBackendFactory.

(* ===================================================================== *)
(** * Plain text and patterns that need a digit                           *)
(* ===================================================================== *)

Module PlainText.
Import Cxx Regex.

(** The ASCII characters that are neither digits nor one of the
    single-byte operator and currency signs of the tables. *)
Definition special : list ascii :=
  ["+"; "-"; "*"; "/"; "="; "<"; ">"; "^"; "$"]%char.

Definition plain (c : ascii) : bool :=
  (code c <? 128) && negb (isdigit c) && negb (existsb (Ascii.eqb c) special).

Definition plain_text (text : string) : Prop :=
  Forall (fun c => plain c = true) (list_ascii_of_string text).

(** A pattern every match of which reads a decimal digit. *)
Definition digit_item (i : item) : bool :=
  match i with
  | IChar c => isdigit c
  | IRange lo hi => (48 <=? code lo) && (code hi <=? 57)
  | IDigit => true
  | ISpace => false
  end.

Fixpoint needs_digit (r : re) : bool :=
  match r with
  | Eps | WordB => false
  | Lit c => isdigit c
  | Class items => forallb digit_item items
  | Seq r1 r2 => needs_digit r1 || needs_digit r2
  | Alt r1 r2 => needs_digit r1 && needs_digit r2
  | Rep lo _ r1 => (0 <? lo)%nat && needs_digit r1
  | Grp _ r1 => needs_digit r1
  end.

Definition digit_free (s : string) : Prop :=
  Forall (fun c => isdigit c = false) (list_ascii_of_string s).

(** A continuation of the matcher that fails wherever no digit is left. *)
Definition fails (k : cursor -> captures -> outcome) : Prop :=
  forall cur caps, digit_free (rest cur) -> k cur caps = None.

(** The one-byte characters of a string. *)
Definition singles (s : string) : list string :=
  map (fun c => String c EmptyString) (list_ascii_of_string s).

End PlainText.

(* ===================================================================== *)
(** * Vocabulary of the statements                                        *)
(* ===================================================================== *)

Module Spec.

(** [needle] occurs in [s] as a contiguous run of bytes. *)
Fixpoint contains (s needle : string) : bool :=
  String.prefix needle s
  || match s with
     | String _ s' => contains s' needle
     | EmptyString => false
     end.

End Spec.

(* ===================================================================== *)
(** * Predicates and concrete values of the statements                    *)
(* ===================================================================== *)

(** ** The ISTFT *)

(** The two accumulators of the overlap-add, [audio] and [denominator],
    have the lengths [la] and [ld]. *)
Definition same_lengths (la ld : nat) (st : list F32.float * list F32.float) : Prop :=
  length (fst st) = la /\ length (snd st) = ld.

(** The inputs on which every step of [istft] is defined: at least one
    frame, a transform of positive size no longer than the window, a hop
    that is not negative, all bins of a frame present, the spectra as long
    as [frames * bins], and sizes that fit [int32_t]. *)
Record istft_ready (real imag : list F32.float) (frames bins : Z)
    (config : Vocoder.ISTFTConfig) : Prop := {
  ready_frames : 1 <= frames;
  ready_n_fft : 1 <= Vocoder.n_fft config;
  ready_hop : 0 <= Vocoder.hop_length config;
  ready_window : Vocoder.n_fft config <= Vocoder.win_length config;
  ready_bins : Z.quot (Vocoder.n_fft config) 2 + 1 <= bins;
  ready_length :
    Vocoder.n_fft config + (frames - 1) * Vocoder.hop_length config <= Cxx.INT_MAX;
  ready_size : frames * bins <= Cxx.INT_MAX;
  ready_real : frames * bins <= Z.of_nat (length real);
  ready_imag : frames * bins <= Z.of_nat (length imag)
}.

(** A window of ones and a transform that spreads the first bin. *)
Definition unit_numerics : Vocoder.Numerics := {|
  Vocoder.hann := fun _ _ => F32.of_Z 1;
  Vocoder.c2r := fun _ in_ _ => match in_ with (re, _) :: _ => re | [] => F32.zero end
|}.

(** ** Voices *)

(** What [loadVoice] establishes: no data, or whole rows of 256 floats
    counted by [num_rows_]. *)
Definition rows_loaded (self : KokoroVoiceManager.state) : Prop :=
  KokoroVoiceManager.style_data_ self = []
  \/ (1 <= KokoroVoiceManager.num_rows_ self <= Cxx.INT_MAX
      /\ Z.of_nat (length (KokoroVoiceManager.style_data_ self))
         = KokoroVoiceManager.STYLE_DIM * KokoroVoiceManager.num_rows_ self).

(** A file below 2 TiB, so that its row count fits [int]. *)
Definition fits_int (file : KokoroVoiceManager.voice_file) : Prop :=
  match file with
  | KokoroVoiceManager.unreadable => True
  | KokoroVoiceManager.content bytes _ =>
      Z.of_nat (length bytes) / 4 / KokoroVoiceManager.STYLE_DIM <= Cxx.INT_MAX
  end.

(** A voice of two rows: the first all 1.0, the second all 2.0. *)
Definition two_row_voice : KokoroVoiceManager.voice_file :=
  KokoroVoiceManager.content
    (concat (replicate 256 [0; 0; 128; 63]) ++ concat (replicate 256 [0; 0; 0; 64])) true.

Definition two_row_manager : KokoroVoiceManager.state :=
  {| KokoroVoiceManager.style_data_ :=
       replicate 256 (F32.of_bits 0x3F800000) ++ replicate 256 (F32.of_bits 0x40000000);
     KokoroVoiceManager.num_rows_ := 2 |}.

(** ** Platform, runtime and backends *)

(** A machine without espeak-ng whose pinyin converter knows one word. *)
Definition demo_platform : Platform := {|
  sorted_units := TextNormalizer.table_order_units;
  hanziToPinyin := fun text =>
    if String.eqb text "你好"
    then [{| pinyin := "ni3"; error := false |}; {| pinyin := "hao3"; error := false |}]
    else [];
  popen_read := fun _ => None
|}.

(** Sessions that answer one sample per token or frame; signal processing
    that leaves the samples alone. *)
Definition demo_runtime : Runtime := {|
  runAcousticModel := fun tokens _ _ => Cxx.Ok (map (fun _ => F32.of_Z 1) tokens);
  runVocoder := fun mel _ => Cxx.Ok mel;
  runInference := fun token_ids _ _ => Cxx.Ok (map (fun _ => F32.of_Z 1) token_ids);
  resampleAudio := fun audio _ _ => audio;
  processAudio := fun audio _ => audio;
  elapsed_ms := 5
|}.

(** A derived class that makes one token of every byte, and one that finds
    no token in any text. *)
Definition byte_language : MatchaBackend.Language := {|
  MatchaBackend.textToTokenIds := fun text =>
    Cxx.Ok (map Cxx.code (list_ascii_of_string text));
  MatchaBackend.usesBlankTokens := true
|}.

Definition mute_language : MatchaBackend.Language := {|
  MatchaBackend.textToTokenIds := fun _ => Cxx.Ok [];
  MatchaBackend.usesBlankTokens := true
|}.

(** An initialised Matcha-ZH backend with one speaker, native rate 22050,
    asked for 16 kHz output. *)
Definition matcha_zh_state : MatchaBackend.state := {|
  MatchaBackend.type_ := Types.MATCHA_ZH;
  MatchaBackend.config_ := {|
    Config.speaker_id := 0; Config.output_sample_rate := 16000;
    Config.speech_rate := F32.of_Z 1; Config.target_rms := F32.of_bits 0x3E19999A;
    Config.compression_ratio := F32.of_Z 2; Config.use_rms_norm := true;
    Config.remove_clicks := true |};
  MatchaBackend.mel_dim_ := 80;
  MatchaBackend.num_speakers_ := 1;
  MatchaBackend.pad_id_ := 0;
  MatchaBackend.sample_rate_ := 22050;
  MatchaBackend.initialized_ := true;
  MatchaBackend.current_speed_ := F32.of_Z 1;
  MatchaBackend.current_speaker_ := 0
|}.

(** An initialised Kokoro backend asked for 16 kHz output. *)
Definition kokoro_state : KokoroBackend.state := {|
  KokoroBackend.phonemizer_ :=
    {| KokoroPhonemizer.pinyin_converter_ := true;
       KokoroPhonemizer.espeak_available_ := false |};
  KokoroBackend.voice_manager_ := two_row_manager;
  KokoroBackend.config_ := MatchaBackend.config_ matcha_zh_state;
  KokoroBackend.initialized_ := true;
  KokoroBackend.current_speed_ := F32.of_Z 1
|}.

(** ** Results *)

(** A result as a caller hands it to [synthesize], with nothing in it yet. *)
Definition fresh_result : Types.SynthesisResult :=
  Types.fresh (Types.fromFloat [] 0 false).

(** One second of audio at 22050 Hz, synthesised in half a second. *)
Definition one_second_result : Types.SynthesisResult :=
  Types.set_processing_time_ms
    (Types.set_audio_duration_ms
       (Types.fresh (Types.fromFloat (replicate (Z.to_nat 22050) F32.zero) 22050 true)) 1000)
    500.

(** Ten samples at 22050 Hz: a chunk that is not empty and lasts 0 ms. The
    result is filled as [synthesize] fills it before it calls
    [calculateRTF], with 5 ms of processing. *)
Definition short_audio : Types.AudioChunk :=
  Types.fromFloat (replicate 10 (F32.of_Z 1)) 22050 true.

Definition short_result : Types.SynthesisResult :=
  Types.set_processing_time_ms
    (Types.set_audio_duration_ms (Types.fresh short_audio) (Types.getDurationMs short_audio))
    5.

(** An empty chunk in a result that still holds the [rtf] of an earlier
    synthesis. *)
Definition stale_result : Types.SynthesisResult :=
  Types.set_rtf (Types.fresh (Types.fromFloat [] 22050 true)) (F32.of_bits 0x3F000000).


(** What a synthesis that produced samples leaves in the result [r'] it
    was given as [r]: the duration of the chunk, the time taken, one more
    sentence that spans the chunk, and the request id as it was. *)
Definition filled (elapsed : Z) (text : string) (r r' : Types.SynthesisResult) : Prop :=
  Types.audio_duration_ms r' = Types.getDurationMs (Types.audio r')
  /\ Types.processing_time_ms r' = elapsed
  /\ Types.sentences r'
     = Types.sentences r
       ++ [{| Types.text := text; Types.begin_time_ms := 0;
              Types.end_time_ms := Types.getDurationMs (Types.audio r');
              Types.sentence_is_final := true |}]
  /\ Types.is_final (Types.audio r') = true
  /\ Types.request_id r' = Types.request_id r.

(** What a call returned, for the statements about concrete calls. *)
Definition returned {A : Type} (default : A) (x : Cxx.result A) : A :=
  match x with
  | Cxx.Ok a => a
  | Cxx.Throw _ => default
  end.

(** What two calls of [synthesize] return on the machine above. *)
Definition matcha_hi : Types.ErrorInfo * Types.SynthesisResult :=
  returned (Types.ok, fresh_result)
    (@MatchaBackend.synthesize demo_platform demo_runtime byte_language
       matcha_zh_state "hi" fresh_result).

Definition kokoro_ni_hao : Types.ErrorInfo * Types.SynthesisResult :=
  returned (Types.ok, fresh_result)
    (@KokoroBackend.synthesize demo_platform demo_runtime kokoro_state "你好" fresh_result).

(* ===================================================================== *)
(** * Properties                                                          *)
(* ===================================================================== *)

Example intToChineseReading_101 : NumberUtils.intToChineseReading 101 = "一百零一".
Proof. reflexivity. Qed.

Example intToChineseReading_12 : NumberUtils.intToChineseReading 12 = "十二".
Proof. reflexivity. Qed.

Example splitUtf8_mixed :
  TextUtils.splitUtf8 "a年b" = ["a"; "年"; "b"].
Proof. reflexivity. Qed.

Example regex_number_greedy :
  map (fun m => (Regex.position m, Regex.mlength m))
      (Regex.matches (Regex.seq [Regex.plus Regex.digit;
                                 Regex.opt (Regex.Lit ".");
                                 Regex.star Regex.digit]) "ab 12.50, 7 and 3.")
  = [(3, 5); (10, 1); (16, 2)]%nat.
Proof. vm_compute. reflexivity. Qed.

Example regex_word_boundary :
  map (fun m => (Regex.position m, Regex.mlength m))
      (Regex.matches (Regex.seq [Regex.WordB; Regex.times 3 Regex.digit; Regex.WordB])
                     "1234 567 a890 12")
  = [(5, 3)]%nat.
Proof. vm_compute. reflexivity. Qed.

Example regex_alternation_leftmost :
  map (fun m => Regex.str "5块钱" m 2)
      (Regex.matches (Regex.seq [Regex.Grp 1 (Regex.plus Regex.digit);
                                 Regex.Grp 2 (Regex.alt [Regex.lit "块"; Regex.lit "块钱"])])
                     "5块钱")
  = ["块"].
Proof. vm_compute. reflexivity. Qed.

Example numberToWords_2024 :
  TextNormalizer.numberToWords 2024 TextNormalizer.EN = "two thousand twenty-four".
Proof. vm_compute. reflexivity. Qed.

Example numberToWords_big :
  TextNormalizer.numberToWords 1000001 TextNormalizer.EN = "one million one".
Proof. vm_compute. reflexivity. Qed.

Example yearToWords_2024 :
  TextNormalizer.yearToWords 2024 TextNormalizer.EN = Cxx.Ok "twenty twenty-four".
Proof. vm_compute. reflexivity. Qed.

Example yearToWords_zh :
  TextNormalizer.yearToWords 2024 TextNormalizer.ZH = Cxx.Ok "二零二四".
Proof. vm_compute. reflexivity. Qed.

Example ordinalToWords_21 :
  TextNormalizer.ordinalToWords 21 TextNormalizer.EN = "twenty-first".
Proof. vm_compute. reflexivity. Qed.

Example decimalToWords_pi :
  TextNormalizer.decimalToWords "3.14" TextNormalizer.EN = Cxx.Ok "three point one four".
Proof. vm_compute. reflexivity. Qed.

Example normalize_price_zh :
  TextNormalizer.normalizeText TextNormalizer.table_order_units "价格¥12.5" TextNormalizer.ZH
  = Cxx.Ok "价格十二点五元".
Proof. vm_compute. reflexivity. Qed.

Example normalize_date_en :
  TextNormalizer.normalizeText TextNormalizer.table_order_units "On 2024-01-16日 at 14:30"
    TextNormalizer.EN
  = Cxx.Ok "On January sixteenth, twenty twenty minus four at two thirty PM".
Proof. vm_compute. reflexivity. Qed.

Example normalize_units_en :
  TextNormalizer.normalizeText TextNormalizer.table_order_units "run 5km in 30%" TextNormalizer.EN
  = Cxx.Ok "run five kilometers in thirty percent".
Proof. vm_compute. reflexivity. Qed.

Example normalize_year_suffix_zh :
  TextNormalizer.normalizeText TextNormalizer.table_order_units "2024年" TextNormalizer.ZH
  = Cxx.Ok "二零二四年".
Proof. vm_compute. reflexivity. Qed.

Example normalize_overflow :
  TextNormalizer.normalizeText TextNormalizer.table_order_units "99999999999999999999"
    TextNormalizer.ZH
  = Cxx.Throw Cxx.out_of_range.
Proof. vm_compute. reflexivity. Qed.

(* ===================================================================== *)
(** * The English reading of a bare year                                  *)
(* ===================================================================== *)

Section Year2024.
Import Cxx TextNormalizer.

Local Abbreviation text := "The year 2024 was good."%string.

Lemma year2024_datetime : normalizeDateTime text EN = Ok text.
Proof. vm_compute. reflexivity. Qed.

Lemma year2024_currency : normalizeCurrency text EN = Ok text.
Proof. vm_compute. reflexivity. Qed.

Lemma year2024_phone : normalizePhoneNumbers text EN = Ok text.
Proof. vm_compute. reflexivity. Qed.

Lemma year2024_percent : normalizePercentages text EN = Ok text.
Proof. vm_compute. reflexivity. Qed.

Lemma year2024_formulas : normalizeFormulas text EN = text.
Proof. vm_compute. reflexivity. Qed.

(** The only match of the number pattern is [2024] at offset 9; the byte
    after it is a space, not [年], so it is classified as a cardinal. *)
Lemma year2024_number_type : detectNumberType text 9 4 = Ok CARDINAL.
Proof. vm_compute. reflexivity. Qed.

Lemma year2024_numbers :
  normalizeNumbers text EN = Ok "The year two thousand twenty-four was good.".
Proof. vm_compute. reflexivity. Qed.

(** No unit of the table follows the digits, whatever the order in which
    the units are tried. *)
Lemma year2024_unit entry :
  In entry UNITS -> normalizeUnit text EN entry = Ok text.
Proof.
  assert (H : forallb (fun e =>
                match normalizeUnit text EN e with
                | Ok t => String.eqb t text
                | Throw _ => false
                end) UNITS = true) by (vm_compute; reflexivity).
  rewrite forallb_forall in H. intros Hin. specialize (H entry Hin).
  destruct (normalizeUnit text EN entry) as [t|e]; [|discriminate].
  apply String.eqb_eq in H. now subst.
Qed.

Lemma year2024_units sorted_units :
  incl sorted_units UNITS -> normalizeUnits sorted_units text EN = Ok text.
Proof.
  unfold normalizeUnits. induction sorted_units as [|entry entries IH]; intros Hincl.
  - reflexivity.
  - cbn [normalizeUnits_from].
    rewrite year2024_unit by (apply Hincl; left; reflexivity).
    cbn [mbind result_bind]. apply IH.
    intros e He. apply Hincl. right. exact He.
Qed.

End Year2024.

(** C2, as amended. Normalising ["The year 2024 was good."] with the English
    rule set gives ["The year two thousand twenty-four was good."], in
    whatever order the unit pass tries the units of the table: the number is
    read as a cardinal, so the text contains ["two thousand twenty-four"]. *)
Theorem normalize_bare_year_en_is_cardinal :
  forall sorted_units,
    incl sorted_units TextNormalizer.UNITS ->
    TextNormalizer.normalizeText sorted_units "The year 2024 was good." TextNormalizer.EN
      = Cxx.Ok "The year two thousand twenty-four was good."
    /\ Spec.contains "The year two thousand twenty-four was good."
         "two thousand twenty-four" = true.
Proof.
  intros sorted_units Hincl. split; [|vm_compute; reflexivity].
  unfold TextNormalizer.normalizeText, TextNormalizer.normalize.
  change (String.eqb "The year 2024 was good." "") with false. cbv iota.
  change (TextNormalizer.is_AUTO TextNormalizer.EN) with false. cbv iota.
  rewrite year2024_datetime. cbn [mbind Cxx.result_bind].
  rewrite year2024_currency. cbn [mbind Cxx.result_bind].
  rewrite year2024_phone. cbn [mbind Cxx.result_bind].
  rewrite year2024_percent. cbn [mbind Cxx.result_bind].
  rewrite (year2024_units sorted_units Hincl). cbn [mbind Cxx.result_bind].
  rewrite year2024_formulas. apply year2024_numbers.
Qed.

Lemma normalize_bare_year_en_is_cardinal_witness :
  incl TextNormalizer.table_order_units TextNormalizer.UNITS
  /\ TextNormalizer.normalizeText TextNormalizer.table_order_units
       "The year 2024 was good." TextNormalizer.EN
     = Cxx.Ok "The year two thousand twenty-four was good.".
Proof.
  assert (H : incl TextNormalizer.table_order_units TextNormalizer.UNITS).
  { intros e He. unfold TextNormalizer.table_order_units in He.
    repeat (apply in_app_or in He; destruct He as [He|He]);
      unfold TextNormalizer.by_length in He;
      apply list_elem_of_In in He; apply list_elem_of_filter in He;
      destruct He as [_ He]; apply list_elem_of_In; exact He. }
  split; [exact H|].
  exact (proj1 (normalize_bare_year_en_is_cardinal TextNormalizer.table_order_units H)).
Defined.

(** C2, as stated, fails: the normalised text of ["The year 2024 was good."]
    under the English rule set does not contain ["twenty twenty-four"]. *)
Lemma normalize_bare_year_en_not_year_reading :
  TextNormalizer.normalizeText TextNormalizer.table_order_units
    "The year 2024 was good." TextNormalizer.EN
    = Cxx.Ok "The year two thousand twenty-four was good."
  /\ Spec.contains "The year two thousand twenty-four was good."
       "twenty twenty-four" = false.
Proof. split; vm_compute; reflexivity. Qed.

Example pinyinToIPA_ni3 : KokoroPhonemizer.pinyinToIPA "ni3" = "ni↓".
Proof. vm_compute. reflexivity. Qed.

Example pinyinToIPA_zhi1 : KokoroPhonemizer.pinyinToIPA "zhi1" = "ʈʂɻ→".
Proof. vm_compute. reflexivity. Qed.

Example pinyinToIPA_xue2 : KokoroPhonemizer.pinyinToIPA "xue2" = "ɕɥe↗".
Proof. vm_compute. reflexivity. Qed.

Example ipaToTokenIds_ni3 : KokoroPhonemizer.ipaToTokenIds "ni↓" = [56; 51; 169].
Proof. vm_compute. reflexivity. Qed.

Example convertToGruutEnUs_great :
  PhonemeUtils.convertToGruutEnUs "ɡɹeɪt" = "ɡɹAt".
Proof. vm_compute. reflexivity. Qed.

(* ===================================================================== *)
(** * Kokoro tokenisation: padding and the 512 limit                      *)
(* ===================================================================== *)

(** [static_cast<int>] is exact on what fits and never exceeds a
    non-negative argument. *)
Lemma to_int_small z : - 2 ^ 31 <= z < 2 ^ 31 -> Cxx.to_int z = z.
Proof. intros Hz. unfold Cxx.to_int. rewrite Z.mod_small by lia. lia. Qed.

Lemma to_int_le z : 0 <= z -> Cxx.to_int z <= z.
Proof.
  intros Hz. unfold Cxx.to_int.
  pose proof (Z.mod_le (z + 2 ^ 31) (2 ^ 32) ltac:(lia) ltac:(lia)). lia.
Qed.

Lemma in_int_iff z : Cxx.in_int z = true <-> Cxx.INT_MIN <= z <= Cxx.INT_MAX.
Proof.
  unfold Cxx.in_int. rewrite andb_true_iff, !Z.leb_le. reflexivity.
Qed.

Section KokoroTokens.
Import Cxx KokoroPhonemizer.
Context `{Platform}.

(** The segment loop raises nothing of its own: an exception that leaves it
    was thrown by the normaliser on a digit run. *)
Lemma segments_throw fuel self chars acc e :
  segments fuel self chars acc = Throw e ->
  exists seg, TextNormalizer.normalizeText sorted_units seg TextNormalizer.ZH = Throw e.
Proof.
  revert chars acc. induction fuel as [|fuel IH]; intros chars acc; cbn [segments].
  - discriminate.
  - destruct chars as [|ch tl]; [discriminate|].
    destruct (TextUtils.isChineseChar ch).
    { destruct (span _ _) as [seg rest]. apply IH. }
    destruct (TextUtils.isEnglishLetter ch).
    { destruct (span _ _) as [seg rest]. apply IH. }
    destruct (TextUtils.isDigit ch); [|apply IH].
    destruct (span _ _) as [seg rest].
    destruct (TextNormalizer.normalizeText sorted_units (join seg) TextNormalizer.ZH)
      as [normalized|e'] eqn:Hnorm; cbn [mbind result_bind].
    + apply IH.
    + intros [= ->]. exists (join seg). exact Hnorm.
Qed.

Lemma padded_ends (ids : list Z) :
  head ([PAD_TOKEN_ID] ++ ids ++ [PAD_TOKEN_ID]) = Some PAD_TOKEN_ID
  /\ last ([PAD_TOKEN_ID] ++ ids ++ [PAD_TOKEN_ID]) = Some PAD_TOKEN_ID.
Proof.
  split; [reflexivity|].
  rewrite app_assoc. apply last_snoc.
Qed.

Lemma truncate_length (padded : list Z) :
  (length (truncate padded) <= 512)%nat.
Proof.
  unfold truncate. rewrite length_insert, length_take.
  change (Z.to_nat MAX_TOKEN_LENGTH) with 512%nat. lia.
Qed.

Lemma truncate_ends (ids : list Z) :
  MAX_TOKEN_LENGTH < Z.of_nat (length ([PAD_TOKEN_ID] ++ ids ++ [PAD_TOKEN_ID])) ->
  length (truncate ([PAD_TOKEN_ID] ++ ids ++ [PAD_TOKEN_ID])) = 512%nat
  /\ head (truncate ([PAD_TOKEN_ID] ++ ids ++ [PAD_TOKEN_ID])) = Some PAD_TOKEN_ID
  /\ last (truncate ([PAD_TOKEN_ID] ++ ids ++ [PAD_TOKEN_ID])) = Some PAD_TOKEN_ID.
Proof.
  intros Hlen. unfold MAX_TOKEN_LENGTH in Hlen.
  set (padded := [PAD_TOKEN_ID] ++ ids ++ [PAD_TOKEN_ID]) in *.
  assert (Htake : length (take 512 padded) = 512%nat) by (rewrite length_take; lia).
  unfold truncate. change (Z.to_nat MAX_TOKEN_LENGTH) with 512%nat.
  rewrite Htake. split; [|split].
  - rewrite length_insert. exact Htake.
  - rewrite head_lookup, list_lookup_insert_ne by lia.
    rewrite lookup_take_lt by lia. reflexivity.
  - rewrite last_lookup, length_insert, Htake.
    apply list_lookup_insert_eq. lia.
Qed.

End KokoroTokens.

(** C3. Whatever the text, the phonemizer state and the platform,
    [textToTokenIds] either returns a sequence which, when it is not empty,
    begins and ends with PAD (0), also after truncation, and which has at
    most 512 ids (as long as the count of ids fits the [int] the code
    compares with the limit, that is below 2^31), or it lets through an
    exception thrown by the text normaliser; it raises none of its own. *)
Theorem textToTokenIds_padded_and_bounded :
  forall (P : Platform) (self : KokoroPhonemizer.state) (text : string),
    match KokoroPhonemizer.textToTokenIds self text with
    | Cxx.Ok ids =>
        (ids <> [] -> head ids = Some 0 /\ last ids = Some 0)
        /\ (Z.of_nat (length ids) < 2 ^ 31 -> (length ids <= 512)%nat)
    | Cxx.Throw e =>
        exists t, TextNormalizer.normalizeText sorted_units t TextNormalizer.ZH = Cxx.Throw e
    end.
Proof.
  intros P self text. unfold KokoroPhonemizer.textToTokenIds.
  destruct (String.eqb text ""); [cbn; split; [congruence|lia]|].
  destruct (negb _); [cbn; split; [congruence|lia]|].
  destruct (TextNormalizer.normalizeText sorted_units text TextNormalizer.ZH)
    as [normalized|e] eqn:Hnorm; cbn [mbind Cxx.result_bind]; [|eauto].
  destruct (KokoroPhonemizer.segments _ self _ "") as [ipa|e] eqn:Hseg;
    cbn [mbind Cxx.result_bind]; [|eapply segments_throw; eassumption].
  destruct (String.eqb ipa ""); [cbn; split; [congruence|lia]|].
  set (ids := KokoroPhonemizer.ipaToTokenIds ipa).
  set (padded := [KokoroPhonemizer.PAD_TOKEN_ID] ++ ids ++ [KokoroPhonemizer.PAD_TOKEN_ID]).
  pose proof (to_int_le (Z.of_nat (length padded)) ltac:(lia)) as Hle.
  destruct (Z.ltb_spec KokoroPhonemizer.MAX_TOKEN_LENGTH
              (Cxx.to_int (Z.of_nat (length padded)))) as [Hlong|Hshort].
  - assert (Hlen : KokoroPhonemizer.MAX_TOKEN_LENGTH < Z.of_nat (length padded)) by lia.
    destruct (truncate_ends ids Hlen) as (Hlen' & Hhead & Hlast).
    fold padded in Hlen', Hhead, Hlast.
    split; [intros _; split; assumption|]. rewrite Hlen'. lia.
  - unfold KokoroPhonemizer.MAX_TOKEN_LENGTH in Hshort.
    split; [intros _; apply padded_ends|].
    intros Hfit. rewrite (to_int_small (Z.of_nat (length padded))) in Hshort by lia. lia.
Qed.

(** On 600 exclamation marks, which give 602 ids before the cut. *)
Lemma textToTokenIds_padded_and_bounded_witness :
  exists ids,
    @KokoroPhonemizer.textToTokenIds demo_platform (KokoroBackend.phonemizer_ kokoro_state)
      (string_of_list_ascii (replicate 600 "!"%char)) = Cxx.Ok ids
    /\ ids <> []
    /\ Z.of_nat (length ids) < 2 ^ 31
    /\ head ids = Some 0 /\ last ids = Some 0 /\ (length ids <= 512)%nat.
Proof.
  pose proof (textToTokenIds_padded_and_bounded demo_platform
                (KokoroBackend.phonemizer_ kokoro_state)
                (string_of_list_ascii (replicate 600 "!"%char))) as H.
  assert (E : @KokoroPhonemizer.textToTokenIds demo_platform
                (KokoroBackend.phonemizer_ kokoro_state)
                (string_of_list_ascii (replicate 600 "!"%char))
              = Cxx.Ok ([0] ++ replicate 510 5 ++ [0])) by (vm_compute; reflexivity).
  rewrite E in H. destruct H as [Hends Hbound].
  assert (Hne : [0] ++ replicate 510 5 ++ [0] <> []) by discriminate.
  assert (Hfit : Z.of_nat (length ([0] ++ replicate 510 5 ++ [0])) < 2 ^ 31)
    by (vm_compute; reflexivity).
  exists ([0] ++ replicate 510 5 ++ [0]).
  split; [exact E|]. split; [exact Hne|]. split; [exact Hfit|].
  split; [exact (proj1 (Hends Hne))|]. split; [exact (proj2 (Hends Hne))|].
  exact (Hbound Hfit).
Defined.

(* ===================================================================== *)
(** * ISTFT: the length of the reconstructed signal                       *)
(* ===================================================================== *)

Section Istft.
Import Cxx Vocoder.
Context `{Numerics}.

Lemma i32_Ok z z' : i32 z = Ok z' -> z' = z /\ INT_MIN <= z <= INT_MAX.
Proof.
  unfold i32, in_int.
  destruct (Z.leb_spec INT_MIN z); destruct (Z.leb_spec z INT_MAX); cbn;
    try discriminate.
  intros [= <-]. lia.
Qed.

Lemma i32_in z : INT_MIN <= z <= INT_MAX -> i32 z = Ok z.
Proof.
  intros Hz. unfold i32, in_int.
  destruct (Z.leb_spec INT_MIN z); [|lia]. destruct (Z.leb_spec z INT_MAX); [|lia].
  reflexivity.
Qed.

Lemma vector_fill_Ok n x v :
  vector_fill n x = Ok v -> 0 <= n /\ Z.of_nat (length v) = n.
Proof.
  unfold vector_fill. destruct (Z.ltb_spec n 0); [discriminate|].
  intros [= <-]. rewrite length_replicate. lia.
Qed.

Lemma vector_fill_nonneg n x :
  0 <= n -> exists v, vector_fill n x = Ok v /\ Z.of_nat (length v) = n.
Proof.
  intros Hn. unfold vector_fill. destruct (Z.ltb_spec n 0); [lia|].
  eexists. split; [reflexivity|]. rewrite length_replicate. lia.
Qed.

Lemma get_in v i : 0 <= i < Z.of_nat (length v) -> exists x, get v i = Ok x.
Proof.
  intros Hi. unfold get. destruct (Z.ltb_spec i 0); [lia|].
  destruct (lookup_lt_is_Some_2 v (Z.to_nat i)) as [x Hx]; [lia|].
  rewrite Hx. eauto.
Qed.

(** An invariant of the body is an invariant of the loop. *)
Lemma for_from_inv {S : Type} (P : S -> Prop) (body : Z -> S -> result S) count :
  (forall j t t', P t -> body j t = Ok t' -> P t') ->
  forall i s s', P s -> for_from count i body s = Ok s' -> P s'.
Proof.
  intros Hbody. induction count as [|count IH]; intros i s s' Hs Hrun; cbn in Hrun.
  - injection Hrun as <-. exact Hs.
  - inv_bind Hrun. eapply IH; [|exact Hrun]. eapply Hbody; eassumption.
Qed.

(** A body that runs without exception, on the indices of the loop and
    under the invariant, makes a loop that runs without exception. *)
Lemma for_from_total {S : Type} (P : S -> Prop) (body : Z -> S -> result S) count :
  forall i s,
    P s ->
    (forall j t, i <= j < i + Z.of_nat count -> P t -> exists t', body j t = Ok t' /\ P t') ->
    exists s', for_from count i body s = Ok s' /\ P s'.
Proof.
  induction count as [|count IH]; intros i s Hs Hbody; cbn.
  - eauto.
  - destruct (Hbody i s ltac:(lia) Hs) as (t' & -> & Ht'). cbn.
    apply IH; [exact Ht'|]. intros j t Hj. apply Hbody. lia.
Qed.

Lemma for_range_inv {S : Type} (P : S -> Prop) (body : Z -> S -> result S) n s s' :
  (forall j t t', P t -> body j t = Ok t' -> P t') ->
  P s -> for_range n body s = Ok s' -> P s'.
Proof. intros Hbody. apply for_from_inv. exact Hbody. Qed.

Lemma for_range_total {S : Type} (P : S -> Prop) (body : Z -> S -> result S) n s :
  P s ->
  (forall j t, 0 <= j < n -> P t -> exists t', body j t = Ok t' /\ P t') ->
  exists s', for_range n body s = Ok s' /\ P s'.
Proof.
  intros Hs Hbody. apply for_from_total; [exact Hs|].
  intros j t Hj. apply Hbody. lia.
Qed.

(** A frame leaves the two accumulators as long as they were. *)
Lemma istft_frame_lengths real imag window bins n hop win len frame la ld st st' :
  same_lengths la ld st ->
  istft_frame real imag window bins n hop win len frame st = Ok st' ->
  same_lengths la ld st'.
Proof.
  intros Hst Hrun. unfold istft_frame in Hrun.
  inv_bind Hrun.
  destruct (n <? 0); [discriminate|]. destruct (n =? 0); [discriminate|].
  inv_bind Hrun. destruct (bins <? Z.quot n 2 + 1); [discriminate|].
  inv_bind Hrun. inv_bind Hrun.
  eapply (for_range_inv (same_lengths la ld)); [|exact Hst|exact Hrun].
  intros j [au de] t' [Hau Hde] Hbody. cbn in Hau, Hde.
  inv_bind Hbody. destruct (_ <? len).
  - do 4 inv_bind Hbody. injection Hbody as <-.
    split; cbn; rewrite length_insert; assumption.
  - injection Hbody as <-. split; assumption.
Qed.

Lemma istft_length_of_result real imag frames bins config audio :
  istft real imag frames bins config = Ok audio ->
  Z.of_nat (length audio) = n_fft config + (frames - 1) * hop_length config.
Proof.
  intros Hrun. unfold istft in Hrun.
  inv_bind Hrun. apply i32_Ok in Ha as [-> _].
  inv_bind Hrun. apply i32_Ok in Ha as [-> _].
  inv_bind Hrun. apply i32_Ok in Ha as [-> _].
  inv_bind Hrun. apply vector_fill_Ok in Ha as [_ Hlen].
  inv_bind Hrun. apply vector_fill_Ok in Ha0 as [_ Hlen0].
  inv_bind Hrun. inv_bind Hrun. destruct a2 as [audio' denominator'].
  assert (Hacc : same_lengths (length a) (length a0) (audio', denominator')).
  { refine (for_range_inv (same_lengths (length a) (length a0)) _ _ (a, a0) _ _ _ Ha2);
      [|split; reflexivity].
    intros j t t' Ht. apply istft_frame_lengths. exact Ht. }
  destruct Hacc as [Haudio _]. cbn in Haudio.
  assert (Hfinal : length audio = length audio').
  { refine (for_range_inv (fun v => length v = length audio') _ _ audio' _ _ _ Hrun);
      [|reflexivity].
    intros j t t' Ht Hbody. do 2 inv_bind Hbody.
    destruct (F32.ltb _ _); injection Hbody as <-; [rewrite length_insert|]; exact Ht. }
  rewrite Hfinal, Haudio. exact Hlen.
Qed.

(** Sequencing two computations that run without exception. *)
Lemma bind_total {A B} (P : A -> Prop) (Q : B -> Prop) (c : result A) (k : A -> result B) :
  (exists a, c = Ok a /\ P a) ->
  (forall a, P a -> exists b, k a = Ok b /\ Q b) ->
  exists b, (x ← c; k x) = Ok b /\ Q b.
Proof. intros (a & -> & Ha) Hk. cbn. apply Hk. exact Ha. Qed.

Lemma createHannWindow_total len :
  0 <= len ->
  exists window, createHannWindow len = Ok window /\ Z.of_nat (length window) = len.
Proof.
  intros Hlen. unfold createHannWindow.
  apply (bind_total (fun v => Z.of_nat (length v) = len)).
  - apply vector_fill_nonneg. exact Hlen.
  - intros v Hv.
    apply (for_range_total (fun w => Z.of_nat (length w) = len)); [exact Hv|].
    intros j t _ Ht. eexists. split; [reflexivity|]. rewrite length_insert. exact Ht.
Qed.

Lemma istft_frame_total real imag window frames bins config len frame st :
  istft_ready real imag frames bins config ->
  len = n_fft config + (frames - 1) * hop_length config ->
  Z.of_nat (length window) = win_length config ->
  0 <= frame < frames ->
  same_lengths (Z.to_nat len) (Z.to_nat len) st ->
  exists st',
    istft_frame real imag window bins (n_fft config) (hop_length config)
                (win_length config) len frame st = Ok st'
    /\ same_lengths (Z.to_nat len) (Z.to_nat len) st'.
Proof.
  intros [Hframes Hn Hhop Hwin Hbins Hlen Hsize Hreal Himag] -> Hwindow Hframe Hst.
  set (n := n_fft config) in *. set (hop := hop_length config) in *.
  set (win := win_length config) in *.
  assert (Hq : 0 <= Z.quot n 2) by (apply Z.quot_pos; lia).
  unfold INT_MAX in *. unfold istft_frame.
  rewrite (i32_in (frame * bins)) by (unfold INT_MIN, INT_MAX; nia).
  cbn [mbind result_bind].
  destruct (Z.ltb_spec n 0); [lia|]. destruct (Z.eqb_spec n 0); [lia|].
  rewrite !Z.min_r by lia.
  apply (bind_total (fun _ => True)).
  { apply (for_range_total (fun _ => True)); [exact I|].
    intros j t Hj _.
    destruct (get_in real (frame * bins + j)) as [re ->]; [nia|].
    destruct (get_in imag (frame * bins + j)) as [im ->]; [nia|].
    cbn. eauto. }
  intros in_ _.
  destruct (Z.ltb_spec bins (Z.quot n 2 + 1)); [lia|].
  apply (bind_total (fun out => Z.of_nat (length out) = n)).
  { apply (for_range_total (fun out => Z.of_nat (length out) = n)).
    - rewrite length_map, length_seqZ. lia.
    - intros j t Hj Ht.
      destruct (get_in t j) as [o ->]; [lia|].
      destruct (get_in window j) as [w ->]; [lia|].
      cbn. eexists. split; [reflexivity|]. rewrite length_insert. exact Ht. }
  intros out Hout.
  rewrite (i32_in (frame * hop)) by (unfold INT_MIN, INT_MAX; nia).
  cbn [mbind result_bind].
  apply (for_range_total (same_lengths (Z.to_nat (n + (frames - 1) * hop))
                                       (Z.to_nat (n + (frames - 1) * hop)))); [exact Hst|].
  intros j [au de] Hj [Hau Hde]. cbn in Hau, Hde.
  rewrite (i32_in (frame * hop + j)) by (unfold INT_MIN, INT_MAX; nia).
  cbn [mbind result_bind].
  destruct (Z.ltb_spec (frame * hop + j) (n + (frames - 1) * hop)).
  - destruct (get_in au (frame * hop + j)) as [a ->]; [nia|].
    destruct (get_in out j) as [o ->]; [lia|].
    destruct (get_in de (frame * hop + j)) as [d ->]; [nia|].
    destruct (get_in window j) as [w ->]; [lia|].
    cbn. eexists. split; [reflexivity|].
    split; cbn; rewrite length_insert; assumption.
  - eexists. split; [reflexivity|]. split; assumption.
Qed.

Lemma istft_total real imag frames bins config :
  istft_ready real imag frames bins config ->
  exists audio, istft real imag frames bins config = Ok audio.
Proof.
  intros Hready. pose proof Hready as [Hframes Hn Hhop Hwin Hbins Hlen Hsize Hreal Himag].
  assert (Hq : 0 <= Z.quot (n_fft config) 2) by (apply Z.quot_pos; lia).
  unfold INT_MAX in *. unfold istft.
  rewrite (i32_in (frames - 1)) by (unfold INT_MIN, INT_MAX; nia).
  cbn [mbind result_bind].
  rewrite (i32_in ((frames - 1) * hop_length config)) by (unfold INT_MIN, INT_MAX; nia).
  cbn [mbind result_bind].
  rewrite (i32_in (n_fft config + (frames - 1) * hop_length config))
    by (unfold INT_MIN, INT_MAX; nia).
  cbn [mbind result_bind].
  set (len := n_fft config + (frames - 1) * hop_length config) in *.
  assert (Hlen0 : 0 <= len) by (unfold len; nia).
  cut (exists audio,
         (audio ← vector_fill len F32.zero;
          denominator ← vector_fill len F32.zero;
          window ← createHannWindow (win_length config);
          '(audio, denominator) ←
            for_range frames
              (istft_frame real imag window bins (n_fft config) (hop_length config)
                           (win_length config) len) (audio, denominator);
          for_range len (fun i audio =>
            a ← get audio i; d ← get denominator i;
            if F32.ltb epsilon d then Ok (<[Z.to_nat i := F32.div a d]> audio)
            else Ok audio) audio) = Ok audio /\ length audio = Z.to_nat len).
  { intros (audio & Hrun & _). exists audio. exact Hrun. }
  apply (bind_total (fun v => Z.of_nat (length v) = len));
    [apply vector_fill_nonneg; exact Hlen0|]. intros audio Haudio.
  apply (bind_total (fun v => Z.of_nat (length v) = len));
    [apply vector_fill_nonneg; exact Hlen0|]. intros denominator Hdenominator.
  apply (bind_total (fun w => Z.of_nat (length w) = win_length config));
    [apply createHannWindow_total; lia|]. intros window Hwindow.
  apply (bind_total (same_lengths (Z.to_nat len) (Z.to_nat len))).
  { apply (for_range_total (same_lengths (Z.to_nat len) (Z.to_nat len))).
    - split; cbn; lia.
    - intros j t Hj Ht. eapply istft_frame_total; eauto. }
  intros [audio' denominator'] [Haudio' Hdenominator']. cbn in Haudio', Hdenominator'.
  apply (for_range_total (fun a => length a = Z.to_nat len)); [exact Haudio'|].
  intros j t Hj Ht.
  destruct (get_in t j) as [a ->]; [lia|].
  destruct (get_in denominator' j) as [d ->]; [lia|].
  cbn. destruct (F32.ltb _ _); eexists; (split; [reflexivity|]);
    [rewrite length_insert|]; exact Ht.
Qed.

End Istft.

(** C8. Whatever the frames, the bin count and the configuration, a buffer
    that [istft] returns has exactly [n_fft + (T - 1) * hop] samples; and it
    does return one on every input on which its steps are defined
    ([istft_ready]: a hop that is not negative, a transform size between 1
    and the window length, complete frames, sizes within [int32_t]). *)
Theorem istft_length :
  forall (N : Vocoder.Numerics) (stft_real stft_imag : list F32.float)
         (num_frames n_fft_bins : Z) (config : Vocoder.ISTFTConfig),
    1 <= num_frames ->
    (forall audio,
        Vocoder.istft stft_real stft_imag num_frames n_fft_bins config = Cxx.Ok audio ->
        Z.of_nat (length audio)
        = Vocoder.n_fft config + (num_frames - 1) * Vocoder.hop_length config)
    /\ (istft_ready stft_real stft_imag num_frames n_fft_bins config ->
        exists audio,
          Vocoder.istft stft_real stft_imag num_frames n_fft_bins config = Cxx.Ok audio
          /\ Z.of_nat (length audio)
             = Vocoder.n_fft config + (num_frames - 1) * Vocoder.hop_length config).
Proof.
  intros N real imag frames bins config _. split.
  - intros audio. apply istft_length_of_result.
  - intros Hready. destruct (istft_total real imag frames bins config Hready) as [audio Hrun].
    exists audio. split; [exact Hrun|]. eapply istft_length_of_result. exact Hrun.
Qed.

Lemma istft_length_witness :
  1 <= 2
  /\ exists audio,
       @Vocoder.istft unit_numerics (replicate 6 (F32.of_Z 1)) (replicate 6 F32.zero) 2 3
         {| Vocoder.n_fft := 4; Vocoder.hop_length := 2; Vocoder.win_length := 4 |}
       = Cxx.Ok audio
       /\ Z.of_nat (length audio) = 4 + (2 - 1) * 2.
Proof.
  assert (H : 1 <= 2) by lia.
  split; [exact H|].
  apply (proj2 (istft_length unit_numerics (replicate 6 (F32.of_Z 1)) (replicate 6 F32.zero)
                  2 3 {| Vocoder.n_fft := 4; Vocoder.hop_length := 2; Vocoder.win_length := 4 |}
                  H)).
  constructor; vm_compute; discriminate.
Defined.

(* ===================================================================== *)
(** * Roman numerals                                                      *)
(* ===================================================================== *)

(** C9. [romanToInt] reads IV as 4, IX as 9 and MCMLXXXIV as 1984, and
    [isRomanNumeral] rejects every string shorter than two characters, so a
    lone I is no Roman numeral. *)
Theorem roman_numerals :
  NumberUtils.romanToInt "IV" = 4
  /\ NumberUtils.romanToInt "IX" = 9
  /\ NumberUtils.romanToInt "MCMLXXXIV" = 1984
  /\ forall str, (String.length str < 2)%nat -> NumberUtils.isRomanNumeral str = false.
Proof.
  repeat split; try reflexivity.
  intros str Hlen. unfold NumberUtils.isRomanNumeral.
  destruct (Nat.ltb_spec (String.length str) 2); [reflexivity|lia].
Qed.

Lemma roman_numerals_witness :
  (String.length "I" < 2)%nat /\ NumberUtils.isRomanNumeral "I" = false.
Proof.
  assert (H : (String.length "I" < 2)%nat) by (cbn; lia).
  split; [exact H|].
  exact (proj2 (proj2 (proj2 roman_numerals)) "I" H).
Defined.

(* ===================================================================== *)
(** * Blank tokens                                                        *)
(* ===================================================================== *)

Section BlankTokens.
Import Cxx MatchaBackend.

(** The loop writes at its index and above: what lies below stays. *)
Lemma addBlankTokens_from_keeps tokens :
  forall (j : nat) (result r : list Z) (i : nat),
    (i < 2 * j + 1)%nat ->
    addBlankTokens_from tokens (Z.of_nat (2 * j + 1)) result = Ok r ->
    r !! i = result !! i.
Proof.
  induction tokens as [|token tokens IH]; intros j result r i Hi Hrun.
  - cbn in Hrun. injection Hrun as <-. reflexivity.
  - cbn [addBlankTokens_from] in Hrun.
    destruct (negb _); [discriminate|].
    replace (Z.of_nat (2 * j + 1) + 2) with (Z.of_nat (2 * S j + 1)) in Hrun by lia.
    rewrite Nat2Z.id in Hrun.
    assert (Hi' : (i < 2 * S j + 1)%nat) by lia.
    rewrite (IH (S j) _ r i Hi' Hrun).
    apply list_lookup_insert_ne. lia.
Qed.

(** The loop, started after [j] tokens with the index at [2 * j + 1]. *)
Lemma addBlankTokens_from_spec tokens :
  forall (j : nat) (result : list Z),
    length result = (2 * (j + length tokens) + 1)%nat ->
    Z.of_nat (2 * (j + length tokens) + 1) <= INT_MAX ->
    exists r,
      addBlankTokens_from tokens (Z.of_nat (2 * j + 1)) result = Ok r
      /\ length r = length result
      /\ (forall k, r !! (2 * k)%nat = result !! (2 * k)%nat)
      /\ (forall k t, tokens !! k = Some t -> r !! (2 * (j + k) + 1)%nat = Some t).
Proof.
  induction tokens as [|token tokens IH]; intros j result Hlen Hmax.
  - exists result. cbn. repeat split; try reflexivity. intros k t Hk.
    rewrite lookup_nil in Hk. discriminate.
  - cbn [addBlankTokens_from]. cbn [length] in Hlen, Hmax.
    assert (Hin : in_int (Z.of_nat (2 * j + 1) + 2) = true).
    { apply in_int_iff. unfold INT_MIN. unfold INT_MAX in Hmax |- *. lia. }
    rewrite Hin. cbn [negb].
    replace (Z.of_nat (2 * j + 1) + 2) with (Z.of_nat (2 * S j + 1)) by lia.
    rewrite Nat2Z.id.
    destruct (IH (S j) (<[(2 * j + 1)%nat := token]> result)) as (r & Hr & Hlen' & Heven & Hodd).
    { rewrite length_insert. lia. }
    { lia. }
    exists r. split; [exact Hr|]. rewrite length_insert in Hlen'.
    split; [exact Hlen'|]. split.
    + intros k. rewrite Heven. apply list_lookup_insert_ne. lia.
    + intros [|k] t Hk.
      * cbn in Hk. injection Hk as ->.
        replace (2 * (j + 0) + 1)%nat with (2 * j + 1)%nat by lia.
        assert (Hbelow : (2 * j + 1 < 2 * S j + 1)%nat) by lia.
        rewrite (addBlankTokens_from_keeps tokens (S j) _ r (2 * j + 1)%nat Hbelow Hr).
        apply list_lookup_insert_eq. lia.
      * cbn in Hk. replace (2 * (j + S k) + 1)%nat with (2 * (S j + k) + 1)%nat by lia.
        apply Hodd. exact Hk.
Qed.

End BlankTokens.

(** C4. For every token list [ts] short enough for the [int32_t] index of
    the loop (fewer than 2^30 tokens), [addBlankTokens ts] has
    [2 * len(ts) + 1] elements, [pad_id] at every even index and [ts[k]] at
    index [2 * k + 1]. *)
Theorem addBlankTokens_interleaves :
  forall (self : MatchaBackend.state) (ts : list Z),
    Z.of_nat (length ts) < 2 ^ 30 ->
    exists r,
      MatchaBackend.addBlankTokens self ts = Cxx.Ok r
      /\ length r = (2 * length ts + 1)%nat
      /\ (forall k, (k <= length ts)%nat -> r !! (2 * k)%nat = Some (MatchaBackend.pad_id_ self))
      /\ (forall k t, ts !! k = Some t -> r !! (2 * k + 1)%nat = Some t).
Proof.
  intros self ts Hlen. unfold MatchaBackend.addBlankTokens.
  destruct (addBlankTokens_from_spec ts 0
              (replicate (length ts * 2 + 1) (MatchaBackend.pad_id_ self)))
    as (r & Hr & Hlen' & Heven & Hodd).
  { rewrite length_replicate. lia. }
  { unfold Cxx.INT_MAX. lia. }
  exists r. split; [exact Hr|]. rewrite length_replicate in Hlen'.
  split; [lia|]. split.
  - intros k Hk. rewrite Heven. apply lookup_replicate_2. lia.
  - intros k t Hk. apply (Hodd k t Hk).
Qed.

Lemma addBlankTokens_interleaves_witness :
  Z.of_nat (length [7; 8; 9]) < 2 ^ 30
  /\ exists r,
       MatchaBackend.addBlankTokens matcha_zh_state [7; 8; 9] = Cxx.Ok r
       /\ length r = (2 * length [7; 8; 9] + 1)%nat
       /\ (forall k, (k <= length [7; 8; 9])%nat -> r !! (2 * k)%nat = Some 0)
       /\ (forall k t, [7; 8; 9] !! k = Some t -> r !! (2 * k + 1)%nat = Some t).
Proof.
  assert (H : Z.of_nat (length [7; 8; 9]) < 2 ^ 30) by (cbn; lia).
  split; [exact H|].
  exact (addBlankTokens_interleaves matcha_zh_state [7; 8; 9] H).
Defined.

Example addBlankTokens_789 :
  MatchaBackend.addBlankTokens matcha_zh_state [7; 8; 9] = Cxx.Ok [0; 7; 0; 8; 0; 9; 0].
Proof. reflexivity. Qed.

(* ===================================================================== *)
(** * The real-time factor                                                *)
(* ===================================================================== *)

(** A duration that [getDurationMs] reports as positive belongs to a chunk
    with samples. *)
Lemma getDurationMs_positive chunk :
  0 < Types.getDurationMs chunk -> Types.samples chunk <> [].
Proof.
  unfold Types.getDurationMs. intros Hpos Hempty.
  rewrite bool_decide_eq_true_2 in Hpos by exact Hempty. cbn in Hpos. lia.
Qed.

(** C6, as amended. [calculateRTF] looks at [audio_duration_ms], not at the
    chunk: when it is positive, [rtf] becomes the [float] quotient of
    [processing_time_ms] by [audio_duration_ms]; otherwise the result is left
    exactly as it was, so [rtf] keeps its value (0 on a fresh result). No
    other member changes. *)
Theorem calculateRTF_by_duration :
  forall r : Types.SynthesisResult,
    (0 < Types.audio_duration_ms r ->
     Types.rtf (Types.calculateRTF r)
     = F32.div (F32.of_Z (Types.processing_time_ms r)) (F32.of_Z (Types.audio_duration_ms r)))
    /\ (Types.audio_duration_ms r <= 0 -> Types.calculateRTF r = r)
    /\ Types.audio (Types.calculateRTF r) = Types.audio r
    /\ Types.audio_duration_ms (Types.calculateRTF r) = Types.audio_duration_ms r
    /\ Types.processing_time_ms (Types.calculateRTF r) = Types.processing_time_ms r.
Proof.
  intros r. unfold Types.calculateRTF.
  destruct (Z.ltb_spec 0 (Types.audio_duration_ms r));
    repeat split; intros; try reflexivity; lia.
Qed.

Lemma calculateRTF_by_duration_witness :
  0 < Types.audio_duration_ms one_second_result
  /\ Types.rtf (Types.calculateRTF one_second_result) = F32.of_bits 0x3F000000.
Proof.
  assert (H : 0 < Types.audio_duration_ms one_second_result) by (cbn; lia).
  split; [exact H|].
  rewrite (proj1 (calculateRTF_by_duration one_second_result) H).
  vm_compute. reflexivity.
Defined.

(** C6, as stated, fails in both directions: on a non-empty chunk of less
    than a millisecond [rtf] stays 0 and is not the quotient (5 / 0, which
    is +infinity), and on an empty chunk [rtf] keeps a value that is not 0. *)
Lemma calculateRTF_ignores_the_chunk :
  (Types.samples (Types.audio short_result) <> []
   /\ Types.rtf (Types.calculateRTF short_result) = F32.zero
   /\ F32.div (F32.of_Z (Types.processing_time_ms short_result))
              (F32.of_Z (Types.audio_duration_ms short_result)) = S754_infinity false)
  /\ (Types.samples (Types.audio stale_result) = []
      /\ Types.rtf (Types.calculateRTF stale_result) <> F32.zero).
Proof.
  split; [split; [discriminate|split; vm_compute; reflexivity]|].
  split; [reflexivity|discriminate].
Qed.

(* ===================================================================== *)
(** * The style vector                                                    *)
(* ===================================================================== *)

Section StyleVector.
Import Cxx KokoroVoiceManager.

Lemma floats_of_bytes_length (n : nat) :
  forall bytes, length bytes = (4 * n)%nat -> length (floats_of_bytes bytes) = n.
Proof.
  induction n as [|n IH]; intros bytes Hlen.
  - destruct bytes; [reflexivity|discriminate].
  - destruct bytes as [|b0 [|b1 [|b2 [|b3 rest]]]]; try (cbn in Hlen; lia).
    cbn [floats_of_bytes length]. f_equal. apply IH. cbn in Hlen. lia.
Qed.

Lemma loadVoice_rows self file b self' :
  rows_loaded self -> fits_int file ->
  loadVoice self file = Ok (b, self') -> rows_loaded self'.
Proof.
  intros Hself Hfit. unfold loadVoice. destruct file as [|bytes good].
  - intros [= _ <-]. exact Hself.
  - cbn in Hfit. set (size := Z.of_nat (length bytes)) in *.
    destruct (Z.eqb_spec (size / 4) 0); cbn [orb].
    { intros [= _ <-]. exact Hself. }
    destruct (Z.eqb_spec (size / 4 mod STYLE_DIM) 0); cbn [negb].
    2: { intros [= _ <-]. exact Hself. }
    destruct (Z.eqb_spec (size mod 4) 0); cbn [negb]; [|discriminate].
    destruct good; cbn [negb]; intros [= _ <-].
    + right. cbn [style_data_ num_rows_]. unfold STYLE_DIM in *.
      pose proof (Z_div_exact_full_2 size 4 ltac:(lia) ltac:(assumption)) as Hfloats.
      pose proof (Z_div_exact_full_2 (size / 4) 256 ltac:(lia) ltac:(assumption)) as Hrows.
      assert (Hsize : 0 <= size) by (unfold size; lia).
      set (rows := size / 4 / 256) in *.
      assert (Hpos : 1 <= rows) by lia.
      rewrite to_int_small by (unfold INT_MAX in Hfit; lia).
      split; [unfold INT_MAX in *; lia|].
      rewrite (floats_of_bytes_length (Z.to_nat (256 * rows))); lia.
    + left. reflexivity.
Qed.

Lemma loads_rows files :
  forall self self',
    rows_loaded self -> Forall fits_int files ->
    loads self files = Ok self' -> rows_loaded self'.
Proof.
  induction files as [|file files IH]; intros self self' Hself Hfit; cbn [loads].
  - intros [= <-]. exact Hself.
  - intros Hrun. inv_bind Hrun. destruct a as [b self1].
    apply Forall_cons in Hfit as [Hfile Hfiles].
    eapply IH; [|exact Hfiles|exact Hrun].
    eapply loadVoice_rows; eassumption.
Qed.

Lemma getStyleVector_rows self token_len :
  rows_loaded self ->
  exists v,
    getStyleVector self token_len = Ok v
    /\ length v = 256%nat
    /\ (style_data_ self = [] -> v = replicate 256 F32.zero)
    /\ (style_data_ self <> [] ->
        1 <= num_rows_ self
        /\ Z.of_nat (length (style_data_ self)) = 256 * num_rows_ self
        /\ v = take 256 (drop (Z.to_nat (256 * Z.min (Z.max token_len 0) (num_rows_ self - 1)))
                             (style_data_ self))).
Proof.
  intros Hrows. unfold getStyleVector.
  destruct (decide (style_data_ self = [])) as [Hempty|Hdata].
  - rewrite bool_decide_eq_true_2 by exact Hempty.
    eexists. split; [reflexivity|]. split; [apply length_replicate|].
    split; [reflexivity|contradiction].
  - rewrite bool_decide_eq_false_2 by exact Hdata.
    destruct Hrows as [Hempty|[Hn Hlen]]; [contradiction|].
    unfold STYLE_DIM in *.
    assert (Hin : in_int (num_rows_ self - 1) = true).
    { apply in_int_iff. unfold INT_MIN, INT_MAX in *. lia. }
    rewrite Hin. cbn [negb].
    assert (Hrow : Z.max (Z.min token_len (num_rows_ self - 1)) 0
                   = Z.min (Z.max token_len 0) (num_rows_ self - 1)) by lia.
    rewrite Hrow.
    set (row := Z.min (Z.max token_len 0) (num_rows_ self - 1)).
    assert (Hrange : 0 <= row <= num_rows_ self - 1) by lia.
    destruct (Z.leb_spec (row * 256 + 256) (Z.of_nat (length (style_data_ self)))); [|lia].
    eexists. split; [reflexivity|]. split.
    { rewrite length_take, length_drop. change (Z.to_nat 256) with 256%nat. lia. }
    split; [contradiction|]. intros _.
    split; [lia|]. split; [exact Hlen|].
    change (Z.to_nat 256) with 256%nat. replace (256 * row) with (row * 256) by lia.
    reflexivity.
Qed.

End StyleVector.

(** C10. On a manager that has gone through any sequence of [loadVoice]
    calls (on files below 2 TiB, whose row count fits [int]) and for every
    integer [token_len], [getStyleVector] returns a vector of exactly 256
    floats without reading outside the data: the zero vector when no data is
    loaded, and otherwise row [min (max token_len 0) (N - 1)] of the [N]
    loaded rows of 256. *)
Theorem getStyleVector_total_in_bounds :
  forall (files : list KokoroVoiceManager.voice_file) (self : KokoroVoiceManager.state)
         (token_len : Z),
    Forall fits_int files ->
    KokoroVoiceManager.loads KokoroVoiceManager.init files = Cxx.Ok self ->
    exists v,
      KokoroVoiceManager.getStyleVector self token_len = Cxx.Ok v
      /\ length v = 256%nat
      /\ (KokoroVoiceManager.style_data_ self = [] -> v = replicate 256 F32.zero)
      /\ (KokoroVoiceManager.style_data_ self <> [] ->
          exists N,
            1 <= N
            /\ Z.of_nat (length (KokoroVoiceManager.style_data_ self)) = 256 * N
            /\ v = take 256 (drop (Z.to_nat (256 * Z.min (Z.max token_len 0) (N - 1)))
                                  (KokoroVoiceManager.style_data_ self))).
Proof.
  intros files self token_len Hfit Hloads.
  assert (Hrows : rows_loaded self).
  { apply (loads_rows files KokoroVoiceManager.init self); [left; reflexivity|exact Hfit|exact Hloads]. }
  destruct (getStyleVector_rows self token_len Hrows) as (v & Hv & Hlen & Hzero & Hrow).
  exists v. repeat split; try assumption.
  intros Hdata. destruct (Hrow Hdata) as (HN & Hsize & Htake).
  exists (KokoroVoiceManager.num_rows_ self). repeat split; assumption.
Qed.

Lemma getStyleVector_total_in_bounds_witness :
  Forall fits_int [two_row_voice]
  /\ KokoroVoiceManager.loads KokoroVoiceManager.init [two_row_voice] = Cxx.Ok two_row_manager
  /\ exists v,
       KokoroVoiceManager.getStyleVector two_row_manager 512 = Cxx.Ok v
       /\ length v = 256%nat.
Proof.
  assert (Hfit : Forall fits_int [two_row_voice]).
  { constructor; [vm_compute; discriminate|constructor]. }
  assert (Hload : KokoroVoiceManager.loads KokoroVoiceManager.init [two_row_voice]
                  = Cxx.Ok two_row_manager) by (vm_compute; reflexivity).
  split; [exact Hfit|]. split; [exact Hload|].
  destruct (getStyleVector_total_in_bounds [two_row_voice] two_row_manager 512 Hfit Hload)
    as (v & Hv & Hlen & _).
  exists v. split; assumption.
Defined.

Example getStyleVector_clamps :
  KokoroVoiceManager.getStyleVector two_row_manager (-5)
    = Cxx.Ok (replicate 256 (F32.of_bits 0x3F800000))
  /\ KokoroVoiceManager.getStyleVector two_row_manager 512
     = Cxx.Ok (replicate 256 (F32.of_bits 0x40000000))
  /\ KokoroVoiceManager.getStyleVector KokoroVoiceManager.init 3
     = Cxx.Ok (replicate 256 F32.zero).
Proof. repeat split; vm_compute; reflexivity. Qed.

(* ===================================================================== *)
(** * Concrete surroundings for the examples                              *)
(* ===================================================================== *)

Example kokoro_tokens_ni_hao :
  @KokoroPhonemizer.textToTokenIds demo_platform
    (KokoroBackend.phonemizer_ kokoro_state) "你好!"
  = Cxx.Ok [0; 56; 51; 169; 66; 43; 63; 169; 5; 0].
Proof. vm_compute. reflexivity. Qed.

(** 600 exclamation marks: the padded sequence is cut to 512 and closed
    with PAD again. *)
Example kokoro_tokens_truncated :
  @KokoroPhonemizer.textToTokenIds demo_platform
    (KokoroBackend.phonemizer_ kokoro_state)
    (string_of_list_ascii (replicate 600 "!"%char))
  = Cxx.Ok ([0] ++ replicate 510 5 ++ [0]).
Proof. vm_compute. reflexivity. Qed.

(* ===================================================================== *)
(** * The sample rate of a synthesised chunk                              *)
(* ===================================================================== *)

Section SampleRate.
Import Cxx Types Config.
Context `{Platform} `{Runtime}.

Lemma calculateRTF_audio r : audio (calculateRTF r) = audio r.
Proof. unfold calculateRTF. destruct (0 <? audio_duration_ms r); reflexivity. Qed.

Lemma matcha_try_rate `{MatchaBackend.Language} self text r r' :
  MatchaBackend.synthesize_try self text r = Ok r' ->
  samples (audio r') <> [] ->
  sample_rate (audio r') = MatchaBackend.getSampleRate self.
Proof.
  unfold MatchaBackend.synthesize_try, MatchaBackend.getSampleRate. intros Hrun Hsamples.
  inv_bind Hrun. inv_bind Hrun.
  destruct (bool_decide (a0 = [])).
  { injection Hrun as <-. cbn in Hsamples. contradiction. }
  inv_bind Hrun. inv_bind Hrun.
  destruct (bool_decide (a2 = [])).
  { injection Hrun as <-. cbn in Hsamples. contradiction. }
  inv_bind Hrun.
  set (out_rate := output_sample_rate (MatchaBackend.config_ self)) in *.
  destruct (Z.ltb_spec 0 out_rate); cbn [andb] in Hrun.
  - destruct (Z.eqb_spec out_rate (MatchaBackend.sample_rate_ self)) as [Heq|Hne];
      cbn [negb] in Hrun; injection Hrun as <-; cbn; rewrite calculateRTF_audio; cbn;
      congruence.
  - injection Hrun as <-. cbn. rewrite calculateRTF_audio. reflexivity.
Qed.

Lemma matcha_synthesize_ok `{MatchaBackend.Language} self text r err r' :
  MatchaBackend.synthesize self text r = Ok (err, r') ->
  isOk err = true ->
  MatchaBackend.synthesize_try self text r = Ok r'.
Proof.
  unfold MatchaBackend.synthesize. intros Hrun Hok.
  destruct (negb _); [injection Hrun as <- <-; discriminate|].
  destruct (String.eqb text ""); [injection Hrun as <- <-; discriminate|].
  destruct (MatchaBackend.synthesize_try self text r) as [r0|[]];
    try discriminate; injection Hrun as <- <-; try discriminate.
  reflexivity.
Qed.

Lemma kokoro_try_rate self text r r' :
  KokoroBackend.synthesize_try self text r = Ok r' ->
  sample_rate (audio r') = KokoroBackend.SAMPLE_RATE.
Proof.
  unfold KokoroBackend.synthesize_try. intros Hrun.
  inv_bind Hrun.
  destruct (bool_decide (a = [])); [injection Hrun as <-; reflexivity|].
  inv_bind Hrun. inv_bind Hrun.
  destruct (bool_decide (a1 = [])); [injection Hrun as <-; reflexivity|].
  injection Hrun as <-. cbn. rewrite calculateRTF_audio. reflexivity.
Qed.

Lemma kokoro_synthesize_ok self text r err r' :
  KokoroBackend.synthesize self text r = Ok (err, r') ->
  isOk err = true ->
  KokoroBackend.synthesize_try self text r = Ok r'.
Proof.
  unfold KokoroBackend.synthesize. intros Hrun Hok.
  destruct (negb _); [injection Hrun as <- <-; discriminate|].
  destruct (String.eqb text ""); [injection Hrun as <- <-; discriminate|].
  destruct (KokoroBackend.synthesize_try self text r) as [r0|[]];
    try discriminate; injection Hrun as <- <-; try discriminate.
  reflexivity.
Qed.

End SampleRate.

(** C1, as amended. When a Matcha backend (whatever its language class)
    synthesises successfully and the chunk has samples, the chunk's
    [sample_rate] is [config.output_sample_rate] when that is positive and
    the native rate otherwise, which is what [getSampleRate] reports. When
    the Kokoro backend synthesises successfully, the chunk's [sample_rate]
    is the native 24000 on every path, whatever [config.output_sample_rate]. *)
Theorem synthesize_sample_rate :
  (forall (P : Platform) (R : Runtime) (L : MatchaBackend.Language)
          (self : MatchaBackend.state) (text : string) (r r' : Types.SynthesisResult)
          (err : Types.ErrorInfo),
      MatchaBackend.synthesize self text r = Cxx.Ok (err, r') ->
      Types.isOk err = true ->
      Types.samples (Types.audio r') <> [] ->
      Types.sample_rate (Types.audio r')
      = (if 0 <? Config.output_sample_rate (MatchaBackend.config_ self)
         then Config.output_sample_rate (MatchaBackend.config_ self)
         else MatchaBackend.sample_rate_ self))
  /\ (forall (P : Platform) (R : Runtime) (self : KokoroBackend.state) (text : string)
             (r r' : Types.SynthesisResult) (err : Types.ErrorInfo),
         KokoroBackend.synthesize self text r = Cxx.Ok (err, r') ->
         Types.isOk err = true ->
         Types.sample_rate (Types.audio r') = 24000).
Proof.
  split.
  - intros P R L self text r r' err Hrun Hok Hsamples.
    apply (matcha_try_rate self text r r'); [|exact Hsamples].
    eapply matcha_synthesize_ok; eassumption.
  - intros P R self text r r' err Hrun Hok.
    apply (kokoro_try_rate self text r r').
    eapply kokoro_synthesize_ok; eassumption.
Qed.

Lemma synthesize_sample_rate_witness :
  (@MatchaBackend.synthesize demo_platform demo_runtime byte_language
     matcha_zh_state "hi" fresh_result = Cxx.Ok (fst matcha_hi, snd matcha_hi)
   /\ Types.isOk (fst matcha_hi) = true
   /\ Types.samples (Types.audio (snd matcha_hi)) <> []
   /\ Types.sample_rate (Types.audio (snd matcha_hi)) = 16000)
  /\ (@KokoroBackend.synthesize demo_platform demo_runtime kokoro_state "你好" fresh_result
      = Cxx.Ok (fst kokoro_ni_hao, snd kokoro_ni_hao)
      /\ Types.isOk (fst kokoro_ni_hao) = true
      /\ Types.sample_rate (Types.audio (snd kokoro_ni_hao)) = 24000).
Proof.
  assert (Hm : @MatchaBackend.synthesize demo_platform demo_runtime byte_language
                 matcha_zh_state "hi" fresh_result = Cxx.Ok (fst matcha_hi, snd matcha_hi))
    by (vm_compute; reflexivity).
  assert (Hmok : Types.isOk (fst matcha_hi) = true) by (vm_compute; reflexivity).
  assert (Hms : Types.samples (Types.audio (snd matcha_hi)) <> [])
    by (vm_compute; discriminate).
  assert (Hk : @KokoroBackend.synthesize demo_platform demo_runtime kokoro_state "你好"
                 fresh_result = Cxx.Ok (fst kokoro_ni_hao, snd kokoro_ni_hao))
    by (vm_compute; reflexivity).
  assert (Hkok : Types.isOk (fst kokoro_ni_hao) = true) by (vm_compute; reflexivity).
  split.
  - split; [exact Hm|]. split; [exact Hmok|]. split; [exact Hms|].
    exact (proj1 synthesize_sample_rate demo_platform demo_runtime byte_language
             matcha_zh_state "hi" fresh_result (snd matcha_hi) (fst matcha_hi) Hm Hmok Hms).
  - split; [exact Hk|]. split; [exact Hkok|].
    exact (proj2 synthesize_sample_rate demo_platform demo_runtime kokoro_state "你好"
             fresh_result (snd kokoro_ni_hao) (fst kokoro_ni_hao) Hk Hkok).
Defined.

(** C1, as stated, fails. The Kokoro backend configured with
    [output_sample_rate = 16000] synthesises [你好] successfully, with
    samples, and labels the chunk 24000; and a Matcha-ZH backend with the
    same configuration, on a text that gives no token, succeeds with an
    empty chunk labelled with the native 22050. *)
Lemma synthesize_rate_is_not_output_rate :
  Config.output_sample_rate (KokoroBackend.config_ kokoro_state) = 16000
  /\ match @KokoroBackend.synthesize demo_platform demo_runtime kokoro_state "你好"
             fresh_result with
     | Cxx.Ok (err, r') =>
         Types.isOk err = true /\ Types.success r' = true
         /\ Types.samples (Types.audio r') <> []
         /\ Types.sample_rate (Types.audio r') = 24000
     | Cxx.Throw _ => False
     end
  /\ Config.output_sample_rate (MatchaBackend.config_ matcha_zh_state) = 16000
  /\ match @MatchaBackend.synthesize demo_platform demo_runtime mute_language
             matcha_zh_state "hi" fresh_result with
     | Cxx.Ok (err, r') =>
         Types.isOk err = true /\ Types.success r' = true
         /\ Types.samples (Types.audio r') = []
         /\ Types.sample_rate (Types.audio r') = 22050
     | Cxx.Throw _ => False
     end.
Proof.
  split; [reflexivity|]. split; [|split; [reflexivity|]];
    vm_compute; repeat split; discriminate.
Qed.

(* ===================================================================== *)
(** * A text without tokens                                               *)
(* ===================================================================== *)

(** C5, as amended. On an initialised backend and a text that is not empty,
    when the phonemization returns an empty token sequence (for Matcha: the
    language class on the normalised text; for Kokoro: the phonemizer),
    [synthesize] returns OK, with [success] set and an empty audio buffer. *)
Theorem synthesize_without_tokens :
  (forall (P : Platform) (R : Runtime) (L : MatchaBackend.Language)
          (self : MatchaBackend.state) (text normalized : string) (r : Types.SynthesisResult),
      MatchaBackend.initialized_ self = true ->
      text <> "" ->
      TextNormalizer.normalizeText sorted_units text
        (MatchaBackend.norm_lang (MatchaBackend.type_ self)) = Cxx.Ok normalized ->
      MatchaBackend.textToTokenIds normalized = Cxx.Ok [] ->
      exists r',
        MatchaBackend.synthesize self text r = Cxx.Ok (Types.ok, r')
        /\ Types.success r' = true
        /\ Types.samples (Types.audio r') = [])
  /\ (forall (P : Platform) (R : Runtime) (self : KokoroBackend.state) (text : string)
             (r : Types.SynthesisResult),
         KokoroBackend.initialized_ self = true ->
         text <> "" ->
         KokoroPhonemizer.textToTokenIds (KokoroBackend.phonemizer_ self) text = Cxx.Ok [] ->
         exists r',
           KokoroBackend.synthesize self text r = Cxx.Ok (Types.ok, r')
           /\ Types.success r' = true
           /\ Types.samples (Types.audio r') = []).
Proof.
  split.
  - intros P R L self text normalized r Hinit Htext Hnorm Htokens.
    exists (MatchaBackend.empty_result self r).
    split; [|split; reflexivity].
    unfold MatchaBackend.synthesize. rewrite Hinit. cbn [negb].
    destruct (String.eqb_spec text ""); [contradiction|].
    unfold MatchaBackend.synthesize_try. rewrite Hnorm. cbn [mbind Cxx.result_bind].
    rewrite Htokens. reflexivity.
  - intros P R self text r Hinit Htext Htokens.
    exists (KokoroBackend.empty_result r).
    split; [|split; reflexivity].
    unfold KokoroBackend.synthesize. rewrite Hinit. cbn [negb].
    destruct (String.eqb_spec text ""); [contradiction|].
    unfold KokoroBackend.synthesize_try. rewrite Htokens. reflexivity.
Qed.

Lemma synthesize_without_tokens_witness :
  (exists r',
      @MatchaBackend.synthesize demo_platform demo_runtime mute_language
        matcha_zh_state "hi" fresh_result = Cxx.Ok (Types.ok, r')
      /\ Types.success r' = true
      /\ Types.samples (Types.audio r') = [])
  /\ (exists r',
         @KokoroBackend.synthesize demo_platform demo_runtime kokoro_state "#" fresh_result
         = Cxx.Ok (Types.ok, r')
         /\ Types.success r' = true
         /\ Types.samples (Types.audio r') = []).
Proof.
  split.
  - apply (proj1 synthesize_without_tokens demo_platform demo_runtime mute_language
             matcha_zh_state "hi" "hi" fresh_result).
    + reflexivity.
    + discriminate.
    + vm_compute. reflexivity.
    + reflexivity.
  - apply (proj2 synthesize_without_tokens demo_platform demo_runtime kokoro_state "#"
             fresh_result).
    + reflexivity.
    + discriminate.
    + vm_compute. reflexivity.
Defined.

(** C5, as stated, fails on the empty text: its phonemization is the empty
    sequence, and [synthesize] answers [INVALID_TEXT] and leaves the result
    untouched, on the Kokoro backend and on a Matcha backend alike. *)
Lemma synthesize_rejects_empty_text :
  (@KokoroPhonemizer.textToTokenIds demo_platform (KokoroBackend.phonemizer_ kokoro_state) ""
   = Cxx.Ok []
   /\ @KokoroBackend.synthesize demo_platform demo_runtime kokoro_state "" fresh_result
      = Cxx.Ok (Types.error Types.INVALID_TEXT "Empty text", fresh_result))
  /\ (TextNormalizer.normalizeText (@sorted_units demo_platform) "" TextNormalizer.ZH
      = Cxx.Ok ""
      /\ @MatchaBackend.textToTokenIds mute_language "" = Cxx.Ok []
      /\ @MatchaBackend.synthesize demo_platform demo_runtime mute_language
           matcha_zh_state "" fresh_result
         = Cxx.Ok (Types.error Types.INVALID_TEXT "Empty text", fresh_result)).
Proof. repeat split. Qed.

(* ===================================================================== *)
(** * Speed and speaker                                                   *)
(* ===================================================================== *)

Section Setters.
Import Types.

(** NaN apart, a speed that is not above 0 is at most 0. *)
Lemma not_positive_is_nonpositive (speed : F32.float) :
  speed <> F32.nan ->
  F32.ltb (F32.of_Z 0) speed = false ->
  F32.leb speed (F32.of_Z 0) = true.
Proof.
  intros Hnan. destruct speed as [s|[|]|  |[|] m e]; try reflexivity; try discriminate.
  contradiction.
Qed.

(** Every ordered speed outside (0, 10] is refused and nothing changes. *)
Lemma matcha_setSpeed_refuses self speed :
  F32.leb speed (F32.of_Z 0) = true \/ F32.ltb (F32.of_Z 10) speed = true ->
  MatchaBackend.setSpeed self speed
  = (error INVALID_CONFIG "Speed must be between 0.1 and 10.0", self).
Proof.
  intros Hout. unfold MatchaBackend.setSpeed.
  destruct Hout as [-> | ->]; [|rewrite orb_true_r]; reflexivity.
Qed.

Lemma kokoro_setSpeed_refuses self speed :
  F32.leb speed (F32.of_Z 0) = true \/ F32.ltb (F32.of_Z 10) speed = true ->
  KokoroBackend.setSpeed self speed
  = (error INVALID_CONFIG "Speed must be between 0.1 and 10.0", self).
Proof.
  intros Hout. unfold KokoroBackend.setSpeed.
  destruct Hout as [-> | ->]; [|rewrite orb_true_r]; reflexivity.
Qed.

(** Every speaker id below 0 or not below the number of speakers is refused
    and nothing changes. *)
Lemma matcha_setSpeaker_refuses self speaker_id :
  speaker_id < 0 \/ MatchaBackend.num_speakers_ self <= speaker_id ->
  code (fst (MatchaBackend.setSpeaker self speaker_id)) = INVALID_CONFIG
  /\ snd (MatchaBackend.setSpeaker self speaker_id) = self.
Proof.
  intros Hout. unfold MatchaBackend.setSpeaker.
  destruct (Z.ltb_spec speaker_id 0); [split; reflexivity|].
  destruct (Z.leb_spec (MatchaBackend.num_speakers_ self) speaker_id);
    [split; reflexivity|lia].
Qed.

End Setters.

(** C7, as amended. A speed that is a number and is not above 0 is refused
    by [setSpeed] of both backends with [INVALID_CONFIG], and the backend
    stays as it was. A speaker id below 0 or not below the number of
    speakers is refused by [MatchaBackend::setSpeaker] with
    [INVALID_CONFIG], and the backend stays as it was. The Kokoro backend
    has no [setSpeaker] of its own: the inherited one answers
    [INTERNAL_ERROR] to every id and changes nothing. *)
Theorem setters_refuse_invalid_values :
  (forall (self : MatchaBackend.state) (speed : F32.float),
      speed <> F32.nan ->
      F32.ltb (F32.of_Z 0) speed = false ->
      MatchaBackend.setSpeed self speed
      = (Types.error Types.INVALID_CONFIG "Speed must be between 0.1 and 10.0", self))
  /\ (forall (self : KokoroBackend.state) (speed : F32.float),
         speed <> F32.nan ->
         F32.ltb (F32.of_Z 0) speed = false ->
         KokoroBackend.setSpeed self speed
         = (Types.error Types.INVALID_CONFIG "Speed must be between 0.1 and 10.0", self))
  /\ (forall (self : MatchaBackend.state) (speaker_id : Z),
         speaker_id < 0 \/ MatchaBackend.num_speakers_ self <= speaker_id ->
         Types.code (fst (MatchaBackend.setSpeaker self speaker_id)) = Types.INVALID_CONFIG
         /\ snd (MatchaBackend.setSpeaker self speaker_id) = self)
  /\ (forall (self : KokoroBackend.state) (speaker_id : Z),
         KokoroBackend.setSpeaker self speaker_id
         = (Types.error Types.INTERNAL_ERROR "Speaker update not supported", self)).
Proof.
  split; [|split; [|split]].
  - intros self speed Hnan Hspeed. apply matcha_setSpeed_refuses. left.
    apply not_positive_is_nonpositive; assumption.
  - intros self speed Hnan Hspeed. apply kokoro_setSpeed_refuses. left.
    apply not_positive_is_nonpositive; assumption.
  - intros self speaker_id. apply matcha_setSpeaker_refuses.
  - intros self speaker_id. reflexivity.
Qed.

Lemma setters_refuse_invalid_values_witness :
  (F32.of_Z (-2) <> F32.nan
   /\ F32.ltb (F32.of_Z 0) (F32.of_Z (-2)) = false
   /\ MatchaBackend.setSpeed matcha_zh_state (F32.of_Z (-2))
      = (Types.error Types.INVALID_CONFIG "Speed must be between 0.1 and 10.0",
         matcha_zh_state))
  /\ (KokoroBackend.setSpeed kokoro_state (F32.of_Z 0)
      = (Types.error Types.INVALID_CONFIG "Speed must be between 0.1 and 10.0", kokoro_state))
  /\ ((7 < 0 \/ MatchaBackend.num_speakers_ matcha_zh_state <= 7)
      /\ Types.code (fst (MatchaBackend.setSpeaker matcha_zh_state 7)) = Types.INVALID_CONFIG
      /\ snd (MatchaBackend.setSpeaker matcha_zh_state 7) = matcha_zh_state).
Proof.
  assert (Hnan : F32.of_Z (-2) <> F32.nan) by (vm_compute; discriminate).
  assert (Hspeed : F32.ltb (F32.of_Z 0) (F32.of_Z (-2)) = false) by (vm_compute; reflexivity).
  assert (Hnan0 : F32.of_Z 0 <> F32.nan) by (vm_compute; discriminate).
  assert (Hspeed0 : F32.ltb (F32.of_Z 0) (F32.of_Z 0) = false) by (vm_compute; reflexivity).
  assert (Hid : 7 < 0 \/ MatchaBackend.num_speakers_ matcha_zh_state <= 7)
    by (right; cbn; lia).
  split; [|split].
  - split; [exact Hnan|]. split; [exact Hspeed|].
    exact (proj1 setters_refuse_invalid_values matcha_zh_state (F32.of_Z (-2)) Hnan Hspeed).
  - exact (proj1 (proj2 setters_refuse_invalid_values) kokoro_state (F32.of_Z 0) Hnan0 Hspeed0).
  - split; [exact Hid|].
    exact (proj1 (proj2 (proj2 setters_refuse_invalid_values)) matcha_zh_state 7 Hid).
Defined.

(** C7, as stated, fails. The Kokoro backend, which has one speaker,
    answers [INTERNAL_ERROR] and not [INVALID_CONFIG] to [setSpeaker(-1)].
    And NaN is not above 0, yet [speed <= 0.0f || speed > 10.0f] is false
    for it: both backends answer OK to [setSpeed(NaN)] and store NaN as the
    current speed. *)
Lemma setters_answer_otherwise :
  (-1 < 0
   /\ KokoroBackend.getNumSpeakers kokoro_state = 1
   /\ Types.code (fst (KokoroBackend.setSpeaker kokoro_state (-1))) = Types.INTERNAL_ERROR
   /\ Types.code (fst (KokoroBackend.setSpeaker kokoro_state (-1))) <> Types.INVALID_CONFIG)
  /\ (F32.ltb (F32.of_Z 0) F32.nan = false
      /\ MatchaBackend.setSpeed matcha_zh_state F32.nan
         = (Types.ok, MatchaBackend.set_current_speed_ matcha_zh_state F32.nan)
      /\ KokoroBackend.setSpeed kokoro_state F32.nan
         = (Types.ok, KokoroBackend.set_current_speed_ kokoro_state F32.nan)
      /\ MatchaBackend.current_speed_ (snd (MatchaBackend.setSpeed matcha_zh_state F32.nan))
         <> MatchaBackend.current_speed_ matcha_zh_state
      /\ KokoroBackend.current_speed_ (snd (KokoroBackend.setSpeed kokoro_state F32.nan))
         <> KokoroBackend.current_speed_ kokoro_state).
Proof.
  split.
  - split; [lia|]. split; [reflexivity|]. split; [reflexivity|]. cbn. discriminate.
  - split; [reflexivity|]. split; [reflexivity|]. split; [reflexivity|].
    split; vm_compute; discriminate.
Qed.

(* ===================================================================== *)
(** * Further properties: strings                                       *)
(* ===================================================================== *)

Lemma append_cons c x y : String c x +:+ y = String c (x +:+ y).
Proof. reflexivity. Qed.

Lemma append_nil_right x : x +:+ "" = x.
Proof. induction x as [|c x IH]; [reflexivity|]. rewrite append_cons, IH. reflexivity. Qed.

Lemma append_nil_left x : "" +:+ x = x.
Proof. reflexivity. Qed.

Lemma append_assoc x y z : (x +:+ y) +:+ z = x +:+ (y +:+ z).
Proof. induction x as [|c x IH]; [reflexivity|]. rewrite !append_cons, IH. reflexivity. Qed.

Lemma append_length x y : String.length (x +:+ y) = (String.length x + String.length y)%nat.
Proof. induction x as [|c x IH]; [reflexivity|]. rewrite append_cons. cbn. now rewrite IH. Qed.

Lemma concat_cons x l : String.concat "" (x :: l) = x +:+ String.concat "" l.
Proof. destruct l; cbn [String.concat]; [now rewrite append_nil_right|reflexivity]. Qed.

(* ===================================================================== *)
(** * splitUtf8                                                         *)
(* ===================================================================== *)

Section SplitUtf8.
Import Cxx TextUtils.

Lemma utf8_char_len_range c : (1 <= utf8_char_len c <= 4)%nat.
Proof.
  unfold utf8_char_len.
  repeat match goal with |- context [if ?b then _ else _] => destruct b end; lia.
Qed.

Lemma substr_drop_str n s :
  substr s 0 n +:+ drop_str n s = s.
Proof.
  unfold substr. revert s. induction n as [|n IH]; intros [|c s]; cbn; try reflexivity.
  rewrite append_cons. f_equal. apply IH.
Qed.

Lemma substr_length n s :
  (n <= String.length s)%nat -> String.length (substr s 0 n) = n.
Proof.
  unfold substr. revert s. induction n as [|n IH]; intros [|c s] Hn; cbn in *;
    try lia; try reflexivity.
  f_equal. apply IH. lia.
Qed.

Lemma drop_str_length n s : String.length (drop_str n s) = (String.length s - n)%nat.
Proof. revert s. induction n as [|n IH]; intros [|c s]; cbn; try lia. apply IH. Qed.

Lemma drop_str_all n s : (String.length s <= n)%nat -> drop_str n s = "".
Proof. revert s. induction n as [|n IH]; intros [|c s] H; cbn in *; try reflexivity; try lia. apply IH. lia. Qed.

Lemma splitUtf8_from_nil fuel : splitUtf8_from fuel "" = [].
Proof. destruct fuel; reflexivity. Qed.

Lemma splitUtf8_from_spec fuel :
  forall str, (String.length str <= fuel)%nat ->
    exists tail,
      str = String.concat "" (splitUtf8_from fuel str) +:+ tail
      /\ (String.length tail <= 3)%nat
      /\ Forall (fun p => (1 <= String.length p <= 4)%nat) (splitUtf8_from fuel str).
Proof.
  induction fuel as [|fuel IH]; intros str Hlen.
  - destruct str; [|cbn in Hlen; lia]. exists "". repeat split; [cbn; lia|constructor].
  - destruct str as [|c s].
    { exists "". repeat split; [cbn; lia|constructor]. }
    cbn [splitUtf8_from].
    pose proof (utf8_char_len_range c) as Hc.
    set (n := utf8_char_len c) in *. set (str := String c s) in *.
    destruct (Nat.leb_spec n (String.length str)) as [Hfit|Hshort].
    + destruct (IH (drop_str n str)) as (tail & Heq & Htail & Hall).
      { rewrite drop_str_length. cbn in Hlen |- *. lia. }
      exists tail. split; [|split; [exact Htail|]].
      * rewrite concat_cons, append_assoc, <- Heq. symmetry. apply substr_drop_str.
      * constructor; [rewrite substr_length by exact Hfit; lia|exact Hall].
    + rewrite drop_str_all by lia. rewrite splitUtf8_from_nil.
      exists str. split; [reflexivity|]. split; [lia|constructor].
Qed.
End SplitUtf8.

(** X1. [splitUtf8] loses nothing but an unfinished last character: the
    pieces, put together again, are the input up to a tail of at most
    three bytes, and every piece has between one and four bytes. *)
Theorem splitUtf8_keeps_a_prefix :
  forall str : string,
    exists tail,
      str = String.concat "" (TextUtils.splitUtf8 str) +:+ tail
      /\ (String.length tail <= 3)%nat
      /\ Forall (fun p => (1 <= String.length p <= 4)%nat) (TextUtils.splitUtf8 str).
Proof. intros str. apply splitUtf8_from_spec. reflexivity. Qed.

(* ===================================================================== *)
(** * Roman numerals: sign and letter case                              *)
(* ===================================================================== *)

Section Roman.
Import Cxx NumberUtils.







Lemma romanToInt_same_letters_from s :
  forall t result,
    Forall2 (fun a b => toupper a = toupper b) (list_ascii_of_string s) (list_ascii_of_string t) ->
    romanToInt_from s result = romanToInt_from t result.
Proof.
  induction s as [|a s IH]; intros [|b t] result H; cbn in H; inversion H; subst.
  - reflexivity.
  - cbn [romanToInt_from].
    match goal with Hab : toupper a = toupper b |- _ => rewrite Hab end.
    match goal with Hst : Forall2 _ (list_ascii_of_string s) _ |- _ => rename Hst into Hrest end.
    destruct s as [|a' s']; destruct t as [|b' t']; cbn in Hrest; inversion Hrest; subst.
    + reflexivity.
    + match goal with Hab : toupper a' = toupper b' |- _ => rewrite Hab end.
      destruct (_ <? _); apply IH; exact Hrest.
Qed.

Lemma all_roman_same_letters s :
  forall t,
    Forall2 (fun a b => toupper a = toupper b) (list_ascii_of_string s) (list_ascii_of_string t) ->
    all_roman s = all_roman t.
Proof.
  induction s as [|a s IH]; intros [|b t] H; cbn in H; inversion H; subst.
  - reflexivity.
  - cbn [all_roman]. unfold isRomanNumeralChar.
    match goal with Hab : toupper a = toupper b |- _ => rewrite Hab end.
    destruct (negb _); [reflexivity|]. apply IH. assumption.
Qed.

Lemma same_letters_length s :
  forall t,
    Forall2 (fun a b => toupper a = toupper b) (list_ascii_of_string s) (list_ascii_of_string t) ->
    String.length s = String.length t.
Proof.
  induction s as [|a s IH]; intros [|b t] H; cbn in H; inversion H; subst; cbn.
  - reflexivity.
  - f_equal. apply IH. assumption.
Qed.

End Roman.


(** X3. [romanToInt] and [isRomanNumeral] do not tell lower case from
    upper case: two strings whose characters agree after [toupper] get
    the same value and the same verdict. *)
Theorem roman_numerals_ignore_case :
  forall s t : string,
    Forall2 (fun a b => Cxx.toupper a = Cxx.toupper b)
            (list_ascii_of_string s) (list_ascii_of_string t) ->
    NumberUtils.romanToInt s = NumberUtils.romanToInt t
    /\ NumberUtils.isRomanNumeral s = NumberUtils.isRomanNumeral t.
Proof.
  intros s t H. split.
  - apply romanToInt_same_letters_from. exact H.
  - unfold NumberUtils.isRomanNumeral.
    rewrite (same_letters_length s t H), (all_roman_same_letters s t H). reflexivity.
Qed.

Lemma roman_numerals_ignore_case_witness :
  Forall2 (fun a b => Cxx.toupper a = Cxx.toupper b)
          (list_ascii_of_string "mcmLxxxiv") (list_ascii_of_string "MCMLXXXIV")
  /\ NumberUtils.romanToInt "mcmLxxxiv" = 1984
  /\ NumberUtils.isRomanNumeral "mcmLxxxiv" = true.
Proof.
  assert (H : Forall2 (fun a b => Cxx.toupper a = Cxx.toupper b)
                (list_ascii_of_string "mcmLxxxiv") (list_ascii_of_string "MCMLXXXIV")).
  { cbn. repeat constructor. }
  split; [exact H|].
  destruct (roman_numerals_ignore_case "mcmLxxxiv" "MCMLXXXIV" H) as [Hv Hr].
  split; [rewrite Hv; reflexivity|rewrite Hr; reflexivity].
Defined.


(* ===================================================================== *)
(** * Shutdown                                                          *)
(* ===================================================================== *)

(** X16. After [shutdown], [synthesize] refuses every text with
    [NOT_INITIALIZED] and leaves the result as it was, on both backends;
    and a second [shutdown] changes nothing. *)
Theorem synthesize_after_shutdown :
  (forall (P : Platform) (R : Runtime) (L : MatchaBackend.Language)
          (self : MatchaBackend.state) (text : string) (r : Types.SynthesisResult),
      MatchaBackend.synthesize (MatchaBackend.shutdown self) text r
      = Cxx.Ok (Types.error Types.NOT_INITIALIZED "Backend not initialized", r)
      /\ MatchaBackend.shutdown (MatchaBackend.shutdown self) = MatchaBackend.shutdown self)
  /\ (forall (P : Platform) (R : Runtime) (self : KokoroBackend.state) (text : string)
             (r : Types.SynthesisResult),
         KokoroBackend.synthesize (KokoroBackend.shutdown self) text r
         = Cxx.Ok (Types.error Types.NOT_INITIALIZED "Backend not initialized", r)
         /\ KokoroBackend.shutdown (KokoroBackend.shutdown self) = KokoroBackend.shutdown self).
Proof.
  split.
  - intros P R L self text r.
    unfold MatchaBackend.synthesize, MatchaBackend.shutdown.
    destruct (MatchaBackend.initialized_ self) eqn:Hinit; cbn; rewrite ?Hinit; auto.
  - intros P R self text r.
    unfold KokoroBackend.synthesize, KokoroBackend.shutdown.
    destruct (KokoroBackend.initialized_ self) eqn:Hinit; cbn; rewrite ?Hinit; auto.
Qed.

(* ===================================================================== *)
(** * parsePinyin                                                       *)
(* ===================================================================== *)

Section Parse.
Import Cxx KokoroPhonemizer.

Lemma back_pop_back s c : back s = Some c -> s = pop_back s +:+ String c "".
Proof.
  induction s as [|d s IH]; [discriminate|].
  destruct s as [|e s'].
  - cbn. intros [= ->]. reflexivity.
  - intros H. change (back (String e s') = Some c) in H.
    change (pop_back (String d (String e s'))) with (String d (pop_back (String e s'))).
    rewrite append_cons. f_equal. apply IH. exact H.
Qed.

Lemma prefix_drop_str a : forall b, String.prefix a b = true -> b = a +:+ drop_str (String.length a) b.
Proof.
  induction a as [|c a IH]; intros b H; [reflexivity|].
  destruct b as [|d b]; [discriminate|]. cbn in H.
  destruct (ascii_dec c d) as [->|]; [|discriminate].
  cbn [String.length drop_str]. rewrite append_cons. f_equal. apply IH. exact H.
Qed.

Lemma initial_final py (tone : Z) :
  let parts :=
    match List.find (fun ini => String.prefix ini py) initials_ordered_ with
    | Some ini => {| initial := ini; final_ := drop_str (String.length ini) py; tone := tone |}
    | None => {| initial := ""; final_ := py; tone := tone |}
    end in
  initial parts +:+ final_ parts = py /\ KokoroPhonemizer.tone parts = tone.
Proof.
  cbv zeta. destruct (List.find _ _) as [ini|] eqn:Hfind; cbn; [|auto].
  apply find_some in Hfind as [_ Hp]. split; [|reflexivity].
  symmetry. apply prefix_drop_str. exact Hp.
Qed.

End Parse.

(** X4. [parsePinyin] splits without loss: the tone is between 1 and 5,
    and the initial followed by the final is the syllable itself, or the
    syllable without the tone digit that ended it. *)
Theorem parsePinyin_loses_nothing :
  forall pinyin : string,
    let parts := KokoroPhonemizer.parsePinyin pinyin in
    1 <= KokoroPhonemizer.tone parts <= 5
    /\ (KokoroPhonemizer.initial parts +:+ KokoroPhonemizer.final_ parts = pinyin
        \/ pinyin
           = KokoroPhonemizer.initial parts +:+ KokoroPhonemizer.final_ parts
             +:+ String (Cxx.chr (48 + KokoroPhonemizer.tone parts)) "").
Proof.
  intros pinyin. cbv zeta. unfold KokoroPhonemizer.parsePinyin.
  destruct (String.eqb_spec pinyin "") as [->|Hne]; [cbn; split; [lia|auto]|].
  destruct (Cxx.back pinyin) as [last|] eqn:Hback.
  - destruct ((Cxx.code "1" <=? Cxx.code last) && (Cxx.code last <=? Cxx.code "5")) eqn:Hdigit.
    + apply andb_true_iff in Hdigit as [H1 H5]. apply Z.leb_le in H1, H5.
      change (Cxx.code "1") with 49 in H1. change (Cxx.code "5") with 53 in H5.
      change (Cxx.code "0") with 48.
      assert (Hlast : last = Cxx.chr (48 + (Cxx.code last - 48))).
      { replace (48 + (Cxx.code last - 48)) with (Cxx.code last) by lia.
        unfold Cxx.chr, Cxx.code. rewrite N2Z.id, ascii_N_embedding. reflexivity. }
      pose proof (back_pop_back pinyin last Hback) as Hsplit.
      destruct (String.eqb_spec (Cxx.pop_back pinyin) "") as [Hempty|_].
      * cbn. split; [lia|]. right. rewrite Hsplit at 1. rewrite Hempty, <- Hlast. reflexivity.
      * destruct (initial_final (Cxx.pop_back pinyin) (Cxx.code last - 48)) as [Hif Htone].
        rewrite Htone. split; [lia|]. right.
        rewrite <- append_assoc, Hif, <- Hlast. exact Hsplit.
    + destruct (String.eqb_spec pinyin ""); [contradiction|].
      destruct (initial_final pinyin 5) as [Hif Htone]. rewrite Htone. split; [lia|].
      left. exact Hif.
  - destruct (String.eqb_spec pinyin ""); [contradiction|].
    destruct (initial_final pinyin 5) as [Hif Htone]. rewrite Htone. split; [lia|].
    left. exact Hif.
Qed.

(* ===================================================================== *)
(** * Kokoro token ids                                                  *)
(* ===================================================================== *)

Section KokoroIds.
Import Cxx KokoroPhonemizer.



End KokoroIds.




(* ===================================================================== *)
(** * convertToGruutEnUs                                                *)
(* ===================================================================== *)

Lemma chars_append x y :
  list_ascii_of_string (x +:+ y) = list_ascii_of_string x ++ list_ascii_of_string y.
Proof. induction x as [|c x IH]; [reflexivity|]. rewrite append_cons. cbn. f_equal. exact IH. Qed.

Section Gruut.
Import Cxx PhonemeUtils.

Lemma chars_drop_str d n s :
  In d (list_ascii_of_string (drop_str n s)) -> In d (list_ascii_of_string s).
Proof.
  revert s. induction n as [|n IH]; intros [|c s]; cbn; try tauto.
  intros H. right. apply IH. exact H.
Qed.

Lemma replace_all_from_chars d from to fuel :
  forall text,
    In d (list_ascii_of_string (replace_all_from fuel from to text)) ->
    In d (list_ascii_of_string text) \/ In d (list_ascii_of_string to).
Proof.
  induction fuel as [|fuel IH]; intros text; [cbn; tauto|].
  destruct text as [|c rest]; [cbn; tauto|]. cbn [replace_all_from].
  destruct (String.prefix from (String c rest)).
  - rewrite chars_append, in_app_iff. intros [H|H]; [tauto|].
    apply IH in H as [H|H]; [|tauto]. left. eapply chars_drop_str. exact H.
  - cbn. intros [H|H]; [tauto|]. apply IH in H. tauto.
Qed.

Lemma replace_all_chars d from to text :
  In d (list_ascii_of_string (replace_all from to text)) ->
  In d (list_ascii_of_string text) \/ In d (list_ascii_of_string to).
Proof.
  unfold replace_all. destruct (String.eqb from ""); [tauto|]. apply replace_all_from_chars.
Qed.

Lemma replace_all_from_single c to fuel :
  ~ In c (list_ascii_of_string to) ->
  forall text, (String.length text <= fuel)%nat ->
    ~ In c (list_ascii_of_string (replace_all_from fuel (String c "") to text)).
Proof.
  intros Hto. induction fuel as [|fuel IH]; intros text Hfuel.
  - destruct text; [cbn; tauto|cbn in Hfuel; lia].
  - destruct text as [|d rest]; [cbn; tauto|]. cbn [replace_all_from String.prefix].
    destruct (ascii_dec c d) as [<-|Hne].
    + assert (Hp : String.prefix "" rest = true) by (destruct rest; reflexivity).
      rewrite Hp. cbn [String.length drop_str].
      rewrite chars_append, in_app_iff. intros [H|H]; [tauto|].
      revert H. apply IH. cbn in Hfuel. lia.
    + cbn. intros [H|H]; [congruence|]. revert H. apply IH. cbn in Hfuel. lia.
Qed.

Lemma replace_all_single c to text :
  ~ In c (list_ascii_of_string to) ->
  ~ In c (list_ascii_of_string (replace_all (String c "") to text)).
Proof.
  intros Hto. unfold replace_all. cbn [String.eqb].
  apply replace_all_from_single; [exact Hto|lia].
Qed.

End Gruut.

(** X6. The output of [convertToGruutEnUs] holds no ASCII [g] and no
    ASCII [r]: both have become their IPA letters, and no replacement
    brings one back. *)
Theorem convertToGruutEnUs_has_no_plain_g_or_r :
  forall ipa : string,
    ~ In "g"%char (list_ascii_of_string (PhonemeUtils.convertToGruutEnUs ipa))
    /\ ~ In "r"%char (list_ascii_of_string (PhonemeUtils.convertToGruutEnUs ipa)).
Proof.
  intros ipa. unfold PhonemeUtils.convertToGruutEnUs, PhonemeUtils.replacements.
  cbn [fold_left fst snd].
  match goal with
  | |- ~ In _ (list_ascii_of_string
                 (PhonemeUtils.replace_all "r" ?r (PhonemeUtils.replace_all "g" ?g ?t))) /\ _ =>
      set (before := t)
  end.
  split.
  - intros H. apply replace_all_chars in H as [H|H].
    + revert H. apply replace_all_single. vm_compute. intuition discriminate.
    + revert H. vm_compute. intuition discriminate.
  - apply replace_all_single. vm_compute. intuition discriminate.
Qed.

(* ===================================================================== *)
(** * The normaliser on text without digits                             *)
(* ===================================================================== *)

Section NoDigit.
Import Cxx Regex PlainText.

Lemma advance_digit_free cur d cur' :
  digit_free (rest cur) -> advance cur = Some (d, cur') ->
  isdigit d = false /\ digit_free (rest cur').
Proof.
  unfold advance, digit_free. destruct (rest cur) as [|c s]; [discriminate|].
  intros H [= <- <-]. cbn in H |- *. inversion H; subst. split; assumption.
Qed.

Lemma digit_item_digit d i : digit_item i = true -> in_item d i = true -> isdigit d = true.
Proof.
  destruct i as [c|lo hi| |]; cbn; try discriminate.
  - intros Hc Heq. apply Ascii.eqb_eq in Heq. subst. exact Hc.
  - unfold isdigit. intros H1 H2. lia.
  - auto.
Qed.

Lemma in_class_digit d items :
  forallb digit_item items = true -> in_class d items = true -> isdigit d = true.
Proof.
  unfold in_class. induction items as [|i items IH]; cbn; [discriminate|].
  intros Hall Hex. apply andb_true_iff in Hall as [Hi Hall].
  apply orb_true_iff in Hex as [Hex|Hex]; [eapply digit_item_digit; eassumption|auto].
Qed.

Lemma run_fails r :
  forall cur caps k, digit_free (rest cur) -> fails k -> run r cur caps k = None.
Proof.
  induction r as [| c | items | | r1 IH1 r2 IH2 | r1 IH1 r2 IH2 | lo hi r1 IH1 | n r1 IH1];
    intros cur caps k Hcur Hk; cbn [run].
  - apply Hk. exact Hcur.
  - destruct (advance cur) as [[d cur']|] eqn:Hadv; [|reflexivity].
    destruct (advance_digit_free _ _ _ Hcur Hadv) as [_ Hcur'].
    destruct (Ascii.eqb c d); [apply Hk; exact Hcur'|reflexivity].
  - destruct (advance cur) as [[d cur']|] eqn:Hadv; [|reflexivity].
    destruct (advance_digit_free _ _ _ Hcur Hadv) as [_ Hcur'].
    destruct (in_class d items); [apply Hk; exact Hcur'|reflexivity].
  - destruct (word_boundary cur); [apply Hk; exact Hcur|reflexivity].
  - apply IH1; [exact Hcur|]. intros cur' caps' Hcur'. apply IH2; assumption.
  - rewrite IH1 by assumption. apply IH2; assumption.
  - generalize (lo + String.length (rest cur) + 1)%nat. intros fuel.
    revert lo hi cur caps Hcur.
    induction fuel as [|fuel IHf]; intros lo hi cur caps Hcur.
    + destruct lo; [apply Hk; exact Hcur|reflexivity].
    + assert (Hstop : match lo with O => k cur caps | S _ => None end = None).
      { destruct lo; [apply Hk; exact Hcur|reflexivity]. }
      destruct hi as [[|hi]|]; try exact Hstop;
        (rewrite IH1; [exact Hstop|exact Hcur|]);
        intros cur' caps' Hcur'; destruct (_ && _); try reflexivity; apply IHf; exact Hcur'.
  - apply IH1; [exact Hcur|]. intros cur' caps' Hcur'. apply Hk. exact Hcur'.
Qed.

Lemma run_needs_digit r :
  needs_digit r = true ->
  forall cur caps k, digit_free (rest cur) -> run r cur caps k = None.
Proof.
  induction r as [| c | items | | r1 IH1 r2 IH2 | r1 IH1 r2 IH2 | lo hi r1 IH1 | n r1 IH1];
    cbn [needs_digit]; intros Hneed cur caps k Hcur; try discriminate; cbn [run].
  - destruct (advance cur) as [[d cur']|] eqn:Hadv; [|reflexivity].
    destruct (advance_digit_free _ _ _ Hcur Hadv) as [Hd _].
    destruct (Ascii.eqb_spec c d) as [->|_]; [congruence|reflexivity].
  - destruct (advance cur) as [[d cur']|] eqn:Hadv; [|reflexivity].
    destruct (advance_digit_free _ _ _ Hcur Hadv) as [Hd _].
    destruct (in_class d items) eqn:Hin; [|reflexivity].
    pose proof (in_class_digit d items Hneed Hin). congruence.
  - destruct (needs_digit r1) eqn:H1.
    + apply IH1; [reflexivity|exact Hcur].
    + cbn in Hneed. apply run_fails; [exact Hcur|].
      intros cur' caps' Hcur'. apply IH2; assumption.
  - apply andb_true_iff in Hneed as [H1 H2].
    rewrite IH1 by assumption. apply IH2; assumption.
  - apply andb_true_iff in Hneed as [Hlo H1]. apply Nat.ltb_lt in Hlo.
    destruct lo as [|lo]; [lia|].
    destruct (S lo + String.length (rest cur) + 1)%nat as [|fuel]; [reflexivity|].
    destruct hi as [[|hi]|]; try reflexivity; rewrite IH1 by assumption; reflexivity.
  - apply IH1; assumption.
Qed.

Lemma search_needs_digit r s :
  needs_digit r = true -> digit_free s ->
  forall bef off, search r bef off s = None.
Proof.
  intros Hneed. induction s as [|c s IH]; intros Hs bef off; cbn [search];
    unfold match_here; rewrite run_needs_digit by assumption.
  - reflexivity.
  - apply IH. unfold digit_free in *. cbn in Hs. inversion Hs; assumption.
Qed.

Lemma matches_needs_digit r text :
  needs_digit r = true -> digit_free text -> matches r text = [].
Proof.
  intros Hneed Htext. unfold matches. rewrite search_needs_digit by assumption. reflexivity.
Qed.

Lemma rewrite_needs_digit r text f :
  needs_digit r = true -> digit_free text ->
  TextNormalizer.rewrite r text f = Ok text.
Proof.
  intros Hneed Htext. unfold TextNormalizer.rewrite.
  rewrite matches_needs_digit by assumption. reflexivity.
Qed.

End NoDigit.


Section Plain.
Import Cxx Regex PlainText TextUtils TextNormalizer.

Lemma plain_ascii c : plain c = true -> code c < 128 /\ isdigit c = false.
Proof.
  unfold plain. intros H. apply andb_true_iff in H as [H _].
  apply andb_true_iff in H as [H1 H2]. apply Z.ltb_lt in H1.
  apply negb_true_iff in H2. split; assumption.
Qed.

Lemma plain_digit_free text : plain_text text -> digit_free text.
Proof.
  unfold plain_text, digit_free. intros H. eapply Forall_impl; [exact H|].
  intros c Hc. apply plain_ascii in Hc. tauto.
Qed.

Lemma utf8_char_len_ascii c : code c < 128 -> utf8_char_len c = 1%nat.
Proof.
  destruct c as [b0 b1 b2 b3 b4 b5 b6 [|]]; intros H.
  - exfalso. revert H. destruct b0, b1, b2, b3, b4, b5, b6; vm_compute; discriminate.
  - destruct b0, b1, b2, b3, b4, b5, b6; reflexivity.
Qed.

Lemma splitUtf8_plain text : plain_text text -> splitUtf8 text = singles text.
Proof.
  unfold splitUtf8, singles, plain_text. generalize (Nat.le_refl (String.length text)).
  generalize (String.length text) at 2 3. intros fuel. revert fuel.
  induction text as [|c s IH]; intros fuel Hfuel Hall.
  - destruct fuel; reflexivity.
  - destruct fuel as [|fuel]; [cbn in Hfuel; lia|].
    cbn in Hall. inversion Hall as [|? ? Hc Hs]; subst.
    cbn [splitUtf8_from]. rewrite (utf8_char_len_ascii c) by (apply plain_ascii in Hc; tauto).
    cbn [Nat.leb String.length drop_str list_ascii_of_string map].
    unfold substr. cbn [substring].
    destruct s; cbn [substring]; (f_equal; apply IH; [cbn in Hfuel |- *; lia|exact Hs]).
Qed.

Lemma length_singles s : length (singles s) = String.length s.
Proof. unfold singles. induction s as [|c s IH]; cbn; [reflexivity|]. f_equal. exact IH. Qed.

Lemma lookup_plain_key {V : Type} (l : list (string * V)) c rest :
  plain c = true ->
  forallb (fun kv => match fst kv with String d _ => negb (plain d) | EmptyString => true end) l
    = true ->
  (list_to_map l : gmap string V) !! String c rest = None.
Proof.
  intros Hc Hall. apply not_elem_of_list_to_map_1. intros Hin.
  apply list_elem_of_fmap in Hin as [[k v] [Hk Hkv]]. cbn in Hk. subst k.
  rewrite forallb_forall in Hall. apply list_elem_of_In in Hkv.
  specialize (Hall _ Hkv). cbn in Hall. rewrite Hc in Hall. discriminate.
Qed.

Lemma currency_symbol_plain c rest :
  plain c = true -> CURRENCY_SYMBOLS !! String c rest = None.
Proof. intros Hc. apply lookup_plain_key; [exact Hc|vm_compute; reflexivity]. Qed.

Lemma math_operator_plain c rest :
  plain c = true -> MATH_OPERATORS !! String c rest = None.
Proof. intros Hc. apply lookup_plain_key; [exact Hc|vm_compute; reflexivity]. Qed.

Lemma currency_loop_plain s :
  forall fuel text lang i result,
    plain_text s -> (String.length s <= fuel)%nat ->
    currency_loop fuel text lang i (singles s) result = Ok (result +:+ s).
Proof.
  unfold plain_text, singles.
  induction s as [|c s IH]; intros fuel text lang i result Hs Hfuel.
  - destruct fuel; cbn; rewrite append_nil_right; reflexivity.
  - destruct fuel as [|fuel]; [cbn in Hfuel; lia|].
    cbn in Hs. inversion Hs as [|? ? Hc Hs']; subst.
    cbn [list_ascii_of_string map currency_loop].
    rewrite currency_symbol_plain by exact Hc.
    rewrite IH by (try exact Hs'; cbn in Hfuel; lia).
    rewrite append_assoc. reflexivity.
Qed.

Lemma formulas_loop_plain s :
  forall fuel text lang prev i result,
    plain_text s -> (String.length s <= fuel)%nat ->
    formulas_loop fuel text lang prev i (singles s) result = result +:+ s.
Proof.
  unfold plain_text, singles.
  induction s as [|c s IH]; intros fuel text lang prev i result Hs Hfuel.
  - destruct fuel; cbn; rewrite append_nil_right; reflexivity.
  - destruct fuel as [|fuel]; [cbn in Hfuel; lia|].
    cbn in Hs. inversion Hs as [|? ? Hc Hs']; subst.
    cbn [list_ascii_of_string map formulas_loop].
    assert (Htwo : match map (fun c0 => String c0 "") (list_ascii_of_string s) with
                   | next :: tl' =>
                       match MATH_OPERATORS !! (String c "" +:+ next) with
                       | Some names => Some (names, next, tl')
                       | None => None
                       end
                   | [] => None
                   end = None).
    { destruct (map _ _) as [|next tl']; [reflexivity|].
      rewrite append_cons. rewrite math_operator_plain by exact Hc. reflexivity. }
    rewrite Htwo. rewrite math_operator_plain by exact Hc.
    rewrite IH by (try exact Hs'; cbn in Hfuel; lia).
    rewrite append_assoc. reflexivity.
Qed.

End Plain.

Section PlainPasses.
Import Cxx Regex PlainText TextUtils TextNormalizer.

Lemma normalizeDateTime_plain text lang :
  digit_free text -> normalizeDateTime text lang = Ok text.
Proof.
  intros H. unfold normalizeDateTime.
  rewrite (rewrite_needs_digit date_regex) by (try reflexivity; exact H).
  cbn [mbind result_bind].
  rewrite (rewrite_needs_digit time_regex) by (try reflexivity; exact H).
  cbn [mbind result_bind].
  apply rewrite_needs_digit; [reflexivity|exact H].
Qed.

Lemma normalizeCurrency_plain text lang :
  plain_text text -> normalizeCurrency text lang = Ok text.
Proof.
  intros H. unfold normalizeCurrency.
  rewrite splitUtf8_plain by exact H.
  rewrite currency_loop_plain by (try exact H; rewrite length_singles; lia).
  cbn [mbind result_bind].
  change ("" +:+ text) with text.
  apply rewrite_needs_digit; [reflexivity|apply plain_digit_free; exact H].
Qed.

Lemma normalizeUnits_plain sorted_units text lang :
  digit_free text -> normalizeUnits sorted_units text lang = Ok text.
Proof.
  intros H. unfold normalizeUnits.
  induction sorted_units as [|[unit names] entries IH]; [reflexivity|].
  cbn [normalizeUnits_from]. unfold normalizeUnit.
  rewrite (rewrite_needs_digit (unit_regex unit)) by (try reflexivity; exact H).
  cbn [mbind result_bind]. exact IH.
Qed.

Lemma normalizeFormulas_plain text lang :
  plain_text text -> normalizeFormulas text lang = text.
Proof.
  intros H. unfold normalizeFormulas.
  rewrite splitUtf8_plain by exact H.
  apply formulas_loop_plain; [exact H|rewrite length_singles; lia].
Qed.

End PlainPasses.

(** X7. Text made of ASCII characters other than digits and the signs
    [+ - * / = < > ^ $] goes through [normalizeText] unchanged, for every
    language setting and every order of the unit table. *)
Theorem normalizeText_keeps_plain_text :
  forall (sorted_units : list (string * (string * string))) (text : string)
         (lang : TextNormalizer.Language),
    PlainText.plain_text text ->
    TextNormalizer.normalizeText sorted_units text lang = Cxx.Ok text.
Proof.
  intros sorted_units text lang Hplain.
  pose proof (plain_digit_free text Hplain) as Hdigits.
  unfold TextNormalizer.normalizeText, TextNormalizer.normalize.
  destruct (String.eqb text ""); [reflexivity|].
  rewrite normalizeDateTime_plain by exact Hdigits. cbn [mbind Cxx.result_bind].
  rewrite normalizeCurrency_plain by exact Hplain. cbn [mbind Cxx.result_bind].
  unfold TextNormalizer.normalizePhoneNumbers.
  rewrite (rewrite_needs_digit TextNormalizer.phone_regex) by (try reflexivity; exact Hdigits).
  cbn [mbind Cxx.result_bind].
  unfold TextNormalizer.normalizePercentages.
  rewrite (rewrite_needs_digit TextNormalizer.percent_regex) by (try reflexivity; exact Hdigits).
  cbn [mbind Cxx.result_bind].
  rewrite normalizeUnits_plain by exact Hdigits. cbn [mbind Cxx.result_bind].
  rewrite normalizeFormulas_plain by exact Hplain.
  unfold TextNormalizer.normalizeNumbers.
  apply rewrite_needs_digit; [reflexivity|exact Hdigits].
Qed.

Lemma normalizeText_keeps_plain_text_witness :
  PlainText.plain_text "Hello, world! How are you?"
  /\ TextNormalizer.normalizeText TextNormalizer.table_order_units
       "Hello, world! How are you?" TextNormalizer.AUTO
     = Cxx.Ok "Hello, world! How are you?".
Proof.
  assert (H : PlainText.plain_text "Hello, world! How are you?").
  { unfold PlainText.plain_text. cbn. repeat constructor. }
  split; [exact H|].
  exact (normalizeText_keeps_plain_text TextNormalizer.table_order_units _ TextNormalizer.AUTO H).
Defined.

(* ===================================================================== *)
(** * Token and lexicon files                                           *)
(* ===================================================================== *)

Section ReadLines.
Import Cxx TokenUtils.
Context {V : Type} (entry : Z -> string -> option (string * V)).

Lemma read_lines_lookup lines :
  forall line_num map key value,
    read_lines entry lines line_num map !! key = Some value <->
    (exists i, last_entry entry lines line_num key value i)
    \/ (map !! key = Some value
        /\ forall j line value',
             lines !! j = Some line ->
             entry (line_num + 1 + Z.of_nat j) line <> Some (key, value')).
Proof.
  induction lines as [|line lines IH]; intros line_num map key value.
  - cbn. split.
    + intros H. right. split; [exact H|]. intros j l v Hj. rewrite lookup_nil in Hj. discriminate.
    + intros [[i [[l [Hl _]] _]]|[H _]]; [rewrite lookup_nil in Hl; discriminate|exact H].
  - cbn [read_lines]. rewrite IH. clear IH.
    assert (Hshift : forall j, line_num + 1 + 1 + Z.of_nat j = line_num + 1 + Z.of_nat (S j))
      by (intros; lia).
    assert (H0 : line_num + 1 + Z.of_nat 0 = line_num + 1) by lia.
    split.
    + intros [[i [[l [Hl He]] Hlast]]|[Hmap Hnone]].
      * left. exists (S i). split.
        -- exists l. split; [exact Hl|]. rewrite <- Hshift. exact He.
        -- intros [|j] l' v' Hij Hj; [lia|]. rewrite <- Hshift.
           apply (Hlast j l' v'); [lia|exact Hj].
      * destruct (entry (line_num + 1) line) as [[k v]|] eqn:He.
        -- destruct (decide (k = key)) as [->|Hne].
           ++ rewrite lookup_insert in Hmap. 
              destruct (decide (key = key)); [|contradiction].
              injection Hmap as ->.
              left. exists 0%nat. split.
              ** exists line. split; [reflexivity|]. rewrite H0. exact He.
              ** intros [|j] l' v' Hij Hj; [lia|]. rewrite <- Hshift. apply (Hnone j l' v'). exact Hj.
           ++ rewrite lookup_insert_ne in Hmap by exact Hne.
              right. split; [exact Hmap|].
              intros [|j] l' v' Hj.
              ** cbn in Hj. injection Hj as <-. rewrite H0, He. congruence.
              ** rewrite <- Hshift. apply (Hnone j l' v'). exact Hj.
        -- right. split; [exact Hmap|].
           intros [|j] l' v' Hj.
           ** cbn in Hj. injection Hj as <-. rewrite H0, He. discriminate.
           ** rewrite <- Hshift. apply (Hnone j l' v'). exact Hj.
    + intros [[[|i] [[l [Hl He]] Hlast]]|[Hmap Hnone]].
      * cbn in Hl. injection Hl as <-. rewrite H0 in He. rewrite He.
        right. split; [apply lookup_insert_eq|].
        intros j l' v' Hj. rewrite Hshift. apply (Hlast (S j) l' v'); [lia|exact Hj].
      * left. exists i. split.
        -- exists l. split; [exact Hl|]. rewrite Hshift. exact He.
        -- intros j l' v' Hij Hj. rewrite Hshift. apply (Hlast (S j) l' v'); [lia|exact Hj].
      * right. pose proof (Hnone 0%nat line) as Hfirst. rewrite H0 in Hfirst.
        split.
        -- destruct (entry (line_num + 1) line) as [[k v]|] eqn:He; [|exact Hmap].
           rewrite lookup_insert_ne; [exact Hmap|].
           intros ->. apply (Hfirst v); reflexivity.
        -- intros j l' v' Hj. rewrite Hshift. apply (Hnone (S j) l' v'). exact Hj.
Qed.

End ReadLines.

Section Readers.
Import Cxx TokenUtils.

Lemma find_char_split c line :
  forall n, find_char c line = Some n ->
    line = substr line 0 n +:+ String c (drop_str (S n) line)
    /\ find_char c (substr line 0 n) = None.
Proof.
  unfold substr. induction line as [|d line IH]; intros n; cbn [find_char]; [discriminate|].
  destruct (Ascii.eqb_spec c d) as [->|Hne].
  - intros [= <-]. split; reflexivity.
  - destruct (find_char c line) as [m|]; [|discriminate]. intros [= <-].
    destruct (IH m eq_refl) as [Heq Hnone].
    change (substring 0 (S m) (String d line)) with (String d (substring 0 m line)).
    change (drop_str (S (S m)) (String d line)) with (drop_str (S m) line).
    split.
    + change (String d (substring 0 m line) +:+ String c (drop_str (S m) line))
        with (String d (substring 0 m line +:+ String c (drop_str (S m) line))).
      f_equal. exact Heq.
    + cbn [find_char]. destruct (Ascii.eqb_spec c d); [contradiction|].
      rewrite Hnone. reflexivity.
Qed.

Lemma zh_en_entry_number line_num line tok id :
  zh_en_token_entry line_num line = Some (tok, id) -> id = line_num.
Proof.
  unfold zh_en_token_entry.
  destruct (String.eqb line " "); [intros [= _ <-]; reflexivity|].
  destruct (String.eqb line ""); [discriminate|].
  destruct (trimmed line); [intros [= _ <-]; reflexivity|discriminate].
Qed.

End Readers.

(** X8. The three readers keep, for every key, the entry of the last
    line that gives this key, and nothing else: a key is in the map with a
    value exactly when some line gives the pair and no later line gives
    the key again. *)
Theorem readers_keep_the_last_line :
  forall lines : list string,
    (forall map key id,
        TokenUtils.readTokenToIdMap (Some lines) = Cxx.Ok map ->
        (map !! key = Some id
         <-> exists i, TokenUtils.last_entry TokenUtils.token_entry lines 0 key id i))
    /\ (forall map key id,
           TokenUtils.readZhEnTokenToIdMap (Some lines) = Cxx.Ok map ->
           (map !! key = Some id
            <-> exists i, TokenUtils.last_entry TokenUtils.zh_en_token_entry lines 0 key id i))
    /\ (forall map word phones,
           TokenUtils.readLexicon (Some lines) = Cxx.Ok map ->
           (map !! word = Some phones
            <-> exists i, TokenUtils.last_entry TokenUtils.lexicon_entry lines 0 word phones i)).
Proof.
  intros lines.
  split; [|split]; intros map key value [= <-]; rewrite read_lines_lookup;
    (split; [intros [H|[H _]]; [exact H|rewrite lookup_empty in H; discriminate]|tauto]).
Qed.

(** X9. In the map of [readZhEnTokenToIdMap] the id of a token is the
    1-based number of a line of the file that holds this token (a line of
    one space for the space token, else the line trimmed), so it lies
    between 1 and the number of lines; and no two tokens share an id. *)
Theorem readZhEnTokenToIdMap_ids_are_line_numbers :
  forall (lines : list string) (map : gmap string Z),
    TokenUtils.readZhEnTokenToIdMap (Some lines) = Cxx.Ok map ->
    (forall token id,
        map !! token = Some id ->
        1 <= id <= Z.of_nat (length lines)
        /\ exists line,
             lines !! Z.to_nat (id - 1) = Some line
             /\ (line = " " /\ token = " " \/ TokenUtils.trimmed line = Some token))
    /\ (forall token1 token2 id,
           map !! token1 = Some id -> map !! token2 = Some id -> token1 = token2).
Proof.
  intros lines map [= <-].
  assert (Hline : forall token id,
             TokenUtils.read_lines TokenUtils.zh_en_token_entry lines 0 ∅ !! token = Some id ->
             exists i line,
               id = 1 + Z.of_nat i /\ lines !! i = Some line
               /\ TokenUtils.zh_en_token_entry id line = Some (token, id)).
  { intros token id Hlook. apply read_lines_lookup in Hlook.
    destruct Hlook as [[i [[line [Hl He]] _]]|[H _]]; [|rewrite lookup_empty in H; discriminate].
    pose proof (zh_en_entry_number _ _ _ _ He) as Hid.
    exists i, line. split; [lia|]. split; [exact Hl|].
    replace (0 + 1 + Z.of_nat i) with id in He by lia. exact He. }
  split.
  - intros token id Hlook. destruct (Hline token id Hlook) as (i & line & -> & Hl & He).
    pose proof (lookup_lt_Some _ _ _ Hl) as Hi.
    split; [lia|]. exists line.
    replace (Z.to_nat (1 + Z.of_nat i - 1)) with i by lia.
    split; [exact Hl|].
    unfold TokenUtils.zh_en_token_entry in He.
    destruct (String.eqb_spec line " ") as [->|_]; [injection He as <-; left; auto|].
    destruct (String.eqb line ""); [discriminate|].
    destruct (TokenUtils.trimmed line) as [tok|]; [|discriminate].
    injection He as <-. right. reflexivity.
  - intros token1 token2 id H1 H2.
    destruct (Hline token1 id H1) as (i1 & line1 & Hid1 & Hl1 & He1).
    destruct (Hline token2 id H2) as (i2 & line2 & Hid2 & Hl2 & He2).
    assert (i1 = i2) by lia. subst i2. rewrite Hl1 in Hl2. injection Hl2 as <-.
    rewrite He1 in He2. congruence.
Qed.

Lemma readZhEnTokenToIdMap_ids_are_line_numbers_witness :
  exists map,
    TokenUtils.readZhEnTokenToIdMap (Some ["a"; " "; "  b  "; "a"]) = Cxx.Ok map
    /\ map !! "a" = Some 4
    /\ (forall token id, map !! token = Some id -> 1 <= id <= 4)
    /\ (forall token, map !! token = Some 4 -> token = "a").
Proof.
  destruct (TokenUtils.readZhEnTokenToIdMap (Some ["a"; " "; "  b  "; "a"]))
    as [map|e] eqn:E; [|vm_compute in E; discriminate E].
  assert (Ha : map !! "a" = Some 4).
  { vm_compute in E. injection E as <-. vm_compute. reflexivity. }
  pose proof (readZhEnTokenToIdMap_ids_are_line_numbers _ _ E) as [Hline Hinj].
  exists map. split; [reflexivity|]. split; [exact Ha|]. split.
  - intros token id H. exact (proj1 (Hline token id H)).
  - intros token H. exact (Hinj token "a" 4 H Ha).
Defined.

(** X10. Every entry of [readLexicon] comes from a line of the file cut
    at its first space: the word has no space, and the word, a space and
    the phones make up that line. *)
Theorem readLexicon_splits_at_the_first_space :
  forall (lines : list string) (map : gmap string string) (word phones : string),
    TokenUtils.readLexicon (Some lines) = Cxx.Ok map ->
    map !! word = Some phones ->
    In (word +:+ " " +:+ phones) lines
    /\ Cxx.find_char " " word = None.
Proof.
  intros lines map word phones [= <-] Hlook. apply read_lines_lookup in Hlook.
  destruct Hlook as [[i [[line [Hl He]] _]]|[H _]]; [|rewrite lookup_empty in H; discriminate].
  unfold TokenUtils.lexicon_entry in He.
  destruct (String.eqb line ""); [discriminate|].
  destruct (Cxx.find_char " " line) as [n|] eqn:Hfind; [|discriminate].
  assert (Hword : word = Cxx.substr line 0 n) by congruence.
  assert (Hphones : phones = Cxx.drop_str (S n) line) by congruence.
  clear He. subst word phones.
  destruct (find_char_split _ _ _ Hfind) as [Heq Hnone].
  split; [|exact Hnone].
  replace (Cxx.substr line 0 n +:+ " " +:+ Cxx.drop_str (S n) line) with line
    by exact Heq.
  apply list_elem_of_In. eapply list_elem_of_lookup_2. exact Hl.
Qed.

Lemma readLexicon_splits_at_the_first_space_witness :
  exists map,
    TokenUtils.readLexicon (Some ["ni3 n i3"; "hao3 h ao3"]) = Cxx.Ok map
    /\ map !! "hao3" = Some "h ao3"
    /\ In ("hao3" +:+ " " +:+ "h ao3") ["ni3 n i3"; "hao3 h ao3"]
    /\ Cxx.find_char " " "hao3" = None.
Proof.
  destruct (TokenUtils.readLexicon (Some ["ni3 n i3"; "hao3 h ao3"]))
    as [map|e] eqn:E; [|vm_compute in E; discriminate E].
  assert (Hw : map !! "hao3" = Some "h ao3").
  { vm_compute in E. injection E as <-. vm_compute. reflexivity. }
  exists map. split; [reflexivity|]. split; [exact Hw|].
  exact (readLexicon_splits_at_the_first_space _ _ _ _ E Hw).
Defined.

(* ===================================================================== *)
(** * Matcha-ZH tokenisation                                            *)
(* ===================================================================== *)

Section MapPunctuation.
Import TextUtils.

Lemma has_token_Some m key : has_token m key = true -> is_Some (m !! key).
Proof. unfold has_token. intros H. apply bool_decide_eq_true_1 in H. exact H. Qed.

End MapPunctuation.

(** X11. [mapPunctuation] answers with the empty string or with a token
    of the table, never with anything else. *)
Theorem mapPunctuation_gives_a_token :
  forall (punct : string) (token_to_id : gmap string Z),
    TextUtils.mapPunctuation punct token_to_id = ""
    \/ is_Some (token_to_id !! TextUtils.mapPunctuation punct token_to_id).
Proof.
  intros punct m. unfold TextUtils.mapPunctuation.
  destruct (TextUtils.has_token m punct) eqn:H1; [right; apply has_token_Some; exact H1|].
  destruct (negb _ && TextUtils.has_token m (TextUtils.mapChinesePunctToAscii punct)) eqn:H2.
  { right. apply andb_true_iff in H2 as [_ H2]. apply has_token_Some. exact H2. }
  destruct (_ || _); [|left; reflexivity].
  destruct (TextUtils.has_token m "sil") eqn:H3; [right; apply has_token_Some; exact H3|].
  destruct (TextUtils.has_token m "sp") eqn:H4; [right; apply has_token_Some; exact H4|].
  destruct (TextUtils.has_token m "<eps>") eqn:H5; [right; apply has_token_Some; exact H5|].
  left. reflexivity.
Qed.

Section CleanWords.
Import MatchaZhBackend.

Lemma clean_rest_acc words :
  forall last acc, clean_rest words last acc = rev acc ++ clean_rest words last [].
Proof.
  induction words as [|word words IH]; intros last acc.
  - cbn. reflexivity.
  - cbn [clean_rest]. destruct (_ && _).
    + apply IH.
    + rewrite (IH word (last :: acc)), (IH word [last]). cbn [rev app].
      rewrite <- (app_assoc (rev acc) [last]). reflexivity.
Qed.

Lemma clean_rest_cons word words last :
  clean_rest (word :: words) last []
  = if is_separator word && is_separator last
    then clean_rest words last []
    else last :: clean_rest words word [].
Proof.
  cbn [clean_rest]. destruct (_ && _); [reflexivity|].
  rewrite clean_rest_acc. reflexivity.
Qed.

Lemma clean_rest_spec words :
  forall last,
    head (clean_rest words last []) = Some last
    /\ (forall i a b,
           clean_rest words last [] !! i = Some a ->
           clean_rest words last [] !! S i = Some b ->
           is_separator a && is_separator b = false)
    /\ filter (fun w => negb (is_separator w)) (clean_rest words last [])
       = filter (fun w => negb (is_separator w)) (last :: words).
Proof.
  induction words as [|word words IH]; intros last.
  - cbn [clean_rest rev app]. split; [reflexivity|]. split; [|reflexivity].
    intros i a b _ Hb. destruct i; discriminate.
  - rewrite clean_rest_cons.
    destruct (is_separator word && is_separator last) eqn:Hsep.
    + destruct (IH last) as (Hhead & Hadj & Hfilter).
      split; [exact Hhead|]. split; [exact Hadj|].
      rewrite Hfilter. apply andb_true_iff in Hsep as [Hw Hl].
      rewrite !filter_cons. rewrite Hw, Hl. reflexivity.
    + destruct (IH word) as (Hhead & Hadj & Hfilter).
      split; [reflexivity|]. split.
      * intros [|i] a b Ha Hb.
        -- cbn in Ha. injection Ha as <-.
           change (clean_rest words word [] !! 0%nat = Some b) in Hb.
           rewrite <- head_lookup, Hhead in Hb. injection Hb as <-.
           rewrite andb_comm. exact Hsep.
        -- change (clean_rest words word [] !! i = Some a) in Ha.
           change (clean_rest words word [] !! S i = Some b) in Hb.
           eapply Hadj; eassumption.
      * rewrite (filter_cons _ last (clean_rest words word [])), Hfilter.
        rewrite (filter_cons _ last (word :: words)). reflexivity.
Qed.

End CleanWords.

(** X12. The cleaning step of [MatchaZhBackend::textToTokenIds] keeps
    the first word, never leaves a blank or punctuation mark right after
    another one, and drops no other word. *)
Theorem clean_words_never_two_separators :
  forall words : list string,
    head (MatchaZhBackend.clean_words words) = head words
    /\ (forall i a b,
           MatchaZhBackend.clean_words words !! i = Some a ->
           MatchaZhBackend.clean_words words !! S i = Some b ->
           MatchaZhBackend.is_separator a && MatchaZhBackend.is_separator b = false)
    /\ filter (fun w => negb (MatchaZhBackend.is_separator w)) (MatchaZhBackend.clean_words words)
       = filter (fun w => negb (MatchaZhBackend.is_separator w)) words.
Proof.
  intros [|first words]; cbn [MatchaZhBackend.clean_words].
  - split; [reflexivity|]. split; [|reflexivity]. intros i a b H. rewrite lookup_nil in H. discriminate.
  - apply clean_rest_spec.
Qed.

Section ZhIds.
Import MatchaZhBackend.

Lemma convertPhonemesToIds_from_table self phonemes :
  from_table self (convertPhonemesToIds self phonemes).
Proof.
  unfold convertPhonemesToIds.
  assert (H : forall ws ids, from_table self ids ->
            from_table self (fold_left
              (fun ids phone =>
                 match token_to_id_ self !! phone with
                 | Some id => ids ++ [id]
                 | None =>
                     let mapped_phone := mapPhoneme phone in
                     if negb (String.eqb mapped_phone phone) then
                       match token_to_id_ self !! mapped_phone with
                       | Some id => ids ++ [id]
                       | None => ids
                       end
                     else ids
                 end) ws ids)).
  { induction ws as [|w ws IH]; intros ids Hids; [exact Hids|].
    cbn [fold_left]. apply IH.
    destruct (token_to_id_ self !! w) as [id|] eqn:Hw.
    - apply Forall_app. split; [exact Hids|]. constructor; [eauto|constructor].
    - cbv zeta. destruct (negb _); [|exact Hids].
      destruct (token_to_id_ self !! mapPhoneme w) as [id|] eqn:Hm; [|exact Hids].
      apply Forall_app. split; [exact Hids|]. constructor; [eauto|constructor]. }
  apply H. constructor.
Qed.

Lemma convertCharsToIds_from_table self chars :
  from_table self (convertCharsToIds self chars).
Proof.
  unfold convertCharsToIds.
  match goal with |- from_table _ (fold_left ?f _ _) =>
    assert (H : forall cs ids, from_table self ids -> from_table self (fold_left f cs ids))
  end.
  { induction cs as [|c cs IH]; intros ids Hids; [exact Hids|].
    cbn [fold_left]. apply IH. cbv zeta.
    assert (Htok : from_table self
                     match token_to_id_ self !! c with
                     | Some id => ids ++ [id]
                     | None => ids
                     end).
    { destruct (token_to_id_ self !! c) as [id|] eqn:Hc; [|exact Hids].
      apply Forall_app. split; [exact Hids|]. constructor; [eauto|constructor]. }
    destruct (negb _); [|exact Htok].
    destruct (lexicon_ self !! c) as [ph|]; [|exact Htok].
    apply Forall_app. split; [exact Hids|]. apply convertPhonemesToIds_from_table. }
  apply H. constructor.
Qed.

Lemma convertWordToIds_from_table self word :
  from_table self (convertWordToIds self word).
Proof.
  unfold convertWordToIds. cbv zeta.
  destruct (if negb _ then _ else _) as [ph|]; [apply convertPhonemesToIds_from_table|].
  destruct (token_to_id_ self !! word) as [id|] eqn:Hw.
  { constructor; [eauto|constructor]. }
  destruct (if TextUtils.isPunctuation word then _ else _) as [id|] eqn:Hp;
    [|apply convertCharsToIds_from_table].
  destruct (TextUtils.isPunctuation word); [|discriminate].
  destruct (negb _); [|discriminate].
  constructor; [eauto|constructor].
Qed.

End ZhIds.

(** X13. [MatchaZhBackend::textToTokenIds] invents no id: every id it
    returns is the id of a token of the table, whatever the segmenter, the
    lexicon and the text. *)
Theorem matcha_zh_ids_come_from_the_token_table :
  forall (J : MatchaZhBackend.Jieba) (self : MatchaZhBackend.state) (text : string),
    Forall (fun id => exists token, MatchaZhBackend.token_to_id_ self !! token = Some id)
           (MatchaZhBackend.textToTokenIds self text).
Proof.
  intros J self text. unfold MatchaZhBackend.textToTokenIds.
  destruct (negb _); [constructor|]. cbv zeta.
  match goal with |- Forall _ (fold_left ?f _ _) =>
    assert (H : forall ws ids,
               MatchaZhBackend.from_table self ids ->
               MatchaZhBackend.from_table self (fold_left f ws ids))
  end.
  { induction ws as [|w ws IH]; intros ids Hids; [exact Hids|].
    cbn [fold_left]. apply IH. apply Forall_app. split; [exact Hids|].
    apply convertWordToIds_from_table. }
  apply H. constructor.
Qed.

(* ===================================================================== *)
(** * What synthesize leaves in the result                              *)
(* ===================================================================== *)

Section Failure.
Import Cxx Types.



End Failure.



Section Filled.
Import Cxx Types.

Lemma calculateRTF_fields r :
  audio (calculateRTF r) = audio r
  /\ audio_duration_ms (calculateRTF r) = audio_duration_ms r
  /\ processing_time_ms (calculateRTF r) = processing_time_ms r
  /\ sentences (calculateRTF r) = sentences r
  /\ request_id (calculateRTF r) = request_id r.
Proof. unfold calculateRTF. destruct (0 <? audio_duration_ms r); repeat split. Qed.

Lemma matcha_try_filled `{Platform} `{Runtime} `{MatchaBackend.Language} self text r r' :
  MatchaBackend.synthesize_try self text r = Ok r' ->
  samples (audio r') <> [] ->
  filled elapsed_ms text r r'.
Proof.
  unfold MatchaBackend.synthesize_try. intros Hrun Hsamples.
  inv_bind Hrun. inv_bind Hrun.
  destruct (bool_decide (a0 = [])).
  { injection Hrun as <-. cbn in Hsamples. contradiction. }
  inv_bind Hrun. inv_bind Hrun.
  destruct (bool_decide (a2 = [])).
  { injection Hrun as <-. cbn in Hsamples. contradiction. }
  inv_bind Hrun.
  destruct (_ && _); injection Hrun as <-; unfold filled; cbn;
    match goal with |- context [calculateRTF ?x] =>
      destruct (calculateRTF_fields x) as (Fa & Fd & Fp & Fs & Fr)
    end; rewrite ?Fa, ?Fd, ?Fp, ?Fs, ?Fr; cbn; repeat split; reflexivity.
Qed.

Lemma kokoro_try_filled `{Platform} `{Runtime} self text r r' :
  KokoroBackend.synthesize_try self text r = Ok r' ->
  samples (audio r') <> [] ->
  filled elapsed_ms text r r'.
Proof.
  unfold KokoroBackend.synthesize_try. intros Hrun Hsamples.
  inv_bind Hrun.
  destruct (bool_decide (a = [])).
  { injection Hrun as <-. cbn in Hsamples. contradiction. }
  inv_bind Hrun. inv_bind Hrun.
  destruct (bool_decide (a1 = [])).
  { injection Hrun as <-. cbn in Hsamples. contradiction. }
  injection Hrun as <-; unfold filled; cbn;
    match goal with |- context [calculateRTF ?x] =>
      destruct (calculateRTF_fields x) as (Fa & Fd & Fp & Fs & Fr)
    end; rewrite ?Fa, ?Fd, ?Fp, ?Fs, ?Fr; cbn; repeat split; reflexivity.
Qed.

End Filled.

(** X15. A synthesis that succeeds with samples sets [audio_duration_ms]
    to the duration of the chunk and [processing_time_ms] to the time
    taken, marks the chunk final, keeps the request id, and appends one
    sentence with the input text that runs from 0 to that duration. *)
Theorem synthesize_fills_the_result :
  (forall (P : Platform) (R : Runtime) (L : MatchaBackend.Language)
          (self : MatchaBackend.state) (text : string) (r r' : Types.SynthesisResult)
          (err : Types.ErrorInfo),
      MatchaBackend.synthesize self text r = Cxx.Ok (err, r') ->
      Types.isOk err = true ->
      Types.samples (Types.audio r') <> [] ->
      filled elapsed_ms text r r')
  /\ (forall (P : Platform) (R : Runtime) (self : KokoroBackend.state) (text : string)
             (r r' : Types.SynthesisResult) (err : Types.ErrorInfo),
         KokoroBackend.synthesize self text r = Cxx.Ok (err, r') ->
         Types.isOk err = true ->
         Types.samples (Types.audio r') <> [] ->
         filled elapsed_ms text r r').
Proof.
  split.
  - intros P R L self text r r' err Hrun Hok Hsamples.
    apply (matcha_try_filled self text r r'); [|exact Hsamples].
    eapply matcha_synthesize_ok; eassumption.
  - intros P R self text r r' err Hrun Hok Hsamples.
    apply (kokoro_try_filled self text r r'); [|exact Hsamples].
    eapply kokoro_synthesize_ok; eassumption.
Qed.

Lemma synthesize_fills_the_result_witness :
  @MatchaBackend.synthesize demo_platform demo_runtime byte_language matcha_zh_state
    "hi" fresh_result = Cxx.Ok matcha_hi
  /\ Types.isOk (fst matcha_hi) = true
  /\ Types.samples (Types.audio (snd matcha_hi)) <> []
  /\ filled (@elapsed_ms demo_runtime) "hi" fresh_result (snd matcha_hi).
Proof.
  assert (E : @MatchaBackend.synthesize demo_platform demo_runtime byte_language
                matcha_zh_state "hi" fresh_result
              = Cxx.Ok (fst matcha_hi, snd matcha_hi)) by (vm_compute; reflexivity).
  assert (Hok : Types.isOk (fst matcha_hi) = true) by (vm_compute; reflexivity).
  assert (Hdata : Types.samples (Types.audio (snd matcha_hi)) <> [])
    by (vm_compute; discriminate).
  split; [vm_compute; reflexivity|]. split; [exact Hok|]. split; [exact Hdata|].
  exact (proj1 synthesize_fills_the_result demo_platform demo_runtime byte_language
           _ _ _ _ _ E Hok Hdata).
Defined.

(* ===================================================================== *)
(** * Accepted speeds                                                   *)
(* ===================================================================== *)

Section Floats.

Lemma SFcompare_antisym x y c :
  SFcompare x y = Some c -> SFcompare y x = Some (CompOpp c).
Proof.
  destruct x as [sx|sx| |sx mx ex], y as [sy|sy| |sy my ey]; cbn;
    try discriminate;
    try (destruct sx; intros [= <-]; reflexivity);
    try (destruct sy; intros [= <-]; reflexivity);
    try (destruct sx, sy; intros [= <-]; reflexivity).
  destruct sx, sy; intros [= <-]; try reflexivity;
    rewrite (Z.compare_antisym ey ex);
    destruct (ey ?= ex); cbn; try reflexivity;
    change (PosDef.Pos.compare_cont Eq my mx) with (Pos.compare my mx);
    change (PosDef.Pos.compare_cont Eq mx my) with (Pos.compare mx my);
    rewrite (Pos.compare_antisym mx my);
    destruct (Pos.compare mx my); reflexivity.
Qed.

Lemma ltb_not_leb x y : F32.ltb x y = true -> F32.leb y x = false.
Proof.
  unfold F32.ltb, F32.leb, SFltb, SFleb.
  destruct (SFcompare x y) as [[]|] eqn:H; try discriminate. intros _.
  rewrite (SFcompare_antisym _ _ _ H). reflexivity.
Qed.

Lemma leb_not_ltb x y : F32.leb x y = true -> F32.ltb y x = false.
Proof.
  unfold F32.ltb, F32.leb, SFltb, SFleb.
  destruct (SFcompare x y) as [[]|] eqn:H; try discriminate; intros _;
    rewrite (SFcompare_antisym _ _ _ H); reflexivity.
Qed.

End Floats.

(** X17. Every speed above 0 and at most 10 is accepted by [setSpeed] of
    both backends: the call returns OK and the speed becomes the current
    speed, nothing else changing. *)
Theorem setSpeed_accepts_the_range :
  forall speed : F32.float,
    F32.ltb (F32.of_Z 0) speed = true ->
    F32.leb speed (F32.of_Z 10) = true ->
    (forall self : MatchaBackend.state,
        MatchaBackend.setSpeed self speed = (Types.ok, MatchaBackend.set_current_speed_ self speed))
    /\ (forall self : KokoroBackend.state,
           KokoroBackend.setSpeed self speed
           = (Types.ok, KokoroBackend.set_current_speed_ self speed)).
Proof.
  intros speed Hlow Hhigh.
  apply ltb_not_leb in Hlow. apply leb_not_ltb in Hhigh.
  split; intros self; unfold MatchaBackend.setSpeed, KokoroBackend.setSpeed;
    rewrite Hlow, Hhigh; reflexivity.
Qed.

Lemma setSpeed_accepts_the_range_witness :
  F32.ltb (F32.of_Z 0) (F32.of_bits 0x3FC00000) = true
  /\ F32.leb (F32.of_bits 0x3FC00000) (F32.of_Z 10) = true
  /\ MatchaBackend.current_speed_
       (snd (MatchaBackend.setSpeed matcha_zh_state (F32.of_bits 0x3FC00000)))
     = F32.of_bits 0x3FC00000.
Proof.
  assert (Hlow : F32.ltb (F32.of_Z 0) (F32.of_bits 0x3FC00000) = true) by (vm_compute; reflexivity).
  assert (Hhigh : F32.leb (F32.of_bits 0x3FC00000) (F32.of_Z 10) = true) by (vm_compute; reflexivity).
  split; [exact Hlow|]. split; [exact Hhigh|].
  rewrite (proj1 (setSpeed_accepts_the_range _ Hlow Hhigh) matcha_zh_state). reflexivity.
Defined.

(* ===================================================================== *)
(** * Loading a voice                                                   *)
(* ===================================================================== *)

(** X18. [loadVoice] loads all of a voice or none of it. When it returns
    true the file was read well, holds a positive whole number of rows of
    1024 bytes, and the manager holds exactly these rows; when it returns
    false the row count is as before and the data is as before or empty. *)
Theorem loadVoice_all_or_nothing :
  forall (self self' : KokoroVoiceManager.state) (file : KokoroVoiceManager.voice_file)
         (loaded : bool),
    fits_int file ->
    KokoroVoiceManager.loadVoice self file = Cxx.Ok (loaded, self') ->
    if loaded then
      exists bytes,
        file = KokoroVoiceManager.content bytes true
        /\ 1 <= KokoroVoiceManager.num_rows_ self'
        /\ Z.of_nat (length bytes) = 1024 * KokoroVoiceManager.num_rows_ self'
        /\ KokoroVoiceManager.style_data_ self' = KokoroVoiceManager.floats_of_bytes bytes
        /\ Z.of_nat (length (KokoroVoiceManager.style_data_ self'))
           = 256 * KokoroVoiceManager.num_rows_ self'
    else
      KokoroVoiceManager.num_rows_ self' = KokoroVoiceManager.num_rows_ self
      /\ (KokoroVoiceManager.style_data_ self' = KokoroVoiceManager.style_data_ self
          \/ KokoroVoiceManager.style_data_ self' = []).
Proof.
  intros self self' file loaded Hfit. unfold KokoroVoiceManager.loadVoice.
  destruct file as [|bytes good].
  { intros [= <- <-]. auto. }
  cbn in Hfit. set (size := Z.of_nat (length bytes)) in *.
  unfold KokoroVoiceManager.STYLE_DIM in *.
  destruct (Z.eqb_spec (size / 4) 0); cbn [orb].
  { intros [= <- <-]. auto. }
  destruct (Z.eqb_spec (size / 4 mod 256) 0); cbn [negb].
  2: { intros [= <- <-]. auto. }
  destruct (Z.eqb_spec (size mod 4) 0); cbn [negb]; [|discriminate].
  destruct good; cbn [negb]; intros [= <- <-]; [|cbn; auto].
  exists bytes. cbn [KokoroVoiceManager.style_data_ KokoroVoiceManager.num_rows_].
  pose proof (Z_div_exact_full_2 size 4 ltac:(lia) ltac:(assumption)) as Hfloats.
  pose proof (Z_div_exact_full_2 (size / 4) 256 ltac:(lia) ltac:(assumption)) as Hrows.
  assert (Hsize : 0 <= size) by (unfold size; lia).
  set (rows := size / 4 / 256) in *.
  assert (Hpos : 1 <= rows) by lia.
  rewrite to_int_small by (unfold Cxx.INT_MAX in Hfit; lia).
  split; [reflexivity|]. split; [exact Hpos|]. split; [lia|]. split; [reflexivity|].
  rewrite (floats_of_bytes_length (Z.to_nat (256 * rows))); lia.
Qed.

Lemma loadVoice_all_or_nothing_witness :
  fits_int two_row_voice
  /\ KokoroVoiceManager.loadVoice
       {| KokoroVoiceManager.style_data_ := []; KokoroVoiceManager.num_rows_ := 0 |}
       two_row_voice = Cxx.Ok (true, two_row_manager)
  /\ exists bytes,
       two_row_voice = KokoroVoiceManager.content bytes true
       /\ Z.of_nat (length bytes) = 1024 * KokoroVoiceManager.num_rows_ two_row_manager.
Proof.
  assert (Hfit : fits_int two_row_voice) by (vm_compute; discriminate).
  assert (E : KokoroVoiceManager.loadVoice
                {| KokoroVoiceManager.style_data_ := []; KokoroVoiceManager.num_rows_ := 0 |}
                two_row_voice = Cxx.Ok (true, two_row_manager)) by (vm_compute; reflexivity).
  split; [exact Hfit|]. split; [exact E|].
  destruct (loadVoice_all_or_nothing _ _ _ _ Hfit E) as (bytes & Hfile & _ & Hlen & _).
  exists bytes. split; [exact Hfile|exact Hlen].
Defined.

(* ===================================================================== *)
(** * The duration of a chunk                                           *)
(* ===================================================================== *)

(** X19. [getDurationMs] is the length of the chunk in whole
    milliseconds, rounded down: for a positive sample rate and a chunk
    short enough for the result to fit [int], [d * rate <= 1000 * n <
    (d + 1) * rate]. *)
Theorem getDurationMs_is_the_floor :
  forall chunk : Types.AudioChunk,
    0 < Types.sample_rate chunk <= Cxx.INT_MAX ->
    Z.of_nat (length (Types.samples chunk)) * 1000 < 2 ^ 31 * Types.sample_rate chunk ->
    Types.getDurationMs chunk * Types.sample_rate chunk
      <= Z.of_nat (length (Types.samples chunk)) * 1000
      < (Types.getDurationMs chunk + 1) * Types.sample_rate chunk.
Proof.
  intros chunk Hrate Hsize. unfold Types.getDurationMs, Cxx.INT_MAX in *.
  set (n := Z.of_nat (length (Types.samples chunk))) in *.
  set (rate := Types.sample_rate chunk) in *.
  destruct (decide (Types.samples chunk = [])) as [Hempty|Hdata].
  - rewrite bool_decide_eq_true_2 by exact Hempty. cbn [orb].
    assert (n = 0) by (unfold n; rewrite Hempty; reflexivity). lia.
  - rewrite bool_decide_eq_false_2 by exact Hdata. cbn [orb].
    destruct (Z.leb_spec rate 0); [lia|].
    assert (Hn : 0 <= n) by (unfold n; lia).
    rewrite (Z.mod_small (n * 1000)) by nia.
    assert (Hq : 0 <= n * 1000 / rate < 2 ^ 31).
    { split; [apply Z.div_pos; lia|]. apply Z.div_lt_upper_bound; lia. }
    rewrite to_int_small by lia.
    pose proof (Z.mul_div_le (n * 1000) rate ltac:(lia)).
    pose proof (Z.mul_succ_div_gt (n * 1000) rate ltac:(lia)). nia.
Qed.

Lemma getDurationMs_is_the_floor_witness :
  0 < Types.sample_rate short_audio <= Cxx.INT_MAX
  /\ Z.of_nat (length (Types.samples short_audio)) * 1000
     < 2 ^ 31 * Types.sample_rate short_audio
  /\ Types.getDurationMs short_audio * Types.sample_rate short_audio
     <= Z.of_nat (length (Types.samples short_audio)) * 1000
     < (Types.getDurationMs short_audio + 1) * Types.sample_rate short_audio.
Proof.
  assert (Hrate : 0 < Types.sample_rate short_audio <= Cxx.INT_MAX)
    by (vm_compute; split; [reflexivity|discriminate]).
  assert (Hsize : Z.of_nat (length (Types.samples short_audio)) * 1000
                  < 2 ^ 31 * Types.sample_rate short_audio) by (vm_compute; reflexivity).
  split; [exact Hrate|]. split; [exact Hsize|].
  exact (getDurationMs_is_the_floor short_audio Hrate Hsize).
Defined.


(* ===================================================================== *)
(** * Samples as 16-bit integers                                        *)
(* ===================================================================== *)

Section Int16.
Import Cxx AudioProcessor.

(** All 65536 samples, in 256 rows of 256. *)
Lemma round_trip_all :
  forallb (fun row => forallb (fun col => round_trip_ok (256 * row + col)) (seqZ 0 256))
          (seqZ (-128) 256) = true.
Proof. vm_compute. reflexivity. Qed.

Lemma round_trip_sample x :
  -32768 <= x <= 32767 ->
  sample_to_int16 (F32.div (F32.of_Z x) (F32.of_Z 32768)) = Ok (x - Z.sgn x).
Proof.
  intros Hx. pose proof round_trip_all as H. rewrite forallb_forall in H.
  specialize (H (x / 256)). rewrite forallb_forall in H.
  pose proof (Z.div_mod x 256 ltac:(lia)) as Hdm.
  pose proof (Z.mod_pos_bound x 256 ltac:(lia)) as Hmod.
  assert (Hrow : -128 <= x / 256 < 128).
  { split; [apply Z.div_le_lower_bound; lia|apply Z.div_lt_upper_bound; lia]. }
  assert (Hok : round_trip_ok (256 * (x / 256) + x mod 256) = true).
  { apply H; apply list_elem_of_In, elem_of_seqZ; lia. }
  rewrite <- Hdm in Hok. unfold round_trip_ok in Hok.
  destruct (sample_to_int16 _) as [y|e]; [|discriminate].
  f_equal. apply Z.eqb_eq. exact Hok.
Qed.

End Int16.

(** X20. Going from 16-bit samples to [float] with [int16ToFloat] and
    back with [floatToInt16] never fails and does not give the samples
    back: every sample that is not 0 comes back one unit nearer to 0
    (32767 as 32766, -32768 as -32767). *)
Theorem int16_round_trip_loses_one :
  forall samples : list Z,
    Forall (fun x => -32768 <= x <= 32767) samples ->
    AudioProcessor.floatToInt16 (AudioProcessor.int16ToFloat samples)
    = Cxx.Ok (map (fun x => x - Z.sgn x) samples).
Proof.
  intros samples H. induction H as [|x xs Hx Hxs IH]; [reflexivity|].
  cbn [AudioProcessor.int16ToFloat map AudioProcessor.floatToInt16].
  rewrite (round_trip_sample x Hx). cbn [mbind Cxx.result_bind].
  unfold AudioProcessor.int16ToFloat in IH. rewrite IH. reflexivity.
Qed.

Lemma int16_round_trip_loses_one_witness :
  Forall (fun x => -32768 <= x <= 32767) [32767; 1; 0; -1; -32768]
  /\ AudioProcessor.floatToInt16 (AudioProcessor.int16ToFloat [32767; 1; 0; -1; -32768])
     = Cxx.Ok [32766; 0; 0; 0; -32767].
Proof.
  assert (H : Forall (fun x => -32768 <= x <= 32767) [32767; 1; 0; -1; -32768])
    by (repeat constructor; lia).
  split; [exact H|]. exact (int16_round_trip_loses_one _ H).
Defined.

Section Bytes.
Import Cxx AudioProcessor.

Lemma bytes_of_int16 x :
  -32768 <= x <= 32767 ->
  0 <= low_byte x < 256 /\ 0 <= high_byte x < 256
  /\ (low_byte x + 256 * high_byte x + 32768) mod 65536 - 32768 = x.
Proof.
  intros Hx. unfold low_byte, high_byte.
  change 255 with (Z.ones 8). rewrite !Z.land_ones by lia.
  rewrite Z.shiftr_div_pow2 by lia. change (2 ^ 8) with 256.
  pose proof (Z.mod_pos_bound x 256 ltac:(lia)).
  pose proof (Z.mod_pos_bound (x / 256) 256 ltac:(lia)).
  split; [lia|]. split; [lia|].
  pose proof (Z.div_mod x 256 ltac:(lia)).
  pose proof (Z.div_mod (x / 256) 256 ltac:(lia)).
  assert (Hrow : -128 <= x / 256 < 128).
  { split; [apply Z.div_le_lower_bound; lia|apply Z.div_lt_upper_bound; lia]. }
  destruct (Z_lt_le_dec x 0).
  - assert (x / 256 < 0) by (apply Z.div_lt_upper_bound; lia).
    assert (x / 256 / 256 = -1) by lia.
    replace (x mod 256 + 256 * ((x / 256) mod 256) + 32768) with (x + 32768 + 1 * 65536) by lia.
    rewrite Z.mod_add by lia. rewrite Z.mod_small; lia.
  - assert (0 <= x / 256) by (apply Z.div_pos; lia).
    assert (x / 256 / 256 = 0) by lia.
    replace (x mod 256 + 256 * ((x / 256) mod 256) + 32768) with (x + 32768) by lia.
    rewrite Z.mod_small; lia.
Qed.

Lemma to_int16_range x z : to_int16 x = Ok z -> -32768 <= z <= 32767.
Proof.
  unfold to_int16. destruct (F32.trunc x) as [t|]; [|discriminate].
  destruct (Z.leb_spec (-32768) t); destruct (Z.leb_spec t 32767); cbn; try discriminate.
  intros [= <-]. lia.
Qed.

Lemma floatToInt16_range audio :
  forall xs, floatToInt16 audio = Ok xs ->
    length xs = length audio /\ Forall (fun x => -32768 <= x <= 32767) xs.
Proof.
  induction audio as [|s audio IH]; intros xs Hrun; cbn [floatToInt16] in Hrun.
  - injection Hrun as <-. split; [reflexivity|constructor].
  - inv_bind Hrun. inv_bind Hrun. injection Hrun as <-.
    destruct (IH a0 Ha0) as [Hlen Hall]. split; [cbn; lia|].
    constructor; [|exact Hall]. eapply to_int16_range. exact Ha.
Qed.

End Bytes.

(** X21. [floatToBytes] writes each sample of [floatToInt16] as two
    bytes, low byte first: the output is twice as long as the input, and
    the bytes at [2 i] and [2 i + 1] read as a little-endian signed
    16-bit number give sample [i] back. *)
Theorem floatToBytes_is_little_endian :
  forall (audio : list F32.float) (samples : list Z),
    AudioProcessor.floatToInt16 audio = Cxx.Ok samples ->
    exists bytes,
      AudioProcessor.floatToBytes audio = Cxx.Ok bytes
      /\ length bytes = (2 * length audio)%nat
      /\ forall i x,
           samples !! i = Some x ->
           exists lo hi,
             bytes !! (2 * i)%nat = Some lo /\ bytes !! (2 * i + 1)%nat = Some hi
             /\ 0 <= lo < 256 /\ 0 <= hi < 256
             /\ (lo + 256 * hi + 32768) mod 65536 - 32768 = x.
Proof.
  intros audio samples Hrun. unfold AudioProcessor.floatToBytes. rewrite Hrun.
  cbn [mbind Cxx.result_bind]. eexists. split; [reflexivity|].
  destruct (floatToInt16_range audio samples Hrun) as [Hlen Hall]. clear Hrun.
  rewrite <- Hlen. clear Hlen audio.
  induction Hall as [|y ys Hy Hys IH]; [split; [reflexivity|]; intros i x H; rewrite lookup_nil in H; discriminate|].
  destruct IH as [IHlen IHbytes]. cbn [map concat app length].
  split; [rewrite IHlen; lia|].
  intros [|i] x Hx.
  - cbn in Hx. injection Hx as <-.
    exists (AudioProcessor.low_byte y), (AudioProcessor.high_byte y).
    destruct (bytes_of_int16 y Hy) as (Hlo & Hhi & Hdec). repeat split; try lia; reflexivity.
  - cbn in Hx. destruct (IHbytes i x Hx) as (lo & hi & Hlo & Hhi & Hrest).
    exists lo, hi. replace (2 * S i)%nat with (S (S (2 * i))) by lia.
    split; [exact Hlo|]. split; [exact Hhi|exact Hrest].
Qed.

Lemma floatToBytes_is_little_endian_witness :
  AudioProcessor.floatToInt16 [F32.of_Z 1; F32.of_Z (-1)] = Cxx.Ok [32767; -32767]
  /\ exists bytes,
       AudioProcessor.floatToBytes [F32.of_Z 1; F32.of_Z (-1)] = Cxx.Ok bytes
       /\ length bytes = 4%nat.
Proof.
  assert (E : AudioProcessor.floatToInt16 [F32.of_Z 1; F32.of_Z (-1)]
              = Cxx.Ok [32767; -32767]) by (vm_compute; reflexivity).
  split; [exact E|].
  destruct (floatToBytes_is_little_endian _ _ E) as (bytes & Hbytes & Hlen & _).
  exists bytes. split; [exact Hbytes|exact Hlen].
Defined.

(** X22. [floatToInt16] saturates at 32767 in both directions: a sample
    above 1 (infinity included) becomes 32767, a sample below -1 becomes
    -32767, not -32768; on NaN the conversion to [int16_t] is undefined. *)
Theorem floatToInt16_saturates :
  forall sample : F32.float,
    (F32.ltb (F32.of_Z 1) sample = true ->
     AudioProcessor.sample_to_int16 sample = Cxx.Ok 32767)
    /\ (F32.ltb sample (F32.of_Z (-1)) = true ->
        AudioProcessor.sample_to_int16 sample = Cxx.Ok (-32767))
    /\ (sample = F32.nan ->
        AudioProcessor.sample_to_int16 sample = Cxx.Throw Cxx.undefined).
Proof.
  intros sample. unfold AudioProcessor.sample_to_int16. split; [|split].
  - intros ->. vm_compute. reflexivity.
  - intros Hlow.
    assert (Hhigh : F32.ltb (F32.of_Z 1) sample = false).
    { destruct sample as [s|[|]| |[|] m e]; try discriminate; reflexivity. }
    rewrite Hhigh, Hlow. vm_compute. reflexivity.
  - intros ->. vm_compute. reflexivity.
Qed.

Lemma floatToInt16_saturates_witness :
  F32.ltb (F32.of_Z 1) (F32.of_Z 3) = true
  /\ F32.ltb (F32.of_Z (-3)) (F32.of_Z (-1)) = true
  /\ AudioProcessor.sample_to_int16 (F32.of_Z 3) = Cxx.Ok 32767
  /\ AudioProcessor.sample_to_int16 (F32.of_Z (-3)) = Cxx.Ok (-32767).
Proof.
  assert (Hup : F32.ltb (F32.of_Z 1) (F32.of_Z 3) = true) by (vm_compute; reflexivity).
  assert (Hdown : F32.ltb (F32.of_Z (-3)) (F32.of_Z (-1)) = true) by (vm_compute; reflexivity).
  split; [exact Hup|]. split; [exact Hdown|]. split.
  - exact (proj1 (floatToInt16_saturates (F32.of_Z 3)) Hup).
  - exact (proj1 (proj2 (floatToInt16_saturates (F32.of_Z (-3)))) Hdown).
Defined.

(* ===================================================================== *)
(** * The backend factory                                               *)
(* ===================================================================== *)

(** X23. [TtsBackendFactory]: [create] returns a backend exactly for the
    types that [isAvailable] accepts, these are the types that
    [getAvailableBackends] lists, and the backend created for a type
    reports this type. *)
Theorem factory_creates_what_is_available :
  forall type : Types.BackendType,
    (TtsBackendFactory.isAvailable type = true <-> is_Some (TtsBackendFactory.create type))
    /\ (TtsBackendFactory.isAvailable type = true
        <-> In type TtsBackendFactory.getAvailableBackends)
    /\ (forall b, TtsBackendFactory.create type = Some b -> TtsBackendFactory.getType b = type).
Proof.
  intros type. split; [|split].
  - destruct type; cbn; split; intros H; try reflexivity; try discriminate; eauto;
      destruct H as [b Hb]; discriminate.
  - destruct type; cbn; split; intros H; try reflexivity; try discriminate; try tauto;
      repeat (destruct H as [H|H]; try discriminate); contradiction.
  - intros b. destruct type; cbn; intros [= <-]; reflexivity.
Qed.
